(** * SpecMate: the report synthesis engine

    A shallow embedding of [src/utils/report.ts] (the module that holds
    [generateMarkdownReport], [getConsultantsForDivisions],
    [getSuppliersForMaterials] and [buildPDFDocument]) together with the
    data model of [src/types/index.ts], and the properties of the
    grouping, ordering and conditional-section logic.  The pure parts
    of the modules around it are embedded as well: the building code of
    a location ([src/utils/geocode.ts]), the usage log
    ([src/utils/logging.ts]), the handling of image data URLs
    ([src/utils/api.ts]) and of the text of a response
    ([src/utils/prompt.ts]).

    Conventions of the embedding.
    - A JavaScript string is a Rocq [string]; its code units are the
      characters of the Rocq string.  Case mapping and the regular
      expression class [\s] are those of the ASCII range.
    - JavaScript numbers that only ever hold array lengths, indices and
      small integers are [nat] or [Z]; [NaN] is the [None] of [option Z].
      The millimetre arithmetic of the page cursor is done in [Q].
    - An object used as a dictionary is an association list in insertion
      order (the order [Object.keys] reports for keys that are not array
      indices), read through its own keys only.
    - [Array.prototype.sort] is a stable sort driven by the sign of the
      comparator.  Every stable sort returns the same array when the
      comparator is a total preorder; insertion sort is the one written
      here. *)

From Stdlib Require Import List String Ascii Bool Arith ZArith QArith Lia Lqa.
From Stdlib Require Import Permutation Sorted DecimalString.
Import ListNotations.

Local Open Scope string_scope.
Local Open Scope nat_scope.
Local Open Scope list_scope.

(** Concatenation inside a template literal. *)
Infix "+++" := String.append (at level 60, right associativity).

(* ================================================================== *)
(** ** Strings *)

Module Str.

(** [\s] on the ASCII range: TAB, LF, VT, FF, CR and SPACE. *)
Definition isSpace (c : ascii) : bool :=
  let n := nat_of_ascii c in
  ((9 <=? n) && (n <=? 13)) || (n =? 32).

Definition lowerChar (c : ascii) : ascii :=
  let n := nat_of_ascii c in
  if (65 <=? n) && (n <=? 90) then ascii_of_nat (n + 32) else c.

Definition upperChar (c : ascii) : ascii :=
  let n := nat_of_ascii c in
  if (97 <=? n) && (n <=? 122) then ascii_of_nat (n - 32) else c.

Fixpoint map (f : ascii -> ascii) (s : string) : string :=
  match s with
  | EmptyString => EmptyString
  | String c s' => String (f c) (map f s')
  end.

Definition toLowerCase : string -> string := map lowerChar.
Definition toUpperCase : string -> string := map upperChar.

(** [s.replace(/\s+/g, '')] *)
Fixpoint removeSpaces (s : string) : string :=
  match s with
  | EmptyString => EmptyString
  | String c s' => if isSpace c then removeSpaces s' else String c (removeSpaces s')
  end.

Fixpoint trimStart (s : string) : string :=
  match s with
  | EmptyString => EmptyString
  | String c s' => if isSpace c then trimStart s' else s
  end.

Fixpoint rev_onto (s acc : string) : string :=
  match s with
  | EmptyString => acc
  | String c s' => rev_onto s' (String c acc)
  end.

Definition rev (s : string) : string := rev_onto s EmptyString.

Definition trimEnd (s : string) : string := rev (trimStart (rev s)).

Definition trim (s : string) : string := trimEnd (trimStart s).

Fixpoint drop (n : nat) (s : string) : string :=
  match n, s with
  | O, _ => s
  | S _, EmptyString => EmptyString
  | S k, String _ s' => drop k s'
  end.

(** [s.startsWith(p)] *)
Fixpoint startsWith (p s : string) : bool :=
match p, s with
| EmptyString, _ => true
| String a p', String b s' => Ascii.eqb a b && startsWith p' s'
| String _ _, EmptyString => false
end.

(** The text before and after the first occurrence of [sep]. *)
Fixpoint splitFirst (sep s : string) : option (string * string) :=
  if startsWith sep s then Some (EmptyString, drop (String.length sep) s)
  else match s with
       | EmptyString => None
       | String c s' =>
           match splitFirst sep s' with
           | Some (a, b) => Some (String c a, b)
           | None => None
           end
       end.

Definition includes (sep s : string) : bool :=
  match splitFirst sep s with Some _ => true | None => false end.

Fixpoint splitFuel (fuel : nat) (sep s : string) : list string :=
  match fuel with
  | O => [s]
  | S f =>
      match splitFirst sep s with
      | None => [s]
      | Some (a, b) => a :: splitFuel f sep b
      end
  end.

(** [s.split(sep)] for a separator that is not empty: every occurrence
    consumes at least one character, so [length s] rounds suffice. *)
Definition split (sep s : string) : list string :=
  splitFuel (String.length s) sep s.

(** [parts.join(sep)] *)
Definition join (sep : string) (parts : list string) : string :=
  String.concat sep parts.

(** Template-literal interpolation of a non-negative integer. *)
Definition ofNat (n : nat) : string :=
  NilEmpty.string_of_uint (Nat.to_uint n).

Definition isTruthy (s : string) : bool :=
  negb (String.eqb s EmptyString).

(** *** [parseInt] without a radix argument *)

Definition digitValue (radix : Z) (c : ascii) : option Z :=
  let n := Z.of_nat (nat_of_ascii c) in
  let v :=
    (if (48 <=? n) && (n <=? 57) then Some (n - 48)
     else if (97 <=? n) && (n <=? 122) then Some (n - 87)
     else if (65 <=? n) && (n <=? 90) then Some (n - 55)
     else None)%Z in
  match v with
  | Some d => if (d <? radix)%Z then Some d else None
  | None => None
  end.

(** Reads the longest run of digits; [acc] is [None] until a digit is seen. *)
Fixpoint digits (radix : Z) (s : string) (acc : option Z) : option Z :=
  match s with
  | EmptyString => acc
  | String c s' =>
      match digitValue radix c with
      | Some d =>
          digits radix s' (Some (match acc with
                                 | Some a => a * radix + d
                                 | None => d
                                 end)%Z)
      | None => acc
      end
  end.

Definition parseInt (s : string) : option Z :=
  let s1 := trimStart s in
  let '(neg, s2) :=
    match s1 with
    | String "-" r => (true, r)
    | String "+" r => (false, r)
    | _ => (false, s1)
    end in
  let '(radix, s3) :=
    match s2 with
    | String "0" (String "x" r) => (16%Z, r)
    | String "0" (String "X" r) => (16%Z, r)
    | _ => (10%Z, s2)
    end in
  match digits radix s3 None with
  | Some v => Some (if neg then (- v)%Z else v)
  | None => None
  end.

End Str.

(** [a - b] on numbers that may be [NaN]. *)
Definition numSub (a b : option Z) : option Z :=
  match a, b with
  | Some x, Some y => Some (x - y)%Z
  | _, _ => None
  end.

(* ================================================================== *)
(** ** Arrays: stable sort and [Set]-based deduplication *)

Section Arrays.
Context {A : Type}.

(** The comparator's verdict "[x] goes after [y]": a result above zero.
    [NaN] counts as zero. *)
Definition goesAfter (cmp : A -> A -> option Z) (x y : A) : bool :=
  match cmp x y with
  | Some v => (0 <? v)%Z
  | None => false
  end.

Fixpoint insertSorted (cmp : A -> A -> option Z) (x : A) (l : list A) : list A :=
  match l with
  | [] => [x]
  | y :: l' => if goesAfter cmp x y then y :: insertSorted cmp x l' else x :: l
  end.

(** [array.sort(cmp)] *)
Fixpoint sort (cmp : A -> A -> option Z) (l : list A) : list A :=
  match l with
  | [] => []
  | x :: l' => insertSorted cmp x (sort cmp l')
  end.

Variable eqb : A -> A -> bool.

(** [set.add(x)] on a [Set] held as its insertion-ordered elements. *)
Definition setAdd (x : A) (s : list A) : list A :=
  if existsb (eqb x) s then s else s ++ [x].

(** [[...new Set(l)]] *)
Definition dedup (l : list A) : list A :=
  fold_left (fun s x => setAdd x s) l [].

(** The first occurrences of [l], written by recursion on [l]. *)
Fixpoint firstOccurrences (l : list A) : list A :=
  match l with
  | [] => []
  | x :: l' => x :: filter (fun y => negb (eqb x y)) (firstOccurrences l')
  end.

End Arrays.

(* ================================================================== *)
(** ** Data model ([src/types/index.ts]) *)

Inductive Tier := T1 | T2 | T3.

Definition tierNum (t : Tier) : Z :=
  match t with T1 => 1 | T2 => 2 | T3 => 3 end%Z.

Definition tierEqb (a b : Tier) : bool :=
  match a, b with
  | T1, T1 | T2, T2 | T3, T3 => true
  | _, _ => false
  end.

Module Alternative.
Record t := {
  name : string;
  description : string;
  tradeoffs : string
}.
End Alternative.

Record Material := {
  name : string;
  description : string;
  properties : list string;
  tier : Tier;
  reasoning : string;
  csiDivision : string;
  csiNumber : string;
  sustainabilityNotes : option string;
  alternatives : option (list Alternative.t);
  codeCompliance : option string
}.

Record ProjectLocation := {
  input : string;
  coordinates : Q * Q;
  jurisdiction : option string;
  buildingCode : option string
}.

Record ProjectBrief := {
  text : string;
  intent : option string
}.

Record Analysis := {
  imageUrls : list string;
  materials : list Material;
  timestamp : string;
  includeSustainability : bool;
  includeAlternatives : bool;
  location : option ProjectLocation;
  brief : option ProjectBrief
}.

(** Truthiness of an optional string: present and not empty. *)
Definition truthy (o : option string) : bool :=
  match o with
  | Some s => Str.isTruthy s
  | None => false
  end.

Definition orEmpty (o : option string) : string :=
  match o with Some s => s | None => EmptyString end.

(* ================================================================== *)
(** ** Grouping and ordering (the head of [generateMarkdownReport]) *)

(** [`${material.csiNumber} - ${material.csiDivision}`] *)
Definition divisionKey (m : Material) : string :=
  csiNumber m +++ " - " +++ csiDivision m.

Definition Groups := list (string * list Material).

(** [if (!g[key]) g[key] = []; g[key].push(v)] *)
Fixpoint pushGroup {V : Type} (key : string) (v : V) (g : list (string * list V))
    : list (string * list V) :=
  match g with
  | [] => [(key, [v])]
  | (k, b) :: g' =>
      if String.eqb k key then (k, b ++ [v]) :: g'
      else (k, b) :: pushGroup key v g'
  end.

Definition groupedByDivision (ms : list Material) : Groups :=
  fold_left (fun g m => pushGroup (divisionKey m) m g) ms [].

(** [parseInt(a.split(' - ')[0])] *)
Definition keyNumber (k : string) : option Z :=
  Str.parseInt (hd EmptyString (Str.split " - " k)).

Definition compareKeys (a b : string) : option Z :=
  numSub (keyNumber a) (keyNumber b).

(** [Object.keys(groupedByDivision).sort(...)] *)
Definition divisionKeys (ms : list Material) : list string :=
  sort compareKeys (List.map fst (groupedByDivision ms)).

Definition compareTiers (a b : Material) : option Z :=
  Some (tierNum (tier a) - tierNum (tier b))%Z.

(** [divisionKeys.forEach(key => groupedByDivision[key].sort(...))]:
    every key of the object is in [divisionKeys], so every bucket is
    sorted. *)
Definition sortedGroups (ms : list Material) : Groups :=
  List.map (fun kb => (fst kb, sort compareTiers (snd kb))) (groupedByDivision ms).

(** [groupedByDivision[key]] *)
Fixpoint lookupGroup (key : string) (g : Groups) : list Material :=
  match g with
  | [] => []
  | (k, b) :: g' => if String.eqb k key then b else lookupGroup key g'
  end.

Definition hasTier (t : Tier) (m : Material) : bool := tierEqb (tier m) t.

(** The canonical grouping: one entry per division key, in sorted key
    order, with the bucket after the in-place tier sort. *)
Definition grouping (ms : list Material) : Groups :=
  List.map (fun k => (k, lookupGroup k (sortedGroups ms))) (divisionKeys ms).

(* ================================================================== *)
(** ** Derived entities: consultants and suppliers *)

Module Consultant.
Record t := {
  name : string;
  firm : string;
  specialty : string;
  email : string;
  phone : string;
  website : option string;
  disciplines : list string
}.
End Consultant.

Inductive Rating := local | national.

Module Supplier.
Record t := {
  name : string;
  company : string;
  location : string;
  materialTypes : list string;
  email : string;
  phone : string;
  website : option string;
  rating : Rating;
  specialties : list string
}.
End Supplier.

(** [table[key]] on a dictionary literal. *)
Fixpoint lookup (key : string) (table : list (string * list string)) : option (list string) :=
  match table with
  | [] => None
  | (k, v) :: table' => if String.eqb k key then Some v else lookup key table'
  end.

(** [table[key] || fallback] (an array is truthy). *)
Definition lookupOr (table : list (string * list string)) (key : string)
    (fallback : list string) : list string :=
  match lookup key table with
  | Some v => v
  | None => fallback
  end.

(** [l.forEach((x, index) => ...)] pushing one element per round. *)
Fixpoint mapiFrom {A B : Type} (i : nat) (f : A -> nat -> B) (l : list A) : list B :=
  match l with
  | [] => []
  | x :: l' => f x i :: mapiFrom (S i) f l'
  end.

Definition mapi {A B : Type} (f : A -> nat -> B) (l : list A) : list B :=
  mapiFrom 0 f l.

(** [pool[i]] inside a template literal, for an index within the pool. *)
Definition pick (pool : list string) (i : nat) : string := nth i pool EmptyString.

Definition divisionToSpecialty : list (string * list string) :=
  [ ("Concrete", ["Structural Engineering"; "Concrete Technology"; "Materials Science"]);
    ("Masonry", ["Masonry Engineering"; "Structural Engineering"; "Historic Preservation"]);
    ("Metals", ["Structural Engineering"; "Metallurgy"; "Fabrication Engineering"]);
    ("Wood, Plastics, and Composites", ["Structural Engineering"; "Wood Technology"; "Composite Materials"]);
    ("Thermal and Moisture Protection", ["Building Envelope"; "Moisture Control"; "Energy Efficiency"]);
    ("Openings", ["Fenestration Engineering"; "Building Envelope"; "Daylighting Design"]);
    ("Finishes", ["Interior Design"; "Acoustics"; "Fire Safety Engineering"]);
    ("Specialties", ["Specialty Engineering"; "Custom Fabrication"; "Product Development"]);
    ("Special Construction", ["Specialty Engineering"; "Innovation Consulting"; "R&D"]);
    ("Fire Suppression", ["Fire Protection Engineering"; "Life Safety"; "Code Compliance"]);
    ("Plumbing", ["Plumbing Engineering"; "Mechanical Engineering"; "Water Systems"]);
    ("HVAC", ["Mechanical Engineering"; "Energy Efficiency"; "Indoor Air Quality"]);
    ("Electrical", ["Electrical Engineering"; "Lighting Design"; "Power Systems"]);
    ("Exterior Improvements", ["Landscape Architecture"; "Site Engineering"; "Hardscape Design"]) ].

(** The [specialties] set after the [divisions.forEach] loop, as
    [Array.from(specialties)]. *)
Definition specialtyArray (divisions : list string) : list string :=
  fold_left
    (fun set div =>
       fold_left (fun s spec => setAdd String.eqb spec s)
                 (lookupOr divisionToSpecialty div ["General Consulting"]) set)
    divisions [].

(** [specialty.toLowerCase().replace(/\s+/g, '')] *)
Definition slug (s : string) : string := Str.removeSpaces (Str.toLowerCase s).

Definition tier1Consultant (specialty : string) (index : nat) : Consultant.t :=
  {| Consultant.name :=
       "Dr. " +++ pick ["Sarah"; "Michael"; "Jennifer"] (index mod 3) +++ " "
       +++ pick ["Chen"; "Rodriguez"; "Thompson"] (index mod 3);
     Consultant.firm := specialty +++ " Associates";
     Consultant.specialty := specialty;
     Consultant.email := "contact@" +++ slug specialty +++ "associates.com";
     Consultant.phone :=
       "+1 (555) " +++ Str.ofNat (200 + index) +++ "0-" +++ Str.ofNat (1000 + index) +++ "00";
     Consultant.website := Some ("www." +++ slug specialty +++ "associates.com");
     Consultant.disciplines := [specialty] |}.

Definition tier2Consultant (specialty : string) (index : nat) : Consultant.t :=
  {| Consultant.name :=
       pick ["James"; "Patricia"; "Robert"; "Linda"] (index mod 4) +++ " "
       +++ pick ["Anderson"; "Martinez"; "Wilson"; "Garcia"] (index mod 4);
     Consultant.firm := specialty +++ " Custom Solutions";
     Consultant.specialty := specialty +++ " & Custom Fabrication";
     Consultant.email := "info@" +++ slug specialty +++ "custom.com";
     Consultant.phone :=
       "+1 (555) " +++ Str.ofNat (300 + index) +++ "0-" +++ Str.ofNat (2000 + index) +++ "00";
     Consultant.website := Some ("www." +++ slug specialty +++ "custom.com");
     Consultant.disciplines := [specialty; "Custom Fabrication"] |}.

Definition tier3Consultant (specialty : string) (index : nat) : Consultant.t :=
  {| Consultant.name :=
       "Prof. " +++ pick ["David"; "Elizabeth"; "Christopher"; "Maria"; "Daniel"] (index mod 5)
       +++ " " +++ pick ["Lee"; "Brown"; "Davis"; "Miller"; "Taylor"] (index mod 5);
     Consultant.firm := specialty +++ " Innovation Lab";
     Consultant.specialty := specialty +++ " R&D & Advanced Materials";
     Consultant.email := "research@" +++ slug specialty +++ "innovation.com";
     Consultant.phone :=
       "+1 (555) " +++ Str.ofNat (400 + index) +++ "0-" +++ Str.ofNat (3000 + index) +++ "00";
     Consultant.website := Some ("www." +++ slug specialty +++ "innovation.com");
     Consultant.disciplines := [specialty; "Materials R&D"; "Innovation Consulting"] |}.

(** The three [if (tier === n)] blocks are exclusive; each slices
    [specialtyArray] to [Math.min(n + 2, length)] entries. *)
Definition getConsultantsForDivisions (divisions : list string) (t : Tier)
    : list Consultant.t :=
  let specialties := specialtyArray divisions in
  match t with
  | T1 => mapi tier1Consultant (firstn (Nat.min 3 (List.length specialties)) specialties)
  | T2 => mapi tier2Consultant (firstn (Nat.min 4 (List.length specialties)) specialties)
  | T3 => mapi tier3Consultant (firstn (Nat.min 5 (List.length specialties)) specialties)
  end.

Definition divisionToSupplierType : list (string * list string) :=
  [ ("Concrete", ["Ready-Mix Concrete"; "Precast Concrete"; "Concrete Products"]);
    ("Masonry", ["Brick & Block"; "Stone Suppliers"; "Masonry Products"]);
    ("Metals", ["Steel Fabricators"; "Metal Suppliers"; "Architectural Metals"]);
    ("Wood, Plastics, and Composites", ["Lumber Suppliers"; "Composite Materials"; "Engineered Wood"]);
    ("Thermal and Moisture Protection", ["Roofing Materials"; "Insulation"; "Waterproofing"]);
    ("Openings", ["Windows & Doors"; "Glazing Systems"; "Hardware"]);
    ("Finishes", ["Flooring"; "Wall Finishes"; "Ceiling Systems"]);
    ("Specialties", ["Custom Fabrication"; "Specialty Products"; "Architectural Elements"]) ].

(** [location.jurisdiction ? location.jurisdiction.split(',')[0]?.trim()
    || 'Local Area' : 'Local Area'] *)
Definition regionOf (loc : ProjectLocation) : string :=
  match jurisdiction loc with
  | Some j =>
      if Str.isTruthy j then
        let r := Str.trim (hd EmptyString (Str.split "," j)) in
        if Str.isTruthy r then r else "Local Area"
      else "Local Area"
  | None => "Local Area"
  end.

Definition localSupplier (region division : string) (index : nat)
    (supplierType : string) (typeIndex : nat) : Supplier.t :=
  {| Supplier.name :=
       pick ["John"; "Sarah"; "Michael"; "Emily"] ((index + typeIndex) mod 4) +++ " "
       +++ pick ["Smith"; "Johnson"; "Williams"; "Brown"] ((index + typeIndex) mod 4);
     Supplier.company := region +++ " " +++ supplierType;
     Supplier.location := region;
     Supplier.materialTypes := [division];
     Supplier.email := "sales@" +++ slug supplierType +++ slug region +++ ".com";
     Supplier.phone :=
       "+1 (" +++ Str.ofNat (555 + index) +++ ") " +++ Str.ofNat (200 + typeIndex) +++ "0-"
       +++ Str.ofNat (1000 + index) +++ "00";
     Supplier.website := Some ("www." +++ slug supplierType +++ slug region +++ ".com");
     Supplier.rating := local;
     Supplier.specialties := [supplierType; division] |}.

(** [supplierTypes[0]]: every array of the table, and the fallback, has a
    first element. *)
Definition nationalSupplier (division : string) (index : nat) : Supplier.t :=
  let supplierTypes :=
    lookupOr divisionToSupplierType division ["General Building Materials"] in
  let first := hd EmptyString supplierTypes in
  {| Supplier.name :=
       pick ["David"; "Jennifer"; "Robert"] (index mod 3) +++ " "
       +++ pick ["Anderson"; "Martinez"; "Taylor"] (index mod 3);
     Supplier.company := "National " +++ first +++ " Solutions";
     Supplier.location := "National Distribution";
     Supplier.materialTypes := [division];
     Supplier.email := "info@national" +++ slug first +++ ".com";
     Supplier.phone :=
       "+1 (800) " +++ Str.ofNat (555 + index) +++ "00-" +++ Str.ofNat (1000 + index) +++ "00";
     Supplier.website := Some ("www.national" +++ slug first +++ ".com");
     Supplier.rating := national;
     Supplier.specialties := [first; "Premium Products"; "Custom Solutions"] |}.

(** [[...new Set(materials.map(m => m.csiDivision))]] *)
Definition divisionsOf (ms : list Material) : list string :=
  dedup String.eqb (List.map csiDivision ms).

Definition localSuppliers (region : string) (materialTypes : list string)
    : list Supplier.t :=
  List.concat
    (mapi (fun division index =>
             mapi (localSupplier region division index)
                  (firstn 2 (lookupOr divisionToSupplierType division
                                      ["General Building Materials"])))
          materialTypes).

Definition nationalSuppliers (t : Tier) (materialTypes : list string)
    : list Supplier.t :=
  if tierEqb t T2 || (3 <? List.length materialTypes)
  then mapi nationalSupplier (firstn 3 materialTypes)
  else [].

Definition getSuppliersForMaterials (ms : list Material) (loc : ProjectLocation)
    (t : Tier) : list Supplier.t :=
  let materialTypes := divisionsOf ms in
  let region := regionOf loc in
  localSuppliers region materialTypes ++ nationalSuppliers t materialTypes.

(* ================================================================== *)
(** ** Rendered content

    Both renderers append to their output one piece at a time: the
    markdown renderer with [report += ...], the paginated renderer with
    [doc.text(...)].  The embedding keeps every piece together with a tag
    that names the statement of the source that emitted it; the text of
    the markdown report is the concatenation of its pieces. *)

Inductive MaterialField :=
| FName | FCsiDivision | FDescription | FPropertiesLabel | FProperty
| FFeasibility | FSustainability | FCodeCompliance
| FAlternativesLabel | FAlternativeName | FAlternativeDescription
| FAlternativeTradeoffs | FEnd.

Inductive LocationField := LInput | LJurisdiction | LBuildingCode.

Inductive SupplierBlock := GreenSuppliers | YellowSuppliers | NationalSuppliers.

Inductive EntryField :=
| EName | EFirm | ESpecialty | ECompany | ELocation | EMaterialTypes
| ESpecialties | EEmail | EPhone | EWebsite | EDisciplines | EWhole.

Inductive Tag :=
| Title | Generated | DateHeading | ImagesAnalyzed | Thumbnail | ThumbnailMissing
| BriefHeading | BriefIntent | BriefSummary | BriefMissing
| LocationHeading | LocationLine (f : LocationField)
| SummaryHeading | SummaryTotal | SummaryTier (t : Tier) | SummaryNames (t : Tier)
| MaterialsHeading
| DivisionHeading (key : string)
| TierHeading (t : Tier)
| MaterialPart (m : Material) (f : MaterialField)
| TierSummaryHeading | TierSummarySection (t : Tier)
| TierSummaryLine (t : Tier) (key : string)
| ComplianceSummary
| Recommendations
| ConsultantsHeading | ConsultantsTier (t : Tier)
| ConsultantPart (t : Tier) (c : Consultant.t) (f : EntryField)
| SuppliersHeading | SuppliersBlockHeading (b : SupplierBlock)
| SuppliersEmpty (b : SupplierBlock)
| SupplierPart (b : SupplierBlock) (s : Supplier.t) (f : EntryField)
| Separator
| Attribution
| PageFooter.

Record Chunk := { tagOf : Tag; textOf : string }.

Definition emit (t : Tag) (s : string) : list Chunk :=
  [{| tagOf := t; textOf := s |}].

(** The string a list of [report += ...] statements builds. *)
Definition reportText (r : list Chunk) : string :=
  String.concat EmptyString (List.map textOf r).

(** What the host decides: the locale and time zone behind
    [new Date(timestamp).toLocaleString()]. *)
Record Host := { dateToLocaleString : string -> string }.

(** The line feed of the template literals. *)
Definition nl : string := String "010"%char EmptyString.

(* ================================================================== *)
(** ** The markdown renderer *)

(** [material.alternatives && material.alternatives.length > 0] *)
Definition hasAlternatives (m : Material) : bool :=
  match alternatives m with
  | Some (_ :: _) => true
  | _ => false
  end.

Definition alternativesOf (m : Material) : list Alternative.t :=
  match alternatives m with
  | Some alts => alts
  | None => []
  end.

Definition generateMaterialSection (m : Material)
    (includeSustainability includeAlternatives includeCodeCompliance : bool)
    : list Chunk :=
  emit (MaterialPart m FName) ("##### " +++ name m +++ nl)
  ++ emit (MaterialPart m FCsiDivision)
       ("- **CSI Division:** " +++ csiNumber m +++ " - " +++ csiDivision m +++ nl)
  ++ emit (MaterialPart m FDescription) ("- **Description:** " +++ description m +++ nl)
  ++ emit (MaterialPart m FPropertiesLabel) ("- **Properties:**" +++ nl)
  ++ List.concat
       (List.map (fun prop => emit (MaterialPart m FProperty) ("  - " +++ prop +++ nl))
                 (properties m))
  ++ emit (MaterialPart m FFeasibility) ("- **Feasibility Notes:** " +++ reasoning m +++ nl)
  ++ (if includeSustainability && truthy (sustainabilityNotes m)
      then emit (MaterialPart m FSustainability)
             ("- **Sustainability Notes:** " +++ orEmpty (sustainabilityNotes m) +++ nl)
      else [])
  ++ (if includeCodeCompliance && truthy (codeCompliance m)
      then emit (MaterialPart m FCodeCompliance)
             ("- **Code Compliance:** " +++ orEmpty (codeCompliance m) +++ nl)
      else [])
  ++ (if includeAlternatives && hasAlternatives m
      then
        emit (MaterialPart m FAlternativesLabel) ("- **Alternative Materials:**" +++ nl)
        ++ List.concat
             (mapi (fun alt index =>
                      emit (MaterialPart m FAlternativeName)
                        ("  " +++ Str.ofNat (index + 1) +++ ". **"
                         +++ Alternative.name alt +++ "**" +++ nl)
                      ++ emit (MaterialPart m FAlternativeDescription)
                           ("     - Description: " +++ Alternative.description alt +++ nl)
                      ++ emit (MaterialPart m FAlternativeTradeoffs)
                           ("     - Tradeoffs: " +++ Alternative.tradeoffs alt +++ nl))
                   (alternativesOf m))
      else [])
  ++ emit (MaterialPart m FEnd) nl.

Definition generateConsultantEntry (c : Consultant.t) : string :=
  "#### " +++ Consultant.name c +++ nl
  +++ "- **Firm:** " +++ Consultant.firm c +++ nl
  +++ "- **Specialty:** " +++ Consultant.specialty c +++ nl
  +++ "- **Email:** " +++ Consultant.email c +++ nl
  +++ "- **Phone:** " +++ Consultant.phone c +++ nl
  +++ (if truthy (Consultant.website c)
       then "- **Website:** " +++ orEmpty (Consultant.website c) +++ nl
       else EmptyString)
  +++ "- **Disciplines:** " +++ Str.join ", " (Consultant.disciplines c) +++ nl
  +++ nl.

Definition ratingLabel (r : Rating) : string :=
  match r with local => "(Local)" | national => "(National)" end.

Definition generateSupplierEntry (s : Supplier.t) : string :=
  "#### " +++ Supplier.name s +++ nl
  +++ "- **Company:** " +++ Supplier.company s +++ nl
  +++ "- **Location:** " +++ Supplier.location s +++ " " +++ ratingLabel (Supplier.rating s) +++ nl
  +++ "- **Material Types:** " +++ Str.join ", " (Supplier.materialTypes s) +++ nl
  +++ "- **Specialties:** " +++ Str.join ", " (Supplier.specialties s) +++ nl
  +++ "- **Email:** " +++ Supplier.email s +++ nl
  +++ "- **Phone:** " +++ Supplier.phone s +++ nl
  +++ (if truthy (Supplier.website s)
       then "- **Website:** " +++ orEmpty (Supplier.website s) +++ nl
       else EmptyString)
  +++ nl.

(** [materials.filter((m) => m.tier === n)] *)
Definition ofTier (t : Tier) (ms : list Material) : list Material :=
  filter (hasTier t) ms.

Definition isSome {A : Type} (o : option A) : bool :=
  match o with Some _ => true | None => false end.

Definition isNational (s : Supplier.t) : bool :=
  match Supplier.rating s with national => true | local => false end.

Section Markdown.
Variable host : Host.

(** Title, generation stamp and image count. *)
Definition mdHeader (a : Analysis) : list Chunk :=
  emit Title ("# Material Feasibility Analysis Report" +++ nl +++ nl)
  ++ emit Generated ("**Generated:** " +++ dateToLocaleString host (timestamp a) +++ nl)
  ++ (if 1 <? List.length (imageUrls a)
      then emit ImagesAnalyzed
             ("**Images Analyzed:** " +++ Str.ofNat (List.length (imageUrls a)) +++ nl)
      else [])
  ++ emit Separator nl.

(** [if (brief) { ... }] *)
Definition mdBrief (a : Analysis) : list Chunk :=
  match brief a with
  | Some b =>
      emit BriefHeading ("## Project Brief" +++ nl +++ nl)
      ++ (if truthy (intent b)
          then emit BriefIntent
                 ("**Project Intent & Constraints:**" +++ nl +++ orEmpty (intent b)
                  +++ nl +++ nl)
          else [])
      ++ (if Str.isTruthy (text b) && (String.length (text b) <? 500)
          then emit BriefSummary ("**Brief Summary:**" +++ nl +++ text b +++ nl +++ nl)
          else [])
      ++ emit Separator ("---" +++ nl +++ nl)
  | None => []
  end.

(** [if (location) { ... }] *)
Definition mdLocation (a : Analysis) : list Chunk :=
  match location a with
  | Some loc =>
      emit (LocationLine LInput) ("**Project Location:** " +++ input loc +++ nl)
      ++ (if truthy (jurisdiction loc)
          then emit (LocationLine LJurisdiction)
                 ("**Jurisdiction:** " +++ orEmpty (jurisdiction loc) +++ nl)
          else [])
      ++ (if truthy (buildingCode loc)
          then emit (LocationLine LBuildingCode)
                 ("**Building Code:** " +++ orEmpty (buildingCode loc) +++ nl)
          else [])
      ++ emit Separator nl
  | None => []
  end.

Definition mdSummary (a : Analysis) : list Chunk :=
  let ms := materials a in
  emit SummaryHeading ("## Project Summary" +++ nl +++ nl)
  ++ emit SummaryTotal
       ("- **Total materials identified:** " +++ Str.ofNat (List.length ms) +++ nl)
  ++ emit (SummaryTier T1)
       ("- **Tier 1 (Readily Available):** " +++ Str.ofNat (List.length (ofTier T1 ms))
        +++ " materials" +++ nl)
  ++ emit (SummaryTier T2)
       ("- **Tier 2 (Requires Customization):** " +++ Str.ofNat (List.length (ofTier T2 ms))
        +++ " materials" +++ nl)
  ++ emit (SummaryTier T3)
       ("- **Tier 3 (Custom Development):** " +++ Str.ofNat (List.length (ofTier T3 ms))
        +++ " materials" +++ nl +++ nl)
  ++ emit Separator ("---" +++ nl +++ nl)
  ++ emit MaterialsHeading
       ("## Materials Analysis by CSI MasterFormat Division" +++ nl +++ nl).

Definition tierTitle (t : Tier) : string :=
  match t with
  | T1 => "#### Tier 1: Readily Available"
  | T2 => "#### Tier 2: Requires Customization"
  | T3 => "#### Tier 3: Custom Development Required"
  end.

(** One [if (divTierN.length > 0) { ... }] block of a division. *)
Definition mdTierBlock (a : Analysis) (t : Tier) (divisionMaterials : list Material)
    : list Chunk :=
  match ofTier t divisionMaterials with
  | [] => []
  | divTier =>
      emit (TierHeading t) (tierTitle t +++ nl +++ nl)
      ++ List.concat
           (List.map (fun m => generateMaterialSection m (includeSustainability a)
                                 (includeAlternatives a) (isSome (location a)))
                     divTier)
  end.

(** The body of [divisionKeys.forEach((divisionKey) => { ... })].
    [const [csiNumber, csiName] = divisionKey.split(' - ')] reads the
    first two parts; a division key always has both. *)
Definition mdDivision (a : Analysis) (divisionKey : string)
    (divisionMaterials : list Material) : list Chunk :=
  let parts := Str.split " - " divisionKey in
  let csiNumber := nth 0 parts EmptyString in
  let csiName := nth 1 parts EmptyString in
  emit (DivisionHeading divisionKey)
    ("### Division " +++ csiNumber +++ " - " +++ Str.toUpperCase csiName +++ nl +++ nl)
  ++ mdTierBlock a T1 divisionMaterials
  ++ mdTierBlock a T2 divisionMaterials
  ++ mdTierBlock a T3 divisionMaterials
  ++ emit Separator nl.

(** [divisionKeys.forEach(...)] over the grouped materials [g]. *)
Definition mdDivisions (a : Analysis) (g : Groups) : list Chunk :=
List.concat (List.map (fun kb => mdDivision a (fst kb) (snd kb)) g).

Definition tierSummaryTitle (t : Tier) : string :=
  match t with
  | T1 => "### Tier 1: Readily Available ("
  | T2 => "### Tier 2: Requires Customization ("
  | T3 => "### Tier 3: Custom Development ("
  end.

(** [tierNByDivision]: the names of the tier's materials by division key. *)
Definition namesByDivision (ms : list Material) : list (string * list string) :=
  fold_left (fun g m => pushGroup (divisionKey m) (name m) g) ms [].

(** One [if (tierN.length > 0) { ... }] block of the roll-up. *)
Definition mdTierSummary (t : Tier) (ms : list Material) : list Chunk :=
  match ofTier t ms with
  | [] => []
  | tierN =>
      emit (TierSummarySection t)
        (tierSummaryTitle t +++ Str.ofNat (List.length tierN) +++ " materials)" +++ nl)
      ++ List.concat
           (List.map (fun kn => emit (TierSummaryLine t (fst kn))
                                  ("- " +++ fst kn +++ ": " +++ Str.join ", " (snd kn) +++ nl))
                     (namesByDivision tierN))
      ++ emit Separator nl
  end.

Definition mdSummaryByTier (a : Analysis) : list Chunk :=
  emit Separator ("---" +++ nl +++ nl)
  ++ emit TierSummaryHeading ("## Summary by Tier" +++ nl +++ nl)
  ++ mdTierSummary T1 (materials a)
  ++ mdTierSummary T2 (materials a)
  ++ mdTierSummary T3 (materials a).

(** [// Building Code Compliance Summary (if location provided)] *)
Definition mdCompliance (a : Analysis) : list Chunk :=
  match location a with
  | Some loc =>
      emit Separator ("---" +++ nl +++ nl)
      ++ emit ComplianceSummary ("## Building Code Compliance Summary" +++ nl +++ nl)
      ++ emit ComplianceSummary ("**Project Location:** " +++ input loc +++ nl)
      ++ (if truthy (jurisdiction loc)
          then emit ComplianceSummary
                 ("**Jurisdiction:** " +++ orEmpty (jurisdiction loc) +++ nl)
          else [])
      ++ (if truthy (buildingCode loc)
          then emit ComplianceSummary
                 ("**Applicable Codes:** " +++ orEmpty (buildingCode loc) +++ nl)
          else [])
      ++ emit Separator nl
      ++ emit ComplianceSummary ("### Code Compliance by Material" +++ nl +++ nl)
      ++ emit ComplianceSummary
           ("Materials are subject to local building codes and may require:" +++ nl)
      ++ emit ComplianceSummary
           ("- Product approvals (ICC-ES reports, FM approvals, UL listings)" +++ nl)
      ++ emit ComplianceSummary ("- Fire testing and ratings per ASTM standards" +++ nl)
      ++ emit ComplianceSummary ("- Structural engineering stamps and calculations" +++ nl)
      ++ emit ComplianceSummary ("- Special inspection requirements" +++ nl)
      ++ emit ComplianceSummary
           ("- Local amendments and jurisdictional variations" +++ nl +++ nl)
      ++ emit ComplianceSummary
           ("**Important:** Review all materials with local building officials and code consultants before specifying. Code requirements vary by jurisdiction and project type."
            +++ nl +++ nl)
  | None => []
  end.

Definition mdRecommendations (a : Analysis) : list Chunk :=
  emit Separator ("---" +++ nl +++ nl)
  ++ emit Recommendations ("## Recommendations" +++ nl +++ nl)
  ++ emit Recommendations ("**Next Steps:**" +++ nl)
  ++ emit Recommendations
       ("- Tier 1 materials can proceed to specification immediately" +++ nl)
  ++ emit Recommendations
       ("- Tier 2 materials require consultation with manufacturers/fabricators" +++ nl)
  ++ emit Recommendations
       ("- Tier 3 materials need R&D phase or alternative solutions" +++ nl)
  ++ (if isSome (location a)
      then emit Recommendations
             ("- Submit materials list to local building department for preliminary review"
              +++ nl)
           ++ emit Recommendations
                ("- Engage code consultant for jurisdiction-specific requirements" +++ nl)
      else [])
  ++ emit Separator nl
  ++ (if includeAlternatives a
      then emit Recommendations ("**Alternative Materials:**" +++ nl)
           ++ emit Recommendations
                ("Consider the suggested alternatives for cost, schedule, or performance optimization."
                 +++ nl +++ nl)
      else []).

Definition consultantsTitle (t : Tier) : string :=
  match t with
  | T1 => "### Green Consultants (Tier 1 Materials)"
  | T2 => "### Yellow Consultants (Tier 2 Materials)"
  | T3 => "### Red Consultants (Tier 3 Materials)"
  end.

(** One [if (tierN.length > 0) { ... }] block of the consultants appendix. *)
Definition mdConsultantsTier (t : Tier) (ms : list Material) : list Chunk :=
  match ofTier t ms with
  | [] => []
  | tierN =>
      emit (ConsultantsTier t) (consultantsTitle t +++ nl +++ nl)
      ++ List.concat
           (List.map (fun c => emit (ConsultantPart t c EWhole) (generateConsultantEntry c))
                     (getConsultantsForDivisions (divisionsOf tierN) t))
      ++ emit Separator nl
  end.

Definition mdConsultants (a : Analysis) : list Chunk :=
  emit Separator ("---" +++ nl +++ nl)
  ++ emit ConsultantsHeading ("## Appendix: Elite Consultants by Tier" +++ nl +++ nl)
  ++ emit ConsultantsHeading
       ("The following consultants are recommended for the disciplines governing the identified materials in this analysis."
        +++ nl +++ nl)
  ++ mdConsultantsTier T1 (materials a)
  ++ mdConsultantsTier T2 (materials a)
  ++ mdConsultantsTier T3 (materials a).

Definition supplierBlockOf (t : Tier) : SupplierBlock :=
  match t with T2 => YellowSuppliers | _ => GreenSuppliers end.

Definition suppliersTitle (t : Tier) : string :=
  match t with
  | T2 => "### Yellow Suppliers (Tier 2 Materials)"
  | _ => "### Green Suppliers (Tier 1 Materials)"
  end.

(** One [if (tierN.length > 0) { ... }] block of the suppliers appendix
    ([t] is 1 or 2). *)
Definition mdSuppliersTier (t : Tier) (ms : list Material) (loc : ProjectLocation)
    : list Chunk :=
  match ofTier t ms with
  | [] => []
  | tierN =>
      emit (SuppliersBlockHeading (supplierBlockOf t)) (suppliersTitle t +++ nl +++ nl)
      ++ (match getSuppliersForMaterials tierN loc t with
          | [] =>
              emit (SuppliersEmpty (supplierBlockOf t))
                ("*No local suppliers found. Consider national suppliers listed below."
                 +++ nl +++ nl)
          | suppliers =>
              List.concat
                (List.map (fun s => emit (SupplierPart (supplierBlockOf t) s EWhole)
                                      (generateSupplierEntry s))
                          suppliers)
          end)
      ++ emit Separator nl
  end.

(** [allSuppliers]: the suppliers of both tiers, generated once more. *)
Definition allSuppliers (ms : list Material) (loc : ProjectLocation) : list Supplier.t :=
  (match ofTier T1 ms with
   | [] => []
   | tier1 => getSuppliersForMaterials tier1 loc T1
   end)
  ++ (match ofTier T2 ms with
      | [] => []
      | tier2 => getSuppliersForMaterials tier2 loc T2
      end).

Definition mdNationalSuppliers (ms : list Material) (loc : ProjectLocation)
    : list Chunk :=
  match filter isNational (allSuppliers ms loc) with
  | [] => []
  | nationals =>
      emit (SuppliersBlockHeading NationalSuppliers)
        ("### National Suppliers (High-Quality Options)" +++ nl +++ nl)
      ++ emit (SuppliersBlockHeading NationalSuppliers)
           ("The following national suppliers offer high-quality products and may provide better options when local suppliers are limited:"
            +++ nl +++ nl)
      ++ List.concat
           (List.map (fun s => emit (SupplierPart NationalSuppliers s EWhole)
                                 (generateSupplierEntry s))
                     nationals)
      ++ emit Separator nl
  end.

(** [if ((tier1.length > 0 || tier2.length > 0) && location) { ... }] *)
Definition suppliersShown (a : Analysis) : bool :=
  (negb (Nat.eqb (List.length (ofTier T1 (materials a))) 0)
   || negb (Nat.eqb (List.length (ofTier T2 (materials a))) 0))
  && isSome (location a).

Definition mdSuppliers (a : Analysis) : list Chunk :=
  match location a with
  | Some loc =>
      if suppliersShown a then
        emit Separator ("---" +++ nl +++ nl)
        ++ emit SuppliersHeading ("## Appendix: Material Suppliers by Tier" +++ nl +++ nl)
        ++ emit SuppliersHeading
             ("The following suppliers are recommended for Tier 1 and Tier 2 materials. Suppliers are prioritized by proximity to the project location, with national suppliers listed when local options are limited."
              +++ nl +++ nl)
        ++ mdSuppliersTier T1 (materials a) loc
        ++ mdSuppliersTier T2 (materials a) loc
        ++ mdNationalSuppliers (materials a) loc
      else []
  | None => []
  end.

(** The pieces appended to [report], in order, once the materials are
    grouped into [g]. *)
Definition renderMarkdown (a : Analysis) (g : Groups) : list Chunk :=
mdHeader a
++ mdBrief a
++ mdLocation a
++ mdSummary a
++ mdDivisions a g
++ mdSummaryByTier a
++ mdCompliance a
++ mdRecommendations a
++ mdConsultants a
++ mdSuppliers a
++ emit Attribution ("**Report generated by SpecMate**" +++ nl).

(** The pieces [generateMarkdownReport] appends to [report]. *)
Definition generateMarkdownChunks (a : Analysis) : list Chunk :=
renderMarkdown a (grouping (materials a)).

Definition generateMarkdownReport (a : Analysis) : string :=
  reportText (generateMarkdownChunks a).
End Markdown.

(* ================================================================== *)
(** ** The paginated renderer: the document writer

    [buildPDFDocument] drives a jsPDF document through a vertical cursor
    [yPos].  The writer below threads the cursor and the document's font
    state, and records every call that draws on the document. *)

Record Font := {
  size : Q;
  bold : bool;
  color : nat * nat * nat
}.

(** How a piece of text was drawn: the emphasized label of a field, the
    value that follows it, a wrapped line, or a bullet line. *)
Inductive Role := Label | Value | Line | Bullet.

Inductive Op :=
| AddPage
| Text (tg : Tag) (r : Role) (s : string) (x y : Q) (f : Font)
| AddImage (url format : string) (x y w h : Q)
| Stamp (page : nat) (s : string) (x y : Q).

(** What jsPDF and the browser decide: the page format, the font metrics
    behind [splitTextToSize] and [getTextWidth], and the decoded size of
    an image ([None] when decoding fails). *)
Record JsPDF := {
  pageWidth : Q;
  pageHeight : Q;
  splitTextToSize : Font -> string -> Q -> list string;
  getTextWidth : Font -> string -> Q;
  loadImage : string -> option (Q * Q)
}.

Record Cursor := {
  yPos : Q;
  font : Font;
  pages : nat
}.

Definition Pdf (A : Type) : Type := Cursor -> A * Cursor * list Op.

Definition ret {A : Type} (a : A) : Pdf A := fun c => (a, c, []).

Definition bind {A B : Type} (m : Pdf A) (f : A -> Pdf B) : Pdf B :=
  fun c =>
    let '(a, c1, o1) := m c in
    let '(b, c2, o2) := f a c1 in
    (b, c2, o1 ++ o2).

Declare Scope pdf_scope.
Delimit Scope pdf_scope with pdf.
Notation "x <- m ;; k" := (bind m (fun x => k))
  (at level 61, m at next level, right associativity) : pdf_scope.
Notation "m ;; k" := (bind m (fun _ => k))
  (at level 61, right associativity) : pdf_scope.
Local Open Scope pdf_scope.

Definition valueOf {A : Type} (m : Pdf A) (c : Cursor) : A := fst (fst (m c)).
Definition cursorOf {A : Type} (m : Pdf A) (c : Cursor) : Cursor := snd (fst (m c)).
Definition opsOf {A : Type} (m : Pdf A) (c : Cursor) : list Op := snd (m c).

Definition getCursor : Pdf Cursor := fun c => (c, c, []).
Definition draw (o : Op) : Pdf unit := fun c => (tt, c, [o]).

Definition setY (y : Q) : Pdf unit :=
  fun c => (tt, {| yPos := y; font := font c; pages := pages c |}, []).

Definition advance (dy : Q) : Pdf unit :=
  fun c => (tt, {| yPos := yPos c + dy; font := font c; pages := pages c |}, []).

Definition setFontSize (s : Q) : Pdf unit :=
  fun c => (tt, {| yPos := yPos c;
                   font := {| size := s; bold := bold (font c); color := color (font c) |};
                   pages := pages c |}, []).

Definition setFont (b : bool) : Pdf unit :=
  fun c => (tt, {| yPos := yPos c;
                   font := {| size := size (font c); bold := b; color := color (font c) |};
                   pages := pages c |}, []).

Definition setTextColor (rgb : nat * nat * nat) : Pdf unit :=
  fun c => (tt, {| yPos := yPos c;
                   font := {| size := size (font c); bold := bold (font c); color := rgb |};
                   pages := pages c |}, []).

(** [doc.addPage()] *)
Definition addPage : Pdf unit :=
  fun c => (tt, {| yPos := yPos c; font := font c; pages := S (pages c) |}, [AddPage]).

(** [doc.text(s, x, yPos)] *)
Definition docText (tg : Tag) (r : Role) (s : string) (x : Q) : Pdf unit :=
  fun c => (tt, c, [Text tg r s x (yPos c) (font c)]).

Fixpoint forEachFrom {A : Type} (i : nat) (f : A -> nat -> Pdf unit) (l : list A)
    : Pdf unit :=
  match l with
  | [] => ret tt
  | x :: l' => f x i ;; forEachFrom (S i) f l'
  end.

(** [l.forEach((x, index) => ...)] *)
Definition forEach {A : Type} (l : list A) (f : A -> nat -> Pdf unit) : Pdf unit :=
  forEachFrom 0 f l.

Definition when (b : bool) (m : Pdf unit) : Pdf unit := if b then m else ret tt.

Definition black : nat * nat * nat := (0, 0, 0).
Definition gray : nat * nat * nat := (128, 128, 128).

(** [tierColors[tier]] *)
Definition tierColor (t : Tier) : nat * nat * nat :=
  match t with
  | T1 => (34, 139, 34)
  | T2 => (255, 193, 7)
  | T3 => (220, 53, 69)
  end.

Definition margin : Q := 20.
Definition h1 : Q := 24.
Definition h2 : Q := 20.
Definition h3 : Q := 16.
Definition h4 : Q := 14.
Definition body : Q := 11.
Definition small : Q := 9.
Definition half : Q := 1 # 2.

(** [a > b] on numbers. *)
Definition Qgtb (a b : Q) : bool := negb (Qle_bool a b).

Section Writer.
Variable pdf : JsPDF.

Definition contentWidth : Q := pageWidth pdf - margin * 2.

Definition checkNewPage (requiredHeight : Q) : Pdf bool :=
  c <- getCursor ;;
  if Qgtb (yPos c + requiredHeight) (pageHeight pdf - margin)
  then addPage ;; setY margin ;; ret true
  else ret false.

Definition addText (tg : Tag) (text : string) (sz : Q) (isBold : bool)
    (rgb : nat * nat * nat) : Pdf nat :=
  setFontSize sz ;;
  setTextColor rgb ;;
  setFont isBold ;;
  c <- getCursor ;;
  let lines := splitTextToSize pdf (font c) text contentWidth in
  forEach lines (fun line _ =>
    checkNewPage (sz * half) ;;
    docText tg Line line margin ;;
    advance (sz * half)) ;;
  ret (List.length lines).

Definition addLabelValue (tg : Tag) (label value : string) (sz : Q) : Pdf unit :=
  setFontSize sz ;;
  setFont true ;;
  setTextColor black ;;
  c <- getCursor ;;
  let labelWidth := getTextWidth pdf (font c) label in
  checkNewPage (sz * half) ;;
  docText tg Label label margin ;;
  setFont false ;;
  c' <- getCursor ;;
  let valueLines := splitTextToSize pdf (font c') value (contentWidth - labelWidth - 2) in
  if Nat.eqb (List.length valueLines) 1
  then docText tg Value value (margin + labelWidth + 2) ;;
       advance (sz * half)
  else advance (sz * half) ;;
       forEach valueLines (fun line _ =>
         checkNewPage (sz * half) ;;
         docText tg Value line (margin + 5) ;;
         advance (sz * half)).

Definition addBullet (tg : Tag) (text : string) (sz indent : Q) : Pdf unit :=
  setFontSize sz ;;
  setFont false ;;
  setTextColor black ;;
  c <- getCursor ;;
  let lines := splitTextToSize pdf (font c) text (contentWidth - indent - 5) in
  forEach lines (fun line index =>
    checkNewPage (sz * half) ;;
    let bullet := if Nat.eqb index 0 then "• " else "  " in
    docText tg Bullet (bullet +++ line) (margin + indent) ;;
    advance (sz * half)).

Definition addSpacing (mm : Q) : Pdf unit :=
  advance mm ;;
  checkNewPage mm ;;
  ret tt.

(** [nameLines.forEach(...)] of the three card helpers: wrapped lines,
    6 mm apart. *)
Definition addNameLines (tg : Tag) (nameText : string) : Pdf unit :=
  c <- getCursor ;;
  forEach (splitTextToSize pdf (font c) nameText contentWidth) (fun line _ =>
    checkNewPage 6 ;;
    docText tg Line line margin ;;
    advance 6).

Definition addMaterialCard (a : Analysis) (m : Material) (t : Tier) : Pdf unit :=
  (* Material name (bold, colored) *)
  setFontSize h4 ;;
  setFont true ;;
  setTextColor (tierColor t) ;;
  addNameLines (MaterialPart m FName) (name m) ;;
  (* Reset to black for body text *)
  setTextColor black ;;
  setFont false ;;
  advance 2 ;;
  (* CSI Division *)
  addSpacing 2 ;;
  addLabelValue (MaterialPart m FCsiDivision) "CSI Division: "
    (csiNumber m +++ " - " +++ csiDivision m) body ;;
  addSpacing 2 ;;
  (* Description *)
  addLabelValue (MaterialPart m FDescription) "Description: " (description m) body ;;
  addSpacing 2 ;;
  (* Properties *)
  setFontSize body ;;
  setFont true ;;
  setTextColor black ;;
  checkNewPage 6 ;;
  docText (MaterialPart m FPropertiesLabel) Label "Properties:" margin ;;
  advance 5 ;;
  forEach (properties m) (fun prop _ =>
    addBullet (MaterialPart m FProperty) prop body 5) ;;
  addSpacing 2 ;;
  (* Feasibility Notes *)
  addLabelValue (MaterialPart m FFeasibility) "Feasibility Notes: " (reasoning m) body ;;
  addSpacing 2 ;;
  (* Sustainability Notes *)
  when (includeSustainability a && truthy (sustainabilityNotes m))
    (addLabelValue (MaterialPart m FSustainability) "Sustainability Notes: "
       (orEmpty (sustainabilityNotes m)) body ;;
     addSpacing 2) ;;
  (* Code Compliance *)
  when (isSome (location a) && truthy (codeCompliance m))
    (addLabelValue (MaterialPart m FCodeCompliance) "Code Compliance: "
       (orEmpty (codeCompliance m)) body ;;
     addSpacing 2) ;;
  (* Alternatives *)
  when (includeAlternatives a && hasAlternatives m)
    (setFontSize body ;;
     setFont true ;;
     setTextColor black ;;
     checkNewPage 6 ;;
     docText (MaterialPart m FAlternativesLabel) Label "Alternative Materials:" margin ;;
     advance 5 ;;
     forEach (alternativesOf m) (fun alt index =>
       addSpacing 2 ;;
       setFontSize body ;;
       setFont true ;;
       setTextColor black ;;
       checkNewPage 6 ;;
       docText (MaterialPart m FAlternativeName) Label
         (Str.ofNat (index + 1) +++ ". " +++ Alternative.name alt) (margin + 5) ;;
       advance 5 ;;
       addLabelValue (MaterialPart m FAlternativeDescription) "Description: "
         (Alternative.description alt) body ;;
       addSpacing 1 ;;
       addLabelValue (MaterialPart m FAlternativeTradeoffs) "Tradeoffs: "
         (Alternative.tradeoffs alt) body ;;
       addSpacing 2)).

(** A field of the consultant card: the label, then the wrapped value
    at [indent], 5 mm per line. *)
Definition addWrappedField (tg : Tag) (label value : string) (indent : Q) : Pdf unit :=
  setFont true ;;
  checkNewPage 5 ;;
  docText tg Label label margin ;;
  setFont false ;;
  c <- getCursor ;;
  forEach (splitTextToSize pdf (font c) value (contentWidth - indent)) (fun line _ =>
    checkNewPage 5 ;;
    docText tg Value line (margin + indent) ;;
    advance 5).

(** A field of the consultant card written on one line. *)
Definition addPlainField (tg : Tag) (label value : string) (indent : Q) : Pdf unit :=
  setFont true ;;
  checkNewPage 5 ;;
  docText tg Label label margin ;;
  setFont false ;;
  docText tg Value value (margin + indent) ;;
  advance 5.

Definition addConsultantCard (t : Tier) (c : Consultant.t) : Pdf unit :=
  let tg := ConsultantPart t c in
  (* Consultant name (bold) *)
  setFontSize h4 ;;
  setFont true ;;
  setTextColor black ;;
  addNameLines (tg EName) (Consultant.name c) ;;
  (* Firm *)
  setFontSize body ;;
  addWrappedField (tg EFirm) "Firm:" (Consultant.firm c) 20 ;;
  (* Specialty *)
  addWrappedField (tg ESpecialty) "Specialty:" (Consultant.specialty c) 25 ;;
  (* Contact info *)
  addPlainField (tg EEmail) "Email:" (Consultant.email c) 20 ;;
  addPlainField (tg EPhone) "Phone:" (Consultant.phone c) 25 ;;
  when (truthy (Consultant.website c))
    (addPlainField (tg EWebsite) "Website:" (orEmpty (Consultant.website c)) 25) ;;
  (* Disciplines *)
  addWrappedField (tg EDisciplines) "Disciplines:"
    (Str.join ", " (Consultant.disciplines c)) 30 ;;
  advance 2.

Definition addSupplierCard (b : SupplierBlock) (s : Supplier.t) : Pdf unit :=
  let tg := SupplierPart b s in
  (* Supplier name (bold, h4 size) *)
  setFontSize h4 ;;
  setFont true ;;
  setTextColor black ;;
  addNameLines (tg EName) (Supplier.name s) ;;
  addSpacing 2 ;;
  (* Use label-value format for all fields *)
  addLabelValue (tg ECompany) "Company: " (Supplier.company s) body ;;
  addLabelValue (tg ELocation) "Location: "
    (Supplier.location s +++ " " +++ ratingLabel (Supplier.rating s)) body ;;
  addLabelValue (tg EMaterialTypes) "Material Types: "
    (Str.join ", " (Supplier.materialTypes s)) body ;;
  addLabelValue (tg ESpecialties) "Specialties: "
    (Str.join ", " (Supplier.specialties s)) body ;;
  addLabelValue (tg EEmail) "Email: " (Supplier.email s) body ;;
  addLabelValue (tg EPhone) "Phone: " (Supplier.phone s) body ;;
  when (truthy (Supplier.website s))
    (addLabelValue (tg EWebsite) "Website: " (orEmpty (Supplier.website s)) body) ;;
  addSpacing 3.
End Writer.

(* ================================================================== *)
(** ** The paginated renderer: [buildPDFDocument] *)

(** [s.replace(/\*\*/g, '')] *)
Definition removeStars (s : string) : string :=
  Str.join EmptyString (Str.split "**" s).

(** [line.replace(/^-\s*/, '')] *)
Definition removeDash (line : string) : string :=
  match line with
  | String "-" rest => Str.trimStart rest
  | _ => line
  end.

Section Paginated.
Variable host : Host.
Variable pdf : JsPDF.

(** The scaled size of the thumbnail: at most 80 mm by 60 mm, the
    aspect ratio kept. *)
Definition fitImage (dims : Q * Q) : Q * Q :=
  let maxWidth := 80%Q in
  let maxHeight := 60%Q in
  let aspectRatio := (fst dims / snd dims)%Q in
  let '(imgWidth, imgHeight) :=
    if Qgtb (fst dims) maxWidth then (maxWidth, (maxWidth / aspectRatio)%Q) else dims in
  if Qgtb imgHeight maxHeight then ((maxHeight * aspectRatio)%Q, maxHeight)
  else (imgWidth, imgHeight).

(** [// ===== THUMBNAIL OF INPUT IMAGES =====]: the [catch] branch runs
    when the image does not decode. *)
Definition pdfThumbnail (a : Analysis) : Pdf unit :=
  match imageUrls a with
  | [] => ret tt
  | first :: _ =>
      when (1 <? List.length (imageUrls a))
        (addText pdf ImagesAnalyzed
           ("Analyzed " +++ Str.ofNat (List.length (imageUrls a))
            +++ " images (showing first image)") small false (100, 100, 100) ;;
         advance 3) ;;
      match loadImage pdf first with
      | Some dims =>
          let '(imgWidth, imgHeight) := fitImage dims in
          checkNewPage pdf (imgHeight + 5) ;;
          let imageFormat :=
            if Str.startsWith "data:image/png" first then "PNG" else "JPEG" in
          c <- getCursor ;;
          draw (AddImage first imageFormat margin (yPos c) imgWidth imgHeight) ;;
          advance (imgHeight + 5)
      | None =>
          addText pdf ThumbnailMissing "Image could not be included in PDF"
            small false gray ;;
          advance 5
      end
  end.

Definition pdfLocation (a : Analysis) : Pdf unit :=
  match location a with
  | Some loc =>
      addSpacing pdf 5 ;;
      addText pdf LocationHeading "Location" h3 true black ;;
      addLabelValue pdf (LocationLine LInput) "Project Location: " (input loc) body ;;
      when (truthy (jurisdiction loc))
        (addLabelValue pdf (LocationLine LJurisdiction) "Jurisdiction: "
           (orEmpty (jurisdiction loc)) body) ;;
      when (truthy (buildingCode loc))
        (addLabelValue pdf (LocationLine LBuildingCode) "Building Code: "
           (orEmpty (buildingCode loc)) body) ;;
      addSpacing pdf 3
  | None => ret tt
  end.

Definition pdfDate (a : Analysis) : Pdf unit :=
  addSpacing pdf 5 ;;
  addText pdf DateHeading "Date of Report" h3 true black ;;
  addText pdf Generated (dateToLocaleString host (timestamp a)) body false black ;;
  addSpacing pdf 3.

(** One line of the extracted intent. *)
Definition pdfIntentLine (line : string) : Pdf unit :=
  if Str.startsWith "**" (Str.trim line) && Str.includes ":**" line then
    match Str.split ":**" line with
    | [p0; p1] =>
        addLabelValue pdf BriefIntent
          ((Str.trim (removeStars p0) +++ ":") +++ " ") (Str.trim p1) body
    | _ => addText pdf BriefIntent (removeStars line) body false black ;; ret tt
    end
  else if Str.startsWith "- " (Str.trim line) then
    addBullet pdf BriefIntent (removeDash line) body 5
  else addText pdf BriefIntent line body false black ;; ret tt.

Definition pdfBrief (a : Analysis) : Pdf unit :=
  addSpacing pdf 5 ;;
  addText pdf BriefHeading "Notes from the Brief" h3 true black ;;
  match brief a with
  | Some b =>
      if truthy (intent b) then
        forEach (filter (fun line => Str.isTruthy (Str.trim line))
                        (Str.split nl (orEmpty (intent b))))
                (fun line _ => pdfIntentLine line)
      else addText pdf BriefMissing "No brief notes provided." body false gray ;; ret tt
  | None => addText pdf BriefMissing "No brief notes provided." body false gray ;; ret tt
  end ;;
  addSpacing pdf 3.

Definition summaryTitle (t : Tier) : string :=
  match t with
  | T1 => "Tier 1 (Green - Readily Available): "
  | T2 => "Tier 2 (Yellow - Requires Customization): "
  | T3 => "Tier 3 (Red - Custom Development): "
  end.

Definition pdfSummaryTier (t : Tier) (ms : list Material) : Pdf unit :=
  addSpacing pdf 3 ;;
  addText pdf (SummaryTier t)
    (summaryTitle t +++ Str.ofNat (List.length (ofTier t ms)) +++ " materials")
    h4 true (tierColor t) ;;
  match ofTier t ms with
  | [] => addText pdf (SummaryNames t) "0 materials" body false gray
  | tierN =>
      addText pdf (SummaryNames t) (Str.join ", " (List.map name tierN)) body false black
  end ;;
  ret tt.

Definition pdfSummary (a : Analysis) : Pdf unit :=
  addSpacing pdf 10 ;;
  addText pdf SummaryHeading "Summary of Materials Analysis" h2 true black ;;
  pdfSummaryTier T1 (materials a) ;;
  pdfSummaryTier T2 (materials a) ;;
  pdfSummaryTier T3 (materials a) ;;
  addSpacing pdf 5.

Definition cardsTitle (t : Tier) : string :=
  match t with
  | T1 => "Tier 1: Readily Available Materials"
  | T2 => "Tier 2: Requires Customization"
  | T3 => "Tier 3: Custom Development Required"
  end.

(** One [if (tierN.length > 0) { ... }] block of material cards. *)
Definition pdfCards (a : Analysis) (t : Tier) : Pdf unit :=
  match ofTier t (materials a) with
  | [] => ret tt
  | tierN =>
      addSpacing pdf 10 ;;
      addText pdf (TierHeading t) (cardsTitle t) h2 true black ;;
      addSpacing pdf 3 ;;
      forEach tierN (fun m index =>
        when (0 <? index) (addSpacing pdf 5) ;;
        addMaterialCard pdf a m t)
  end.

Definition pdfConsultantsTitle (t : Tier) : string :=
  match t with
  | T1 => "Green Consultants (Tier 1 Materials)"
  | T2 => "Yellow Consultants (Tier 2 Materials)"
  | T3 => "Red Consultants (Tier 3 Materials)"
  end.

Definition pdfConsultantsTier (t : Tier) (ms : list Material) : Pdf unit :=
  match ofTier t ms with
  | [] => ret tt
  | tierN =>
      addSpacing pdf 10 ;;
      addText pdf (ConsultantsTier t) (pdfConsultantsTitle t) h2 true (tierColor t) ;;
      addSpacing pdf 3 ;;
      forEach (getConsultantsForDivisions (divisionsOf tierN) t) (fun c index =>
        when (0 <? index) (addSpacing pdf 5) ;;
        addConsultantCard pdf t c) ;;
      addSpacing pdf 5
  end.

Definition pdfConsultants (a : Analysis) : Pdf unit :=
  addSpacing pdf 10 ;;
  addText pdf ConsultantsHeading "Appendix: Elite Consultants by Tier" h1 true black ;;
  addSpacing pdf 3 ;;
  addText pdf ConsultantsHeading
    "The following consultants are recommended for the disciplines governing the identified materials in this analysis."
    body false black ;;
  addSpacing pdf 5 ;;
  pdfConsultantsTier T1 (materials a) ;;
  pdfConsultantsTier T2 (materials a) ;;
  pdfConsultantsTier T3 (materials a).

Definition pdfSuppliersTitle (t : Tier) : string :=
  match t with
  | T2 => "Yellow Suppliers (Tier 2 Materials)"
  | _ => "Green Suppliers (Tier 1 Materials)"
  end.

Definition pdfSuppliersTier (t : Tier) (ms : list Material) (loc : ProjectLocation)
    : Pdf unit :=
  match ofTier t ms with
  | [] => ret tt
  | tierN =>
      addSpacing pdf 10 ;;
      addText pdf (SuppliersBlockHeading (supplierBlockOf t)) (pdfSuppliersTitle t)
        h2 true (tierColor t) ;;
      addSpacing pdf 3 ;;
      match getSuppliersForMaterials tierN loc t with
      | [] =>
          addText pdf (SuppliersEmpty (supplierBlockOf t))
            "No local suppliers found. Consider national suppliers listed below."
            body false gray ;;
          addSpacing pdf 3
      | suppliers =>
          forEach suppliers (fun s index =>
            when (0 <? index) (addSpacing pdf 5) ;;
            addSupplierCard pdf (supplierBlockOf t) s)
      end ;;
      addSpacing pdf 5
  end.

Definition pdfNationalSuppliers (ms : list Material) (loc : ProjectLocation)
    : Pdf unit :=
  match filter isNational (allSuppliers ms loc) with
  | [] => ret tt
  | nationals =>
      addSpacing pdf 10 ;;
      addText pdf (SuppliersBlockHeading NationalSuppliers)
        "National Suppliers (High-Quality Options)" h2 true black ;;
      addSpacing pdf 3 ;;
      addText pdf (SuppliersBlockHeading NationalSuppliers)
        "The following national suppliers offer high-quality products and may provide better options when local suppliers are limited:"
        body false black ;;
      addSpacing pdf 5 ;;
      forEach nationals (fun s index =>
        when (0 <? index) (addSpacing pdf 5) ;;
        addSupplierCard pdf NationalSuppliers s) ;;
      addSpacing pdf 5
  end.

Definition pdfSuppliers (a : Analysis) : Pdf unit :=
  match location a with
  | Some loc =>
      when (suppliersShown a)
        (addSpacing pdf 10 ;;
         addText pdf SuppliersHeading "Appendix: Material Suppliers by Tier" h1 true black ;;
         addSpacing pdf 3 ;;
         addText pdf SuppliersHeading
           "The following suppliers are recommended for Tier 1 and Tier 2 materials. Suppliers are prioritized by proximity to the project location, with national suppliers listed when local options are limited."
           body false black ;;
         addSpacing pdf 5 ;;
         pdfSuppliersTier T1 (materials a) loc ;;
         pdfSuppliersTier T2 (materials a) loc ;;
         pdfNationalSuppliers (materials a) loc)
  | None => ret tt
  end.

(** The footer pass: [for (let i = 1; i <= totalPages; i++)]. *)
Definition pdfFooter : Pdf unit :=
  c <- getCursor ;;
  let totalPages := pages c in
  setFontSize small ;;
  setTextColor gray ;;
  forEach (seq 1 totalPages) (fun i _ =>
    draw (Stamp i ("Page " +++ Str.ofNat i +++ " of " +++ Str.ofNat totalPages
                   +++ " - Generated by SpecMate")
                (pageWidth pdf / 2) (pageHeight pdf - 10))).

Definition pdfTitle : Pdf unit :=
  setFontSize h1 ;;
  setFont true ;;
  setTextColor black ;;
  docText Title Line "Material Feasibility Analysis Report" margin ;;
  advance 10.

Definition pdfProgram (a : Analysis) : Pdf unit :=
  pdfTitle ;;
  pdfThumbnail a ;;
  pdfLocation a ;;
  pdfDate a ;;
  pdfBrief a ;;
  pdfSummary a ;;
  pdfCards a T1 ;;
  pdfCards a T2 ;;
  pdfCards a T3 ;;
  pdfConsultants a ;;
  pdfSuppliers a ;;
  pdfFooter.

(** A fresh jsPDF document: one page, the cursor at the top margin,
    16 pt normal black text. *)
Definition newDocument : Cursor :=
  {| yPos := margin;
     font := {| size := 16; bold := false; color := black |};
     pages := 1 |}.

(** The drawing calls [buildPDFDocument] makes on its document. *)
Definition buildPDFDocument (a : Analysis) : list Op :=
  opsOf (pdfProgram a) newDocument.
End Paginated.

(* ================================================================== *)
(** ** The head of [generateMarkdownReport] over a store of arrays

    [generateMarkdownReport] builds its buckets with [push] and sorts
    them in place.  To see what a call leaves behind, the head of the
    function is written once more over a store of arrays: the
    [materials] array of the Analysis lives at an address of the store,
    every bucket is an array the function allocates, and
    [groupedByDivision] maps a division key to the address of its
    bucket. *)

Abbreviation Loc := nat (only parsing).

(** The arrays of materials allocated so far, by address. *)
Abbreviation Store := (list (list Material)) (only parsing).

Definition readArr (st : Store) (l : Loc) : list Material := nth l st [].

Definition writeArr (st : Store) (l : Loc) (v : list Material) : Store :=
  firstn l st ++ v :: skipn (S l) st.

(** [[]]: a fresh array, at the next free address. *)
Definition alloc (st : Store) : Loc * Store := (List.length st, st ++ [[]]).

Abbreviation Refs := (list (string * nat)) (only parsing).

(** [groupedByDivision[key]] as a reference. *)
Fixpoint lookupRef (key : string) (g : Refs) : option Loc :=
  match g with
  | [] => None
  | (k, l) :: g' => if String.eqb k key then Some l else lookupRef key g'
  end.

(** [array.push(m)] *)
Definition pushArr (st : Store) (l : Loc) (m : Material) : Store :=
  writeArr st l (readArr st l ++ [m]).

(** One round of [materials.forEach((material) => { ... })]. *)
Definition groupStep (m : Material) (s : Refs * Store) : Refs * Store :=
  let '(g, st) := s in
  let key := divisionKey m in
  match lookupRef key g with
  | Some l => (g, pushArr st l m)
  | None =>
      let '(l, st1) := alloc st in
      (g ++ [(key, l)], pushArr st1 l m)
  end.

(** [array.sort(cmp)], in place. *)
Definition sortArr (st : Store) (l : Loc) : Store :=
  writeArr st l (sort compareTiers (readArr st l)).

(** [divisionKeys.forEach((key) => groupedByDivision[key].sort(...))];
    every key of [divisionKeys] is a key of the object. *)
Definition sortBuckets (g : Refs) (keys : list string) (st : Store) : Store :=
  fold_left (fun s k => match lookupRef k g with
                        | Some l => sortArr s l
                        | None => s
                        end) keys st.

(** The Analysis as a call finds it: its [materials] are the array at
    [materialsAt]. *)
Definition withMaterials (a : Analysis) (ms : list Material) : Analysis :=
  {| imageUrls := imageUrls a; materials := ms; timestamp := timestamp a;
     includeSustainability := includeSustainability a;
     includeAlternatives := includeAlternatives a;
     location := location a; brief := brief a |}.

(** [generateMarkdownReport] over the store: the report and the store
    the call leaves behind.  [materials.filter(...)] and the rendering
    read the store after the in-place sorts. *)
Definition generateMarkdownReportIn (host : Host) (a : Analysis) (materialsAt : Loc)
    (st : Store) : string * Store :=
  let '(g, st1) :=
    fold_left (fun s m => groupStep m s) (readArr st materialsAt) ([], st) in
  let divisionKeys := sort compareKeys (List.map fst g) in
  let st2 := sortBuckets g divisionKeys st1 in
  let groupedByDivision :=
    List.map (fun k => (k, match lookupRef k g with
                           | Some l => readArr st2 l
                           | None => []
                           end)) divisionKeys in
  (reportText (renderMarkdown host (withMaterials a (readArr st2 materialsAt))
                 groupedByDivision),
   st2).

(* ================================================================== *)
(** ** Jurisdiction and building code ([src/utils/geocode.ts])

    What [geocodeAddress], [reverseGeocode] and [searchAddressSuggestions]
    compute from a result of the geocoding service: the jurisdiction
    string and, with [determineBuildingCode], the building code.  A
    coordinate is a finite number or [None], which stands for [NaN] and
    the infinities: every test on a coordinate is a two-sided range
    test, false on them. *)

(** [a || b] on optional strings. *)
Definition orElse (a b : option string) : option string :=
  if truthy a then a else b.

(** The [address] object of a result. *)
Module Address.
Record t := {
  city : option string;
  town : option string;
  village : option string;
  state : option string;
  country : option string;
  postcode : option string
}.
End Address.

(** [addressParts.city || addressParts.town || addressParts.village] *)
Definition localityOf (parts : Address.t) : option string :=
  orElse (orElse (Address.city parts) (Address.town parts)) (Address.village parts).

(** [jurisdictionParts] after the three [push]es. *)
Definition jurisdictionParts (parts : Address.t) : list string :=
  (if truthy (localityOf parts) then [orEmpty (localityOf parts)] else [])
  ++ (if truthy (Address.state parts) then [orEmpty (Address.state parts)] else [])
  ++ (if truthy (Address.country parts) then [orEmpty (Address.country parts)] else []).

(** [jurisdictionParts.length > 0 ? jurisdictionParts.join(', ')
    : formattedAddress] *)
Definition jurisdictionOf (parts : Address.t) (formattedAddress : string) : string :=
  if 0 <? List.length (jurisdictionParts parts)
  then Str.join ", " (jurisdictionParts parts)
  else formattedAddress.

(** [x >= lo && x <= hi] *)
Definition within (lo hi : Q) (x : option Q) : bool :=
  match x with
  | Some q => Qle_bool lo q && Qle_bool q hi
  | None => false
  end.

(** [s === n1 || s === n2 || ...] on an optional string. *)
Definition isOneOf (s : option string) (names : list string) : bool :=
  match s with
  | Some v => existsb (String.eqb v) names
  | None => false
  end.

(** [// Major cities with specific codes] *)
Definition cityCode (city : option string) : option string :=
  if truthy city then
    let cityLower := Str.toLowerCase (orEmpty city) in
    if Str.includes "new york" cityLower || String.eqb cityLower "nyc" then
      Some "IBC 2021 with NYC Building Code amendments"
    else if Str.includes "los angeles" cityLower || String.eqb cityLower "la" then
      Some "IBC 2021 with California Building Code (CBC)"
    else if Str.includes "chicago" cityLower then
      Some "IBC 2021 with Chicago Building Code amendments"
    else if Str.includes "san francisco" cityLower || String.eqb cityLower "sf" then
      Some "IBC 2021 with California Building Code (CBC) and SF amendments"
    else if Str.includes "seattle" cityLower then
      Some "IBC 2021 with Washington State Building Code"
    else if Str.includes "miami" cityLower then
      Some "IBC 2021 with Florida Building Code (High Velocity Hurricane Zone)"
    else None
  else None.

(** [// State-specific codes] *)
Definition stateCode (lat : option Q) (state : option string) : option string :=
  if truthy state then
    let stateLower := Str.toLowerCase (orEmpty state) in
    if String.eqb stateLower "california" || String.eqb stateLower "ca" then
      Some "IBC 2021 with California Building Code (CBC)"
    else if String.eqb stateLower "florida" || String.eqb stateLower "fl" then
      if within 25 26 lat
      then Some "IBC 2021 with Florida Building Code (High Velocity Hurricane Zone)"
      else Some "IBC 2021 with Florida Building Code"
    else if String.eqb stateLower "new york" || String.eqb stateLower "ny" then
      Some "IBC 2021 with New York State Building Code"
    else if String.eqb stateLower "washington" || String.eqb stateLower "wa" then
      Some "IBC 2021 with Washington State Building Code"
    else if String.eqb stateLower "illinois" || String.eqb stateLower "il" then
      Some "IBC 2021 with Illinois Building Code"
    else None
  else None.

(** A return inside the [if (country === ...)] block of the United
    States ends the function; when the block returns nothing the tests
    for Canada and the international fallback follow. *)
Definition determineBuildingCode (lat lng : option Q) (state city country : option string)
    : string :=
  let afterUS :=
    if isOneOf country ["Canada"; "CA"]
    then "National Building Code of Canada (NBC)"
    else "Refer to local building codes and standards" in
  if isOneOf country ["United States"; "USA"; "US"] then
    match cityCode city with
    | Some code => code
    | None =>
        match stateCode lat state with
        | Some code => code
        | None =>
            if within 24 50 lat && within (-125) (-65) lng
            then "IBC 2021 (International Building Code)"
            else afterUS
        end
    end
  else afterUS.

(** The [jurisdiction] and [buildingCode] of the result the three
    functions return for the address object [parts] at ([lat], [lng]). *)
Definition geocodedLocation (inputText : string) (lat lng : Q) (parts : Address.t)
    (formattedAddress : string) : ProjectLocation :=
  {| input := inputText;
     coordinates := (lat, lng);
     jurisdiction := Some (jurisdictionOf parts formattedAddress);
     buildingCode :=
       Some (determineBuildingCode (Some lat) (Some lng) (Address.state parts)
               (localityOf parts) (Address.country parts)) |}.

(* ================================================================== *)
(** ** The names of the downloaded files ([downloadReport],
    [generatePDFReport]) *)

(** [new Date(timestamp).toISOString()], which throws a [RangeError]
    ([None]) when the timestamp is not a valid date. *)
Record Clock := { toISOString : string -> option string }.

(** [s.replace(/[:.]/g, '-')] *)
Definition dashed (s : string) : string :=
  Str.map (fun c => if Ascii.eqb c ":" || Ascii.eqb c "." then "-"%char else c) s.

Fixpoint take (n : nat) (s : string) : string :=
  match n, s with
  | S k, String c s' => String c (take k s')
  | _, _ => EmptyString
  end.

(** [s.slice(0, -n)] *)
Definition dropLast (n : nat) (s : string) : string :=
  take (String.length s - n) s.

(** [new Date(timestamp).toISOString().replace(/[:.]/g, '-').slice(0, -5)] *)
Definition dateStr (clock : Clock) (timestamp : string) : option string :=
  option_map (fun iso => dropLast 5 (dashed iso)) (toISOString clock timestamp).

(** The file a browser is told to save: [link.download], and the [Blob]
    behind [link.href]. *)
Record Download := {
  filename : string;
  mimeType : string;
  content : string
}.

Definition downloadReport (clock : Clock) (report timestamp : string) : option Download :=
  match dateStr clock timestamp with
  | Some d =>
      Some {| filename := "material-analysis-" +++ d +++ ".txt";
              mimeType := "text/plain";
              content := report |}
  | None => None
  end.

(** [generatePDFReport]: the document, and the name [doc.save] is
    called with. *)
Definition generatePDFReport (host : Host) (pdf : JsPDF) (clock : Clock) (a : Analysis)
    : option (list Op * string) :=
  let doc := buildPDFDocument host pdf a in
  match dateStr clock (timestamp a) with
  | Some d => Some (doc, "material-analysis-" +++ d +++ ".pdf")
  | None => None
  end.

(* ================================================================== *)
(** ** The usage log ([src/utils/logging.ts]) *)

Module UsageLog.
Record LocationInfo := {
  hasLocation : bool;
  jurisdiction : option string;
  buildingCode : option string
}.
Record BriefInfo := {
  hasBrief : bool;
  briefLength : nat;
  hasIntent : bool
}.
Record t := {
  id : string;
  timestamp : string;
  sessionId : string;
  imageCount : nat;
  analysisOptions : bool * bool;
  location : option LocationInfo;
  brief : option BriefInfo;
  materialCount : nat;
  tierDistribution : nat * nat * nat;
  csiDivisions : list string;
  reportGenerated : bool;
  analysisDuration : option Z;
  apiTokensUsed : option (Z * Z)
}.
End UsageLog.

(** [createUsageLog]; [logId] and [session] are what [generateLogId()]
    and [getSessionId()] return. *)
Definition createUsageLog (logId session : string) (analysis : Analysis)
    (analysisDuration : option Z) (apiTokens : option (Z * Z)) : UsageLog.t :=
  let tier1 := List.length (filter (hasTier T1) (materials analysis)) in
  let tier2 := List.length (filter (hasTier T2) (materials analysis)) in
  let tier3 := List.length (filter (hasTier T3) (materials analysis)) in
  let csiDivisions :=
    dedup String.eqb
      (List.map (fun m => csiNumber m +++ " - " +++ csiDivision m) (materials analysis)) in
  {| UsageLog.id := logId;
     UsageLog.timestamp := timestamp analysis;
     UsageLog.sessionId := session;
     UsageLog.imageCount := List.length (imageUrls analysis);
     UsageLog.analysisOptions :=
       (includeSustainability analysis, includeAlternatives analysis);
     UsageLog.location :=
       match location analysis with
       | Some loc =>
           Some {| UsageLog.hasLocation := true;
                   UsageLog.jurisdiction := jurisdiction loc;
                   UsageLog.buildingCode := buildingCode loc |}
       | None => None
       end;
     UsageLog.brief :=
       match brief analysis with
       | Some b =>
           Some {| UsageLog.hasBrief := true;
                   UsageLog.briefLength := String.length (text b);
                   UsageLog.hasIntent := truthy (intent b) |}
       | None => None
       end;
     UsageLog.materialCount := List.length (materials analysis);
     UsageLog.tierDistribution := (tier1, tier2, tier3);
     UsageLog.csiDivisions := csiDivisions;
     UsageLog.reportGenerated := false;
     UsageLog.analysisDuration := analysisDuration;
     UsageLog.apiTokensUsed := apiTokens |}.

(* ================================================================== *)
(** ** Image data URLs ([src/utils/api.ts]) *)

(** [dataUrl.split(',')[1]], [undefined] ([None]) without a comma. *)
Definition imageToBase64 (dataUrl : string) : option string :=
  nth_error (Str.split "," dataUrl) 1.

Definition getMediaType (dataUrl : string) : string :=
  if Str.startsWith "data:image/jpeg" dataUrl || Str.startsWith "data:image/jpg" dataUrl
  then "image/jpeg"
  else if Str.startsWith "data:image/png" dataUrl then "image/png"
  else "image/jpeg".

(* ================================================================== *)
(** ** The JSON text of a response ([analyzeImage]) *)

(** [lines.slice(1, -1)] *)
Definition sliceInner {A : Type} (l : list A) : list A := removelast (tl l).

(** The text [analyzeImage] hands to [JSON.parse]: the response without
    the fence of a markdown code block. *)
Definition jsonTextOf (textContent : string) : string :=
  let trimmed := Str.trim textContent in
  let jsonText :=
    if Str.startsWith "```" trimmed
    then Str.trim (Str.join nl (sliceInner (Str.split nl trimmed)))
    else trimmed in
  Str.trim jsonText.

(* ================================================================== *)
(** * Vocabulary of the properties *)

(** ** Grouping, ordering and derived entities *)

(** Order by an integer key. *)
Definition keyLe {A : Type} (key : A -> Z) (x y : A) : Prop := (key x <= key y)%Z.

Definition hasKey {A : Type} (key : A -> string) (k : string) (m : A) : bool :=
  String.eqb (key m) k.

(** The values filed under [k], in encounter order. *)
Definition bucketOf {A V : Type} (key : A -> string) (val : A -> V) (k : string)
    (l : list A) : list V :=
  List.map val (filter (hasKey key k) l).

(** The materials of division key [k], in input order. *)
Definition inDivision (k : string) (ms : list Material) : list Material :=
  filter (hasKey divisionKey k) ms.

(** The division keys in order of first encounter. *)
Definition encounteredKeys (ms : list Material) : list string :=
  dedup String.eqb (List.map divisionKey ms).

(** The buckets after the grouping loop and the sort of the keys (before
    the tier sort): each division key with its array, in sorted order. *)
Definition divisionBuckets (ms : list Material) : list (string * list Material) :=
  List.map (fun k => (k, lookupGroup k (groupedByDivision ms))) (divisionKeys ms).

(** A list of materials read tier by tier. *)
Definition byTier (ms : list Material) : list Material :=
  ofTier T1 ms ++ ofTier T2 ms ++ ofTier T3 ms.

(** The materials of the markdown body, division by division. *)
Definition byDivision (ms : list Material) : list Material :=
  flat_map (fun k => byTier (inDivision k ms)) (divisionKeys ms).

Definition isTier (t : Tier) (x : Tier) : bool := tierEqb x t.

(** The references of the groups [G] allocated from address [base] on. *)
Definition refsOf (base : nat) (G : Groups) : Refs :=
  combine (List.map fst G) (seq base (List.length G)).

(** [bucket.sort(...)] on the first bucket of key [k]. *)
Fixpoint sortFirst (k : string) (G : Groups) : Groups :=
  match G with
  | [] => []
  | (k', b) :: G' =>
      if String.eqb k' k then (k', sort compareTiers b) :: G'
      else (k', b) :: sortFirst k G'
  end.

(** The specialties of the input divisions, with repetitions. *)
Definition specialtiesOf (divisions : list string) : list string :=
  flat_map (fun d => lookupOr divisionToSpecialty d ["General Consulting"]) divisions.

(** The mapping of (tier, specialty, index) to a consultant. *)
Definition consultantFor (t : Tier) (specialty : string) (index : nat) : Consultant.t :=
  match t with
  | T1 => tier1Consultant specialty index
  | T2 => tier2Consultant specialty index
  | T3 => tier3Consultant specialty index
  end.

Definition consultantLimit (t : Tier) : nat :=
  match t with T1 => 3 | T2 => 4 | T3 => 5 end.

Definition isLocal (s : Supplier.t) : bool := negb (isNational s).

(** ** Reading a rendered document

    A piece of rendered content is the tag of the statement that emitted
    it and the way it was drawn.  Each [report +=] of the markdown
    renderer is one whole line; each [doc.text] of the paginated renderer
    is one piece. *)

Definition Piece : Type := Tag * Role.

Definition mdPieces (r : list Chunk) : list Piece :=
  List.map (fun ch => (tagOf ch, Line)) r.

Definition opPieces (o : Op) : list Piece :=
  match o with
  | Text tg r _ _ _ _ => [(tg, r)]
  | _ => []
  end.

Definition pdfPieces (ops : list Op) : list Piece := flat_map opPieces ops.

Definition piecesOf {A : Type} (m : Pdf A) (c : Cursor) : list Piece :=
  pdfPieces (opsOf m c).

(** Every piece a program draws, from any cursor, satisfies [P]. *)
Definition emits {A : Type} (P : Piece -> Prop) (m : Pdf A) : Prop :=
  forall c, Forall P (piecesOf m c).

(** The headings and material anchors of the materials body.  A material
    is anchored at its "CSI Division" field, which both renderers write
    exactly once per material (the wrapped value lines do not count). *)
Inductive Event := Div (k : string) | Tr (t : Tier) | Mat (m : Material).

Definition eventOf (p : Piece) : option Event :=
  match p with
  | (DivisionHeading k, _) => Some (Div k)
  | (TierHeading t, _) => Some (Tr t)
  | (MaterialPart m FCsiDivision, Value) => None
  | (MaterialPart m FCsiDivision, _) => Some (Mat m)
  | _ => None
  end.

(** The outline of a document: the materials under each tier heading,
    and the tier blocks under each division heading ([blocks] holds the
    tier blocks that stand under no division heading). *)
Record Outline := {
  pending : list Material;
  blocks : list (Tier * list Material);
  divisions : list (string * list (Tier * list Material))
}.

Definition emptyOutline : Outline :=
  {| pending := []; blocks := []; divisions := [] |}.

Definition pushMat (m : Material) (o : Outline) : Outline :=
  {| pending := m :: pending o; blocks := blocks o; divisions := divisions o |}.

(** A tier heading closes the run of materials that follows it; a
    heading wrapped over several lines closes it once. *)
Definition closeBlock (t : Tier) (o : Outline) : Outline :=
  match pending o with
  | [] => o
  | ms => {| pending := []; blocks := (t, ms) :: blocks o; divisions := divisions o |}
  end.

Definition closeDivision (k : string) (o : Outline) : Outline :=
  {| pending := []; blocks := []; divisions := (k, blocks o) :: divisions o |}.

Definition step (p : Piece) (o : Outline) : Outline :=
  match eventOf p with
  | Some (Mat m) => pushMat m o
  | Some (Tr t) => closeBlock t o
  | Some (Div k) => closeDivision k o
  | None => o
  end.

(** The document is read from its end, so that a heading finds the
    content that stands below it. *)
Definition outlineFrom (o : Outline) (ps : list Piece) : Outline :=
  fold_right step o ps.

Definition outline (ps : list Piece) : Outline := outlineFrom emptyOutline ps.

(** Pieces that are neither headings of the materials body nor material
    anchors. *)
Definition quiet (p : Piece) : bool :=
  match eventOf p with
  | None => true
  | Some _ => false
  end.

Definition quietChunk (ch : Chunk) : Prop := quiet (tagOf ch, Line) = true.

Definition quietPiece (p : Piece) : Prop := quiet p = true.

(** The non-empty tier buckets of a list of materials, tier 1 first. *)
Definition tierBlock (t : Tier) (ms : list Material) : list (Tier * list Material) :=
  match ofTier t ms with
  | [] => []
  | b => [(t, b)]
  end.

Definition tierBlocks (ms : list Material) : list (Tier * list Material) :=
  tierBlock T1 ms ++ tierBlock T2 ms ++ tierBlock T3 ms.

(** The materials a document renders, in order of appearance. *)
Definition outlineMaterials (o : Outline) : list Material :=
  flat_map snd (blocks o ++ flat_map snd (divisions o)).

Definition Triple : Type := string * Tier * string.

(** (division, tier, material-name): the division as the material's
    "CSI Division" field shows it, the tier of the heading above. *)
Definition blockTriples (b : Tier * list Material) : list Triple :=
  List.map (fun m => (divisionKey m, fst b, name m)) (snd b).

Definition outlineTriples (o : Outline) : list Triple :=
  flat_map blockTriples (blocks o ++ flat_map snd (divisions o)).

Definition triples (ps : list Piece) : list Triple := outlineTriples (outline ps).

(** The triple a material yields under the heading of its own tier. *)
Definition tripleOf (m : Material) : Triple := (divisionKey m, tier m, name m).

Definition markdownTriples (host : Host) (a : Analysis) : list Triple :=
  triples (mdPieces (generateMarkdownChunks host a)).

Definition paginatedTriples (host : Host) (pdf : JsPDF) (a : Analysis) : list Triple :=
  triples (pdfPieces (buildPDFDocument host pdf a)).

(** A wrapper that never returns an empty array of lines (jsPDF returns
    [['']] for the empty string). *)
Definition wraps (pdf : JsPDF) : Prop :=
  forall f s w, splitTextToSize pdf f s w <> [].

(** Whether a document holds a piece of some kind. *)
Definition hasPiece (p : Piece -> bool) (ps : list Piece) : bool := existsb p ps.

Definition isSuppliersAppendix (p : Piece) : bool :=
  match fst p with SuppliersHeading => true | _ => false end.

Definition isSupplierEntry (p : Piece) : bool :=
  match fst p with SupplierPart _ _ _ => true | _ => false end.

Definition isComplianceSummary (p : Piece) : bool :=
  match fst p with ComplianceSummary => true | _ => false end.

Definition isAlternativesBlock (p : Piece) : bool :=
  match fst p with
  | MaterialPart _ FAlternativesLabel | MaterialPart _ FAlternativeName
  | MaterialPart _ FAlternativeDescription | MaterialPart _ FAlternativeTradeoffs => true
  | _ => false
  end.

Definition isSustainabilityNotes (p : Piece) : bool :=
  match fst p with MaterialPart _ FSustainability => true | _ => false end.

Definition isBriefTag (t : Tag) : bool :=
  match t with
  | BriefHeading | BriefIntent | BriefSummary | BriefMissing => true
  | _ => false
  end.

(** The chunks of a report whose tag is of some kind, in order. *)
Definition select (q : Tag -> bool) (r : list Chunk) : list Chunk :=
  filter (fun ch => q (tagOf ch)) r.

(** "At least one tier-1 or tier-2 material, and a location." *)
Definition suppliersExpected (a : Analysis) : bool :=
  existsb (fun m => tierEqb (tier m) T1 || tierEqb (tier m) T2) (materials a)
  && isSome (location a).

(** ** Sample data *)

Definition sampleMaterial (nm number division : string) (t : Tier) : Material :=
  {| name := nm; description := "A material"; properties := ["Durable"];
     tier := t; reasoning := "Stock item";
     csiDivision := division; csiNumber := number;
     sustainabilityNotes := Some "Recyclable";
     alternatives := Some [ {| Alternative.name := "Substitute";
                               Alternative.description := "Another product";
                               Alternative.tradeoffs := "Cheaper, heavier" |} ];
     codeCompliance := Some "Class A" |}.

Definition sampleLocation : ProjectLocation :=
  {| input := "350 Fifth Avenue";
     coordinates := (40, -74)%Q;
     jurisdiction := Some "New York, NY, USA";
     buildingCode := Some "IBC 2021" |}.

Definition sampleBrief : ProjectBrief :=
  {| text := "A small house on a slope."; intent := Some "Low budget, timber frame." |}.

Definition sampleAnalysis (ms : list Material) (loc : option ProjectLocation)
    (sustainability alts : bool) : Analysis :=
  {| imageUrls := ["data:image/png;base64,AAAA"];
     materials := ms;
     timestamp := "2025-01-15T10:00:00.000Z";
     includeSustainability := sustainability;
     includeAlternatives := alts;
     location := loc;
     brief := None |}.

Definition withBrief (a : Analysis) (b : ProjectBrief) : Analysis :=
  {| imageUrls := imageUrls a; materials := materials a; timestamp := timestamp a;
     includeSustainability := includeSustainability a;
     includeAlternatives := includeAlternatives a;
     location := location a; brief := Some b |}.

(** A concrete host and document library to evaluate the renderers with:
    the date printed as it is stored, every text on one line, two
    millimetres per character, images of 400 by 300. *)
Definition plainHost : Host := {| dateToLocaleString := fun s => s |}.

Definition plainPDF : JsPDF :=
  {| pageWidth := 210;
     pageHeight := 297;
     splitTextToSize := fun _ s _ => [s];
     getTextWidth := fun _ s => (inject_Z (Z.of_nat (String.length s)) * 2)%Q;
     loadImage := fun _ => Some (400, 300)%Q |}.

(** ** Further kinds of pieces *)

Definition isNoSuppliersNotice (p : Piece) : bool :=
  match fst p with SuppliersEmpty _ => true | _ => false end.

Definition isCodeComplianceField (p : Piece) : bool :=
  match fst p with MaterialPart _ FCodeCompliance => true | _ => false end.

(** ** [parseInt], step by step

    The sign and the radix prefix [parseInt] strips off a trimmed string,
    named so that the steps can be followed one at a time. *)

Definition signOf (s1 : string) : bool * string :=
  match s1 with
  | String "-" r => (true, r)
  | String "+" r => (false, r)
  | _ => (false, s1)
  end.

Definition radixOf (s2 : string) : Z * string :=
  match s2 with
  | String "0" (String "x" r) => (16%Z, r)
  | String "0" (String "X" r) => (16%Z, r)
  | _ => (10%Z, s2)
  end.

(** The number a division key is sorted by, [0] standing in for [NaN]. *)
Definition keyValue (k : string) : Z :=
  match keyNumber k with
  | Some n => n
  | None => 0%Z
  end.

(** The keys of the division headings of a document, in order of
    appearance. *)
Definition divisionHeadings (ps : list Piece) : list string :=
  List.map fst (divisions (outline ps)).

Definition isSummaryCount (t : Tag) : bool :=
  match t with SummaryTotal | SummaryTier _ => true | _ => false end.

Definition isRollupLine (t : Tier) (tg : Tag) : bool :=
  match tg with TierSummaryLine t' _ => tierEqb t' t | _ => false end.

(** A part of a printed date that holds no colon and no full stop. *)
Definition plainPart (s : string) : bool :=
  negb (Str.includes ":" s) && negb (Str.includes "." s).

(** What a usage log can tell of an Analysis: the time stamp, the number
    of images, the two flags, tier and division of every material, the
    jurisdiction and building code of the location, the length of the
    brief and whether an intent was extracted. *)
Definition loggedView (a : Analysis)
    : string * nat * (bool * bool) * list (Tier * string * string)
      * option (option string * option string) * option (nat * bool) :=
  (timestamp a, List.length (imageUrls a),
   (includeSustainability a, includeAlternatives a),
   List.map (fun m => (tier m, csiNumber m, csiDivision m)) (materials a),
   option_map (fun loc => (jurisdiction loc, buildingCode loc)) (location a),
   option_map (fun b => (String.length (text b), truthy (intent b))) (brief a)).

(** ** Tracking the cursor and the drawing calls of the writer

    A relation between the cursor before a program, the cursor after it
    and the calls it made, kept by every step of the writer and closed
    under sequencing. *)
Record Tracking (R : Cursor -> Cursor -> list Op -> Prop) : Prop := {
  track_refl : forall c, R c c [];
  track_trans : forall c c1 c2 o1 o2, R c c1 o1 -> R c1 c2 o2 -> R c c2 (o1 ++ o2);
  track_y : forall c y, R c {| yPos := y; font := font c; pages := pages c |} [];
  track_font : forall c f, R c {| yPos := yPos c; font := f; pages := pages c |} [];
  track_page :
    forall c, R c {| yPos := yPos c; font := font c; pages := S (pages c) |} [AddPage];
  track_text : forall c tg r s x, R c c [Text tg r s x (yPos c) (font c)]
}.

Definition tracks {A : Type} (R : Cursor -> Cursor -> list Op -> Prop) (m : Pdf A) : Prop :=
  forall c, R c (cursorOf m c) (opsOf m c).

Definition isAddPage (o : Op) : bool :=
  match o with AddPage => true | _ => false end.

Definition isStamp (o : Op) : bool :=
  match o with Stamp _ _ _ _ => true | _ => false end.

Definition isImage (o : Op) : bool :=
  match o with AddImage _ _ _ _ _ _ => true | _ => false end.

(** The page breaks among the calls. *)
Definition pageBreaks (ops : list Op) : nat := List.length (filter isAddPage ops).

(** The page counter follows the page breaks, and no footer is stamped. *)
Definition countsPages (c c' : Cursor) (ops : list Op) : Prop :=
  pages c' = pages c + pageBreaks ops /\ Forall (fun o => isStamp o = false) ops.

Definition drawsNoImage (c c' : Cursor) (ops : list Op) : Prop :=
  Forall (fun o => isImage o = false) ops.

(** An embedded image but for its vertical position: the source, the
    format, the left edge, the width and the height. *)
Definition imageView (o : Op) : option (string * string * Q * Q * Q) :=
  match o with
  | AddImage url format x _ w h => Some (url, format, x, w, h)
  | _ => None
  end.

(** [doc.text] at the cursor stays on or above the bottom margin line. *)
Definition aboveBottomMargin (pdf : JsPDF) (o : Op) : Prop :=
  match o with
  | Text _ _ _ _ y _ => (y <= pageHeight pdf - margin)%Q
  | _ => True
  end.

Definition inPage (pdf : JsPDF) (c : Cursor) : Prop :=
  (yPos c <= pageHeight pdf - margin)%Q.

(** A program that, started with the cursor in the page when [b] says
    so, draws every text above the bottom margin line and leaves the
    cursor in the page when [b'] says so. *)
Definition keepsMargin {A : Type} (pdf : JsPDF) (b : bool) (m : Pdf A) (b' : bool) : Prop :=
  forall c, (b = true -> inPage pdf c) ->
            Forall (aboveBottomMargin pdf) (opsOf m c)
            /\ (b' = true -> inPage pdf (cursorOf m c)).

(** ** The entries of the two appendices

    A consultant or supplier entry is read off a document where it is
    written once: the whole entry in the markdown report; in the
    paginated document the label of the first field of the card. *)
Definition consultantOf (p : Piece) : list (Tier * Consultant.t) :=
  match p with
  | (ConsultantPart t c EWhole, _) => [(t, c)]
  | (ConsultantPart t c EFirm, Label) => [(t, c)]
  | _ => []
  end.

Definition supplierOf (p : Piece) : list (SupplierBlock * Supplier.t) :=
  match p with
  | (SupplierPart b s EWhole, _) => [(b, s)]
  | (SupplierPart b s ECompany, Label) => [(b, s)]
  | _ => []
  end.

Definition consultantEntries (ps : list Piece) : list (Tier * Consultant.t) :=
  flat_map consultantOf ps.

Definition supplierEntries (ps : list Piece) : list (SupplierBlock * Supplier.t) :=
  flat_map supplierOf ps.

(** The consultants of the three tiers, tier 1 first, each tier for the
    divisions of its materials. *)
Definition consultantsByTier (ms : list Material) : list (Tier * Consultant.t) :=
  flat_map (fun t => List.map (pair t)
                       (getConsultantsForDivisions (divisionsOf (ofTier t ms)) t))
           [T1; T2; T3].

(** The suppliers of tier 1, of tier 2, and the national ones of both
    once more, when the appendix is shown. *)
Definition suppliersByBlock (a : Analysis) : list (SupplierBlock * Supplier.t) :=
  match location a with
  | Some loc =>
      if suppliersShown a then
        List.map (pair GreenSuppliers)
          (getSuppliersForMaterials (ofTier T1 (materials a)) loc T1)
        ++ List.map (pair YellowSuppliers)
             (getSuppliersForMaterials (ofTier T2 (materials a)) loc T2)
        ++ List.map (pair NationalSuppliers)
             (filter isNational (allSuppliers (materials a) loc))
      else []
  | None => []
  end.

Definition isImageCountNote (p : Piece) : bool :=
  match fst p with ImagesAnalyzed => true | _ => false end.

(** Whether some character of a text satisfies [p]. *)
Fixpoint anyChar (p : ascii -> bool) (s : string) : bool :=
  match s with
  | EmptyString => false
  | String c s' => p c || anyChar p s'
  end.

Definition hasSpace (s : string) : bool := anyChar Str.isSpace s.

(* ================================================================== *)
(** * Properties *)

(** ** Stable sort *)

Section SortFacts.
Context {A : Type}.
Variable cmp : A -> A -> option Z.

Lemma insertSorted_perm (x : A) (l : list A) :
  Permutation (insertSorted cmp x l) (x :: l).
Proof.
  induction l as [|y l IH]; simpl.
  - apply Permutation_refl.
  - destruct (goesAfter cmp x y).
    + eapply perm_trans; [apply perm_skip, IH | apply perm_swap].
    + apply Permutation_refl.
Qed.

Lemma sort_perm (l : list A) : Permutation (sort cmp l) l.
Proof.
  induction l as [|x l IH]; simpl.
  - constructor.
  - eapply perm_trans; [apply insertSorted_perm | apply perm_skip, IH].
Qed.

(** A class of elements the comparator never orders strictly keeps its
    relative order. *)
Section Stable.
Variable p : A -> bool.
Hypothesis p_ties :
  forall x y, p x = true -> p y = true -> goesAfter cmp x y = false.

Lemma insertSorted_filter (x : A) (l : list A) :
  filter p (insertSorted cmp x l) = filter p (x :: l).
Proof.
  induction l as [|y l IH]; [reflexivity|].
  simpl insertSorted.
  destruct (goesAfter cmp x y) eqn:E; [|reflexivity].
  change (filter p (y :: insertSorted cmp x l))
    with (if p y then y :: filter p (insertSorted cmp x l)
          else filter p (insertSorted cmp x l)).
  rewrite IH. simpl.
  destruct (p x) eqn:Px, (p y) eqn:Py; try reflexivity.
  rewrite (p_ties x y Px Py) in E. discriminate.
Qed.

Lemma sort_filter (l : list A) : filter p (sort cmp l) = filter p l.
Proof.
  induction l as [|x l IH]; [reflexivity|].
  simpl sort. rewrite insertSorted_filter. simpl. now rewrite IH.
Qed.
End Stable.
End SortFacts.

(** Sorting by an integer key. *)
Section SortByKey.
Context {A : Type}.
Variable key : A -> Z.
Variable cmp : A -> A -> option Z.
Hypothesis cmp_key : forall x y, cmp x y = Some (key x - key y)%Z.

Lemma goesAfter_key (x y : A) : goesAfter cmp x y = (key y <? key x)%Z.
Proof.
  unfold goesAfter. rewrite cmp_key.
  destruct (Z.ltb_spec 0 (key x - key y)), (Z.ltb_spec (key y) (key x)); lia.
Qed.

Lemma insertSorted_sorted (x : A) (l : list A) :
  Sorted (keyLe key) l -> Sorted (keyLe key) (insertSorted cmp x l).
Proof.
  induction l as [|y l IH]; intros Hs; simpl.
  - repeat constructor.
  - rewrite goesAfter_key. destruct (Z.ltb_spec (key y) (key x)) as [Hlt|Hge].
    + inversion Hs as [|? ? Hl Hhd]; subst.
      constructor; [now apply IH|].
      destruct l as [|z l]; simpl.
      * constructor. unfold keyLe. lia.
      * rewrite goesAfter_key. destruct (Z.ltb_spec (key z) (key x)).
        -- inversion Hhd; subst. now constructor.
        -- constructor. unfold keyLe. lia.
    + constructor; [assumption|]. constructor. exact Hge.
Qed.

Lemma sort_sorted (l : list A) : Sorted (keyLe key) (sort cmp l).
Proof.
  induction l as [|x l IH]; simpl; [constructor|].
  now apply insertSorted_sorted.
Qed.

(** Stability: elements of one key keep their encounter order. *)
Lemma sort_stable (n : Z) (l : list A) :
  filter (fun x => (key x =? n)%Z) (sort cmp l) = filter (fun x => (key x =? n)%Z) l.
Proof.
  apply sort_filter. intros x y Hx Hy.
  rewrite goesAfter_key.
  apply Z.eqb_eq in Hx, Hy. apply Z.ltb_ge. lia.
Qed.
End SortByKey.

(** ** Deduplication through a [Set] *)

Section DedupFacts.
Context {A : Type}.
Variable eqb : A -> A -> bool.
Hypothesis eqb_spec : forall x y, eqb x y = true <-> x = y.

Lemma eqb_refl' (x : A) : eqb x x = true.
Proof. now apply eqb_spec. Qed.

Lemma eqb_sym' (x y : A) : eqb x y = eqb y x.
Proof.
  destruct (eqb x y) eqn:E, (eqb y x) eqn:F; try reflexivity.
  - apply eqb_spec in E. subst. rewrite eqb_refl' in F. discriminate.
  - apply eqb_spec in F. subst. rewrite eqb_refl' in E. discriminate.
Qed.

Lemma existsb_eqb_In (x : A) (l : list A) : existsb (eqb x) l = true <-> In x l.
Proof.
  rewrite existsb_exists. split.
  - intros [y [Hin Hy]]. apply eqb_spec in Hy. now subst.
  - intros Hin. exists x. split; [assumption | apply eqb_refl'].
Qed.

Lemma existsb_eqb_notIn (x : A) (l : list A) : existsb (eqb x) l = false <-> ~ In x l.
Proof.
  rewrite <- existsb_eqb_In. destruct (existsb (eqb x) l); split; intros; congruence.
Qed.

Lemma dedup_snoc (l : list A) (x : A) :
  dedup eqb (l ++ [x]) = setAdd eqb x (dedup eqb l).
Proof. unfold dedup. now rewrite fold_left_app. Qed.

Lemma In_setAdd (x y : A) (s : list A) : In y (setAdd eqb x s) <-> y = x \/ In y s.
Proof.
  unfold setAdd. destruct (existsb (eqb x) s) eqn:E.
  - apply existsb_eqb_In in E. split; [tauto|]. intros [->|H]; assumption.
  - rewrite in_app_iff. simpl. intuition congruence.
Qed.

Lemma In_dedup (x : A) (l : list A) : In x (dedup eqb l) <-> In x l.
Proof.
  induction l as [|y l IH] using rev_ind; [reflexivity|].
  rewrite dedup_snoc, In_setAdd, in_app_iff, IH. simpl. intuition congruence.
Qed.

Lemma NoDup_setAdd (x : A) (s : list A) : NoDup s -> NoDup (setAdd eqb x s).
Proof.
  intros Hs. unfold setAdd. destruct (existsb (eqb x) s) eqn:E; [assumption|].
  apply existsb_eqb_notIn in E.
  apply NoDup_rev in Hs. rewrite <- (rev_involutive (s ++ [x])).
  apply NoDup_rev. rewrite rev_app_distr. simpl.
  constructor; [|assumption]. now rewrite <- in_rev.
Qed.

Lemma NoDup_dedup (l : list A) : NoDup (dedup eqb l).
Proof.
  induction l as [|y l IH] using rev_ind; [constructor|].
  rewrite dedup_snoc. now apply NoDup_setAdd.
Qed.

Lemma filter_filter (p q : A -> bool) (l : list A) :
  filter p (filter q l) = filter (fun y => q y && p y) l.
Proof.
  induction l as [|y l IH]; [reflexivity|].
  simpl. destruct (q y); simpl; [destruct (p y)|]; now rewrite IH.
Qed.

Lemma fold_setAdd_firstOccurrences (l acc : list A) :
  fold_left (fun s x => setAdd eqb x s) l acc
  = acc ++ filter (fun y => negb (existsb (eqb y) acc)) (firstOccurrences eqb l).
Proof.
  revert acc. induction l as [|x l IH]; intros acc; simpl.
  - now rewrite app_nil_r.
  - rewrite IH. unfold setAdd. rewrite filter_filter.
    destruct (existsb (eqb x) acc) eqn:E; simpl.
    + f_equal. apply filter_ext_in. intros y _.
      destruct (eqb x y) eqn:F; [|reflexivity]. simpl.
      apply eqb_spec in F. subst. now rewrite E.
    + rewrite <- app_assoc. simpl. do 2 f_equal.
      apply filter_ext. intros y.
      rewrite existsb_app. simpl. rewrite orb_false_r, negb_orb.
      rewrite (eqb_sym' y x). apply andb_comm.
Qed.

(** A [Set] lists its elements in the order of their first occurrence. *)
Lemma dedup_firstOccurrences (l : list A) : dedup eqb l = firstOccurrences eqb l.
Proof.
  unfold dedup. rewrite fold_setAdd_firstOccurrences. simpl.
  induction (firstOccurrences eqb l) as [|y r IH]; simpl; congruence.
Qed.
End DedupFacts.

(** ** Grouping by division key *)

Lemma string_eqb_spec (x y : string) : String.eqb x y = true <-> x = y.
Proof. apply String.eqb_eq. Qed.

Section GroupFacts.
Context {A V : Type}.
Variable key : A -> string.
Variable val : A -> V.

Lemma bucketOf_snoc (k : string) (l : list A) (x : A) :
  bucketOf key val k (l ++ [x])
  = bucketOf key val k l ++ (if String.eqb k (key x) then [val x] else []).
Proof.
  unfold bucketOf, hasKey. rewrite filter_app, map_app. simpl.
  rewrite (String.eqb_sym k). now destruct (String.eqb (key x) k).
Qed.

Lemma bucketOf_absent (k : string) (l : list A) :
  ~ In k (List.map key l) -> bucketOf key val k l = [].
Proof.
  intros H. unfold bucketOf.
  replace (filter (hasKey key k) l) with (@nil A); [reflexivity|].
  symmetry. induction l as [|y l IH]; [reflexivity|]. simpl in *.
  unfold hasKey at 1. destruct (String.eqb_spec (key y) k) as [E|E].
  - exfalso. apply H. now left.
  - apply IH. intros Hin. apply H. now right.
Qed.

Lemma pushGroup_map (b : string -> list V) (kx : string) (v : V) (D : list string) :
  NoDup D ->
  pushGroup kx v (List.map (fun k => (k, b k)) D)
  = if existsb (String.eqb kx) D
    then List.map (fun k => (k, b k ++ (if String.eqb k kx then [v] else []))) D
    else List.map (fun k => (k, b k)) D ++ [(kx, [v])].
Proof.
  induction D as [|d D IH]; intros Hnd; [reflexivity|].
  inversion Hnd as [|? ? Hd HD]; subst. simpl.
  rewrite (String.eqb_sym kx d).
  destruct (String.eqb_spec d kx) as [E|E]; simpl.
  - subst d. f_equal. apply map_ext_in. intros k Hk.
    destruct (String.eqb_spec k kx) as [E'|E']; [now subst|].
    now rewrite app_nil_r.
  - rewrite (IH HD). destruct (existsb (String.eqb kx) D); simpl.
    + now rewrite app_nil_r.
    + reflexivity.
Qed.

(** The object built by the grouping loop: its keys are the division
    keys in order of first encounter, and each key holds the values of
    its materials in encounter order. *)
Lemma groupFold_spec (l : list A) :
  fold_left (fun g m => pushGroup (key m) (val m) g) l []
  = List.map (fun k => (k, bucketOf key val k l)) (dedup String.eqb (List.map key l)).
Proof.
  induction l as [|x l IH] using rev_ind; [reflexivity|].
  rewrite fold_left_app. simpl. rewrite IH.
  rewrite map_app. simpl. rewrite (dedup_snoc String.eqb).
  rewrite pushGroup_map by apply (NoDup_dedup _ string_eqb_spec).
  unfold setAdd.
  destruct (existsb (String.eqb (key x)) (dedup String.eqb (List.map key l))) eqn:E.
  - apply map_ext. intros k. rewrite bucketOf_snoc.
    now rewrite (String.eqb_sym k (key x)).
  - apply (existsb_eqb_notIn _ string_eqb_spec) in E.
    rewrite map_app. simpl. f_equal.
    + apply map_ext_in. intros k Hk. rewrite bucketOf_snoc.
      destruct (String.eqb_spec k (key x)) as [->|_]; [contradiction|].
      now rewrite app_nil_r.
    + rewrite bucketOf_snoc, String.eqb_refl.
      rewrite bucketOf_absent; [reflexivity|].
      now rewrite <- (In_dedup _ string_eqb_spec).
Qed.
End GroupFacts.

Lemma groupedByDivision_spec (ms : list Material) :
  groupedByDivision ms = List.map (fun k => (k, inDivision k ms)) (encounteredKeys ms).
Proof.
  unfold groupedByDivision, inDivision, encounteredKeys.
  rewrite (groupFold_spec divisionKey (fun m => m)).
  apply map_ext. intros k. unfold bucketOf. now rewrite map_id.
Qed.

Lemma lookupGroup_map (f : string -> list Material) (k : string) (D : list string) :
  In k D -> lookupGroup k (List.map (fun d => (d, f d)) D) = f k.
Proof.
  induction D as [|d D IH]; intros Hin; [contradiction|]. simpl.
  destruct (String.eqb_spec d k) as [->|E]; [reflexivity|].
  destruct Hin as [->|Hin]; [contradiction|]. now apply IH.
Qed.

Lemma divisionKeys_spec (ms : list Material) :
  divisionKeys ms = sort compareKeys (encounteredKeys ms).
Proof.
  unfold divisionKeys. rewrite groupedByDivision_spec, map_map. simpl.
  now rewrite map_id.
Qed.

Lemma In_divisionKeys (k : string) (ms : list Material) :
  In k (divisionKeys ms) <-> In k (encounteredKeys ms).
Proof.
  rewrite divisionKeys_spec. split; apply Permutation_in.
  - apply sort_perm.
  - apply Permutation_sym, sort_perm.
Qed.

(** The canonical grouping, read off the input list. *)
Lemma grouping_spec (ms : list Material) :
  grouping ms
  = List.map (fun k => (k, sort compareTiers (inDivision k ms))) (divisionKeys ms).
Proof.
  unfold grouping, sortedGroups. rewrite groupedByDivision_spec, map_map. simpl.
  apply map_ext_in. intros k Hk. f_equal.
  apply In_divisionKeys in Hk.
  now rewrite (lookupGroup_map (fun d => sort compareTiers (inDivision d ms))).
Qed.

Lemma hasTier_ties (t : Tier) (x y : Material) :
  hasTier t x = true -> hasTier t y = true -> goesAfter compareTiers x y = false.
Proof.
  unfold hasTier, goesAfter, compareTiers.
  destruct (tier x), (tier y), t; simpl; intros; try reflexivity; discriminate.
Qed.

(** The in-place tier sort does not disturb the order inside a tier. *)
Lemma ofTier_sort (t : Tier) (b : list Material) :
  ofTier t (sort compareTiers b) = ofTier t b.
Proof. apply sort_filter, hasTier_ties. Qed.

(** ** The grouping step on division numbers 03, 07, 07, 21 *)

(** C2, as stated, fails: two "07" materials whose division names differ
    are filed under two keys, so the grouping has four buckets. *)
Lemma C2_four_buckets :
  List.length
    (divisionBuckets
       [ sampleMaterial "Slab" "03" "Concrete" T1;
         sampleMaterial "Roof" "07" "Thermal and Moisture Protection" T1;
         sampleMaterial "Membrane" "07" "Thermal & Moisture Protection" T1;
         sampleMaterial "Sprinkler" "21" "Fire Suppression" T1 ]) = 4.
Proof. vm_compute. reflexivity. Qed.

(** C2 (amended): for materials numbered "03", "07", "07", "21" in that
    order, the grouping step yields the buckets in the order 03, 07, 21.
    When the two "07" materials carry the same division name they share
    one bucket, in their original order (three buckets); when the names
    differ they are two buckets of equal number 7, kept in encounter
    order between 03 and 21 (the stable sort breaking the tie). *)
Theorem C2_grouping_03_07_07_21 (m1 m2 m3 m4 : Material) :
  csiNumber m1 = "03" -> csiNumber m2 = "07" ->
  csiNumber m3 = "07" -> csiNumber m4 = "21" ->
  divisionBuckets [m1; m2; m3; m4]
  = if String.eqb (csiDivision m2) (csiDivision m3)
    then [ (divisionKey m1, [m1]); (divisionKey m2, [m2; m3]); (divisionKey m4, [m4]) ]
    else [ (divisionKey m1, [m1]); (divisionKey m2, [m2]);
           (divisionKey m3, [m3]); (divisionKey m4, [m4]) ].
Proof.
  intros H1 H2 H3 H4.
  assert (K1 : keyNumber (divisionKey m1) = Some 3%Z)
    by (unfold divisionKey; rewrite H1; reflexivity).
  assert (K2 : keyNumber (divisionKey m2) = Some 7%Z)
    by (unfold divisionKey; rewrite H2; reflexivity).
  assert (K3 : keyNumber (divisionKey m3) = Some 7%Z)
    by (unfold divisionKey; rewrite H3; reflexivity).
  assert (K4 : keyNumber (divisionKey m4) = Some 21%Z)
    by (unfold divisionKey; rewrite H4; reflexivity).
  assert (E12 : String.eqb (divisionKey m1) (divisionKey m2) = false)
    by (unfold divisionKey; rewrite H1, H2; reflexivity).
  assert (E13 : String.eqb (divisionKey m1) (divisionKey m3) = false)
    by (unfold divisionKey; rewrite H1, H3; reflexivity).
  assert (E14 : String.eqb (divisionKey m1) (divisionKey m4) = false)
    by (unfold divisionKey; rewrite H1, H4; reflexivity).
  assert (E24 : String.eqb (divisionKey m2) (divisionKey m4) = false)
    by (unfold divisionKey; rewrite H2, H4; reflexivity).
  assert (E34 : String.eqb (divisionKey m3) (divisionKey m4) = false)
    by (unfold divisionKey; rewrite H3, H4; reflexivity).
  assert (E23 : String.eqb (divisionKey m2) (divisionKey m3)
                = String.eqb (csiDivision m2) (csiDivision m3))
    by (unfold divisionKey; rewrite H2, H3; reflexivity).
  assert (G12 : goesAfter compareKeys (divisionKey m1) (divisionKey m2) = false)
    by (unfold goesAfter, compareKeys; rewrite K1, K2; reflexivity).
  assert (G23 : goesAfter compareKeys (divisionKey m2) (divisionKey m3) = false)
    by (unfold goesAfter, compareKeys; rewrite K2, K3; reflexivity).
  assert (G24 : goesAfter compareKeys (divisionKey m2) (divisionKey m4) = false)
    by (unfold goesAfter, compareKeys; rewrite K2, K4; reflexivity).
  assert (G34 : goesAfter compareKeys (divisionKey m3) (divisionKey m4) = false)
    by (unfold goesAfter, compareKeys; rewrite K3, K4; reflexivity).
  unfold divisionBuckets, divisionKeys, groupedByDivision.
  cbn [fold_left pushGroup].
  rewrite E12. cbn [pushGroup]. rewrite E13, E23.
  destruct (String.eqb (csiDivision m2) (csiDivision m3)) eqn:E;
    cbn [pushGroup app]; rewrite ?E12, ?E13, ?E14, ?E24, ?E34;
    cbn [pushGroup app List.map fst sort insertSorted];
    rewrite ?G34, ?G24; cbn [insertSorted];
    rewrite ?G23; cbn [insertSorted];
    rewrite ?G12; cbn [List.map lookupGroup];
    rewrite ?String.eqb_refl, ?E12, ?E13, ?E14, ?E24, ?E34, ?E23, ?E;
    reflexivity.
Qed.

Lemma C2_grouping_witness :
  divisionBuckets
    [ sampleMaterial "Slab" "03" "Concrete" T1;
      sampleMaterial "Roof" "07" "Thermal and Moisture Protection" T2;
      sampleMaterial "Membrane" "07" "Thermal and Moisture Protection" T1;
      sampleMaterial "Sprinkler" "21" "Fire Suppression" T1 ]
  = [ ("03 - Concrete", [sampleMaterial "Slab" "03" "Concrete" T1]);
      ("07 - Thermal and Moisture Protection",
       [ sampleMaterial "Roof" "07" "Thermal and Moisture Protection" T2;
         sampleMaterial "Membrane" "07" "Thermal and Moisture Protection" T1 ]);
      ("21 - Fire Suppression", [sampleMaterial "Sprinkler" "21" "Fire Suppression" T1]) ].
Proof.
  exact (C2_grouping_03_07_07_21
           (sampleMaterial "Slab" "03" "Concrete" T1)
           (sampleMaterial "Roof" "07" "Thermal and Moisture Protection" T2)
           (sampleMaterial "Membrane" "07" "Thermal and Moisture Protection" T1)
           (sampleMaterial "Sprinkler" "21" "Fire Suppression" T1)
           eq_refl eq_refl eq_refl eq_refl).
Defined.

(** ** C1: parity of the two renderers *)


(** ** The outline of the markdown report *)

Lemma outlineFrom_app (o : Outline) (l1 l2 : list Piece) :
  outlineFrom o (l1 ++ l2) = outlineFrom (outlineFrom o l2) l1.
Proof. apply fold_right_app. Qed.

Lemma outlineFrom_quiet (o : Outline) (l : list Piece) :
  Forall (fun p => quiet p = true) l -> outlineFrom o l = o.
Proof.
  induction 1 as [|p l Hp _ IH]; [reflexivity|].
  unfold outlineFrom in *. simpl. rewrite IH.
  unfold step. unfold quiet in Hp. now destruct (eventOf p).
Qed.

Lemma mdPieces_app (r1 r2 : list Chunk) : mdPieces (r1 ++ r2) = mdPieces r1 ++ mdPieces r2.
Proof. apply map_app. Qed.

Lemma outlineFrom_quietChunks (o : Outline) (r : list Chunk) :
  Forall quietChunk r -> outlineFrom o (mdPieces r) = o.
Proof.
  intros H. apply outlineFrom_quiet. unfold mdPieces.
  apply Forall_map. exact H.
Qed.

Lemma Forall_concat_map {A B : Type} (P : B -> Prop) (f : A -> list B) (l : list A) :
  (forall x, Forall P (f x)) -> Forall P (List.concat (List.map f l)).
Proof.
  intros H. induction l as [|x l IH]; simpl; [constructor|].
  apply Forall_app. split; [apply H | exact IH].
Qed.

Lemma Forall_concat_mapiFrom {A B : Type} (P : B -> Prop) (f : A -> nat -> list B)
    (l : list A) (i : nat) :
  (forall x j, Forall P (f x j)) -> Forall P (List.concat (mapiFrom i f l)).
Proof.
  intros H. revert i. induction l as [|x l IH]; intros i; simpl; [constructor|].
  apply Forall_app. split; [apply H | apply IH].
Qed.

(** Decomposes a goal [Forall P chunks] along the way the chunks were
    appended; a leaf is a test of [P] on one emitted chunk. *)
Ltac chunks_all :=
  unfold emit;
  repeat first
    [ apply Forall_nil
    | apply Forall_app; split
    | apply Forall_cons; [reflexivity|]
    | apply Forall_concat_map; intros
    | apply Forall_concat_mapiFrom; intros
    | match goal with
      | |- Forall _ (if ?b then _ else _) => destruct b
      | |- Forall _ (match ?x with _ => _ end) => destruct x
      end ].

Lemma generateMaterialSection_outline (m : Material) (s alt code : bool) (o : Outline) :
  outlineFrom o (mdPieces (generateMaterialSection m s alt code)) = pushMat m o.
Proof.
  unfold generateMaterialSection.
  rewrite mdPieces_app, outlineFrom_app, mdPieces_app, outlineFrom_app.
  rewrite (outlineFrom_quietChunks o); [reflexivity|].
  unfold mapi. chunks_all.
Qed.

Lemma materialSections_outline (sec : Material -> list Chunk) (ms : list Material)
    (o : Outline) :
  (forall m o', outlineFrom o' (mdPieces (sec m)) = pushMat m o') ->
  outlineFrom o (mdPieces (List.concat (List.map sec ms)))
  = {| pending := ms ++ pending o; blocks := blocks o; divisions := divisions o |}.
Proof.
  intros Hsec. induction ms as [|m ms IH]; simpl.
  - now destruct o.
  - rewrite mdPieces_app, outlineFrom_app, IH, Hsec. reflexivity.
Qed.

Lemma mdTierBlock_outline (a : Analysis) (t : Tier) (b : list Material) (o : Outline) :
  pending o = [] ->
  outlineFrom o (mdPieces (mdTierBlock a t b))
  = {| pending := []; blocks := tierBlock t b ++ blocks o; divisions := divisions o |}.
Proof.
  intros Hp. unfold mdTierBlock, tierBlock.
  destruct (ofTier t b) as [|m l] eqn:E.
  - destruct o; simpl in *; now subst.
  - cbv beta iota.
    rewrite mdPieces_app, outlineFrom_app.
    rewrite materialSections_outline
      by (intros; apply generateMaterialSection_outline).
    rewrite Hp, app_nil_r. reflexivity.
Qed.

Lemma mdDivision_outline (a : Analysis) (k : string) (b : list Material) (o : Outline) :
  pending o = [] -> blocks o = [] ->
  outlineFrom o (mdPieces (mdDivision a k b)) = closeDivision k
    {| pending := []; blocks := tierBlocks b; divisions := divisions o |}.
Proof.
  intros Hp Hb. unfold mdDivision.
  rewrite mdPieces_app, outlineFrom_app.
  rewrite mdPieces_app, outlineFrom_app.
  rewrite mdPieces_app, outlineFrom_app.
  rewrite mdPieces_app, outlineFrom_app.
  rewrite (outlineFrom_quietChunks o (emit Separator nl)) by chunks_all.
  rewrite (mdTierBlock_outline a T3) by exact Hp.
  rewrite (mdTierBlock_outline a T2) by reflexivity.
  rewrite (mdTierBlock_outline a T1) by reflexivity.
  simpl. rewrite Hb, app_nil_r. reflexivity.
Qed.

Lemma mdDivisions_outline (a : Analysis) (g : Groups) (o : Outline) :
  pending o = [] -> blocks o = [] ->
  outlineFrom o
    (mdPieces (List.concat (List.map (fun kb => mdDivision a (fst kb) (snd kb)) g)))
  = {| pending := []; blocks := [];
       divisions := List.map (fun kb => (fst kb, tierBlocks (snd kb))) g ++ divisions o |}.
Proof.
  intros Hp Hb. induction g as [|[k b] g IH]; cbn [List.map List.concat fst snd].
  - destruct o; simpl in *; now subst.
  - rewrite mdPieces_app, outlineFrom_app, IH.
    rewrite mdDivision_outline by reflexivity. reflexivity.
Qed.

Lemma tierBlocks_sort (b : list Material) :
  tierBlocks (sort compareTiers b) = tierBlocks b.
Proof. unfold tierBlocks, tierBlock. now rewrite !ofTier_sort. Qed.

(** The materials body of the markdown report: one division per key, in
    sorted key order; under each, the tier-1, tier-2 and tier-3 materials
    of that division in input order. *)
Lemma markdown_outline (host : Host) (a : Analysis) :
  outline (mdPieces (generateMarkdownChunks host a))
  = {| pending := []; blocks := [];
       divisions := List.map (fun k => (k, tierBlocks (inDivision k (materials a))))
                             (divisionKeys (materials a)) |}.
Proof.
  unfold outline, generateMarkdownChunks, renderMarkdown.
  do 5 rewrite mdPieces_app, outlineFrom_app.
  match goal with
  | |- context [outlineFrom emptyOutline (mdPieces ?r)] =>
      rewrite (outlineFrom_quietChunks emptyOutline r)
  end.
  - unfold mdDivisions. rewrite mdDivisions_outline by reflexivity.
    rewrite (outlineFrom_quietChunks _ (mdSummary a)) by (unfold mdSummary; chunks_all).
    rewrite (outlineFrom_quietChunks _ (mdLocation a)) by (unfold mdLocation; chunks_all).
    rewrite (outlineFrom_quietChunks _ (mdBrief a)) by (unfold mdBrief; chunks_all).
    rewrite (outlineFrom_quietChunks _ (mdHeader host a)) by (unfold mdHeader; chunks_all).
    rewrite grouping_spec, map_map. simpl. rewrite app_nil_r.
    f_equal. apply map_ext. intros k. now rewrite tierBlocks_sort.
  - unfold mdSummaryByTier, mdCompliance, mdRecommendations, mdConsultants, mdSuppliers,
      mdTierSummary, mdConsultantsTier, mdSuppliersTier, mdNationalSuppliers.
    chunks_all.
Qed.

(** ** The pieces the document writer draws *)

Lemma pdfPieces_app (o1 o2 : list Op) : pdfPieces (o1 ++ o2) = pdfPieces o1 ++ pdfPieces o2.
Proof. apply flat_map_app. Qed.

Lemma opsOf_bind {A B : Type} (m : Pdf A) (f : A -> Pdf B) (c : Cursor) :
  opsOf (bind m f) c = opsOf m c ++ opsOf (f (valueOf m c)) (cursorOf m c).
Proof.
  unfold opsOf, bind, valueOf, cursorOf.
  destruct (m c) as [[a c1] o1]. simpl.
  destruct (f a c1) as [[b c2] o2]. reflexivity.
Qed.

Lemma piecesOf_bind {A B : Type} (m : Pdf A) (f : A -> Pdf B) (c : Cursor) :
  piecesOf (bind m f) c = piecesOf m c ++ piecesOf (f (valueOf m c)) (cursorOf m c).
Proof. unfold piecesOf. now rewrite opsOf_bind, pdfPieces_app. Qed.

Section Emits.
Context {P : Piece -> Prop}.

Lemma emits_ret {A : Type} (a : A) : emits P (ret a).
Proof. intros c. constructor. Qed.

Lemma emits_bind {A B : Type} (m : Pdf A) (f : A -> Pdf B) :
  emits P m -> (forall a, emits P (f a)) -> emits P (bind m f).
Proof.
  intros Hm Hf c. rewrite piecesOf_bind. apply Forall_app. split; [apply Hm | apply Hf].
Qed.

Lemma emits_getCursor : emits P getCursor.
Proof. intros c. constructor. Qed.

Lemma emits_setY (y : Q) : emits P (setY y).
Proof. intros c. constructor. Qed.

Lemma emits_advance (dy : Q) : emits P (advance dy).
Proof. intros c. constructor. Qed.

Lemma emits_setFontSize (s : Q) : emits P (setFontSize s).
Proof. intros c. constructor. Qed.

Lemma emits_setFont (b : bool) : emits P (setFont b).
Proof. intros c. constructor. Qed.

Lemma emits_setTextColor (rgb : nat * nat * nat) : emits P (setTextColor rgb).
Proof. intros c. constructor. Qed.

Lemma emits_addPage : emits P addPage.
Proof. intros c. constructor. Qed.

Lemma emits_draw (o : Op) : Forall P (opPieces o) -> emits P (draw o).
Proof. intros H c. unfold piecesOf, opsOf, draw. simpl. now rewrite app_nil_r. Qed.

Lemma emits_docText (tg : Tag) (r : Role) (s : string) (x : Q) :
  P (tg, r) -> emits P (docText tg r s x).
Proof. intros H c. constructor; [exact H | constructor]. Qed.

Lemma emits_when (b : bool) (m : Pdf unit) : emits P m -> emits P (when b m).
Proof. intros H. destruct b; [exact H | apply emits_ret]. Qed.

Lemma emits_forEachFrom {A : Type} (f : A -> nat -> Pdf unit) (l : list A) (i : nat) :
  (forall x j, emits P (f x j)) -> emits P (forEachFrom i f l).
Proof.
  intros H. revert i. induction l as [|x l IH]; intros i; simpl.
  - apply emits_ret.
  - apply emits_bind; [apply H | intros _; apply IH].
Qed.

Lemma emits_forEach {A : Type} (l : list A) (f : A -> nat -> Pdf unit) :
  (forall x j, emits P (f x j)) -> emits P (forEach l f).
Proof. apply emits_forEachFrom. Qed.
End Emits.

(** Decomposes a goal [emits P program] along the program; a leaf is a
    test of [P] on one drawn piece. *)
Ltac emits_core :=
  repeat match goal with
    | |- emits _ (ret _) => apply emits_ret
    | |- emits _ getCursor => apply emits_getCursor
    | |- emits _ (setY _) => apply emits_setY
    | |- emits _ (advance _) => apply emits_advance
    | |- emits _ (setFontSize _) => apply emits_setFontSize
    | |- emits _ (setFont _) => apply emits_setFont
    | |- emits _ (setTextColor _) => apply emits_setTextColor
    | |- emits _ addPage => apply emits_addPage
    | |- emits _ (docText _ _ _ _) => apply emits_docText
    | |- emits _ (draw _) => apply emits_draw; simpl opPieces
    | |- emits _ (when _ _) => apply emits_when
    | |- emits _ (forEach _ _) => apply emits_forEach; intros
    | |- emits _ (bind _ _) => apply emits_bind; [| intros]
    | |- emits _ (let _ := _ in _) => cbv zeta
    | |- emits _ (if ?b then _ else _) => destruct b
    | |- emits _ (match ?x with _ => _ end) => destruct x
    | |- Forall _ [] => constructor
    end.

Section WriterFacts.
Variable pdf : JsPDF.
Context {P : Piece -> Prop}.

Lemma emits_checkNewPage (h : Q) : emits P (checkNewPage pdf h).
Proof. unfold checkNewPage. emits_core. Qed.

Lemma emits_addSpacing (mm : Q) : emits P (addSpacing pdf mm).
Proof. unfold addSpacing. emits_core. apply emits_checkNewPage. Qed.

Lemma emits_addText (tg : Tag) (s : string) (sz : Q) (b : bool) (rgb : nat * nat * nat) :
  P (tg, Line) -> emits P (addText pdf tg s sz b rgb).
Proof.
  intros H. unfold addText. emits_core; try apply emits_checkNewPage; exact H.
Qed.

Lemma emits_addLabelValue (tg : Tag) (label value : string) (sz : Q) :
  P (tg, Label) -> P (tg, Value) -> emits P (addLabelValue pdf tg label value sz).
Proof.
  intros H1 H2. unfold addLabelValue.
  emits_core; try apply emits_checkNewPage; assumption.
Qed.

Lemma emits_addBullet (tg : Tag) (s : string) (sz indent : Q) :
  P (tg, Bullet) -> emits P (addBullet pdf tg s sz indent).
Proof.
  intros H. unfold addBullet. emits_core; try apply emits_checkNewPage; exact H.
Qed.

Lemma emits_addNameLines (tg : Tag) (s : string) :
  P (tg, Line) -> emits P (addNameLines pdf tg s).
Proof.
  intros H. unfold addNameLines. emits_core; try apply emits_checkNewPage; exact H.
Qed.

Lemma emits_addWrappedField (tg : Tag) (label value : string) (indent : Q) :
  P (tg, Label) -> P (tg, Value) -> emits P (addWrappedField pdf tg label value indent).
Proof.
  intros H1 H2. unfold addWrappedField.
  emits_core; try apply emits_checkNewPage; assumption.
Qed.

Lemma emits_addPlainField (tg : Tag) (label value : string) (indent : Q) :
  P (tg, Label) -> P (tg, Value) -> emits P (addPlainField pdf tg label value indent).
Proof.
  intros H1 H2. unfold addPlainField.
  emits_core; try apply emits_checkNewPage; assumption.
Qed.
End WriterFacts.

(** [emits_core] extended with the helpers of the writer. *)
Ltac emits_all :=
  repeat first
    [ progress emits_core
    | match goal with
      | |- emits _ (checkNewPage _ _) => apply emits_checkNewPage
      | |- emits _ (addSpacing _ _) => apply emits_addSpacing
      | |- emits _ (addText _ _ _ _ _ _) => apply emits_addText
      | |- emits _ (addLabelValue _ _ _ _ _) => apply emits_addLabelValue
      | |- emits _ (addBullet _ _ _ _ _) => apply emits_addBullet
      | |- emits _ (addNameLines _ _ _) => apply emits_addNameLines
      | |- emits _ (addWrappedField _ _ _ _ _) => apply emits_addWrappedField
      | |- emits _ (addPlainField _ _ _ _ _) => apply emits_addPlainField
      end ].

(** ** The outline of the paginated document *)

Lemma piecesOf_silent {A : Type} (m : Pdf A) (c : Cursor) :
  emits (fun _ => False) m -> piecesOf m c = [].
Proof.
  intros H. specialize (H c). destruct (piecesOf m c) as [|p l]; [reflexivity|].
  inversion H; contradiction.
Qed.

Lemma outlineFrom_bind {A B : Type} (m : Pdf A) (f : A -> Pdf B) (c : Cursor) (o : Outline) :
  outlineFrom o (piecesOf (bind m f) c)
  = outlineFrom (outlineFrom o (piecesOf (f (valueOf m c)) (cursorOf m c))) (piecesOf m c).
Proof. now rewrite piecesOf_bind, outlineFrom_app. Qed.

Lemma outlineFrom_emits_quiet {A : Type} (m : Pdf A) (c : Cursor) (o : Outline) :
  emits quietPiece m -> outlineFrom o (piecesOf m c) = o.
Proof. intros H. apply outlineFrom_quiet, H. Qed.

Lemma outlineFrom_quiet_bind {A B : Type} (m : Pdf A) (f : A -> Pdf B) (c : Cursor)
    (o : Outline) :
  emits quietPiece m ->
  outlineFrom o (piecesOf (bind m f) c)
  = outlineFrom o (piecesOf (f (valueOf m c)) (cursorOf m c)).
Proof.
  intros H. rewrite outlineFrom_bind.
  now rewrite (outlineFrom_emits_quiet m c).
Qed.

Lemma outlineFrom_forEachFrom {A : Type} (f : A -> nat -> Pdf unit)
    (h : A -> Outline -> Outline) (l : list A) :
  (forall x j c o, outlineFrom o (piecesOf (f x j) c) = h x o) ->
  forall i c o, outlineFrom o (piecesOf (forEachFrom i f l) c) = fold_right h o l.
Proof.
  intros H. induction l as [|x l IH]; intros i c o; simpl.
  - reflexivity.
  - now rewrite outlineFrom_bind, IH, H.
Qed.

Lemma fold_pushMat (ms : list Material) (o : Outline) :
  fold_right pushMat o ms
  = {| pending := ms ++ pending o; blocks := blocks o; divisions := divisions o |}.
Proof.
  induction ms as [|m ms IH]; simpl.
  - now destruct o.
  - now rewrite IH.
Qed.

(** Peels the quiet head of a sequence off an [outlineFrom] goal. *)
Ltac skip_quiet :=
  rewrite outlineFrom_quiet_bind by (emits_all; reflexivity); cbv beta.

(** Peels a head that draws no piece off a [piecesOf] goal. *)
Ltac skip_silent :=
  rewrite piecesOf_bind;
  match goal with
  | |- context [piecesOf ?m ?c ++ _] =>
      rewrite (piecesOf_silent m c) by (emits_all; contradiction)
  end;
  cbn [app]; cbv beta.

Section PaginatedFacts.
Variable host : Host.
Variable pdf : JsPDF.

Lemma forEach_lines_pieces (tg : Tag) (r : Role) (body : string -> nat -> Pdf unit)
    (lines : list string) :
  (forall line j c, piecesOf (body line j) c = [(tg, r)]) ->
  forall i c, piecesOf (forEachFrom i body lines) c = repeat (tg, r) (List.length lines).
Proof.
  intros H. induction lines as [|x l IH]; intros i c; simpl.
  - reflexivity.
  - now rewrite piecesOf_bind, H, IH.
Qed.

(** [addText] draws the wrapped lines of its text and nothing else. *)
Lemma addText_pieces (tg : Tag) (s : string) (sz : Q) (b : bool) (rgb : nat * nat * nat)
    (c : Cursor) :
  exists lines f w,
    lines = splitTextToSize pdf f s w
    /\ piecesOf (addText pdf tg s sz b rgb) c = repeat (tg, Line) (List.length lines).
Proof.
  unfold addText.
  do 3 skip_silent.
  match goal with
  | |- context [piecesOf (bind getCursor ?k) ?c'] =>
      exists (splitTextToSize pdf (font c') s (contentWidth pdf)),
             (font c'), (contentWidth pdf)
  end.
  split; [reflexivity|].
  skip_silent. rewrite piecesOf_bind.
  unfold forEach. rewrite (forEach_lines_pieces tg Line).
  - apply app_nil_r.
  - intros line j c'. skip_silent. reflexivity.
Qed.

(** [addLabelValue] draws the label once, then only value pieces. *)
Lemma addLabelValue_pieces (tg : Tag) (label value : string) (sz : Q) (c : Cursor) :
  exists vs,
    piecesOf (addLabelValue pdf tg label value sz) c = (tg, Label) :: vs
    /\ Forall (fun p => p = (tg, Value)) vs.
Proof.
  unfold addLabelValue.
  do 5 skip_silent.
  rewrite piecesOf_bind.
  eexists. split; [reflexivity|].
  match goal with
  | |- Forall _ (piecesOf ?m ?c') =>
      assert (H : emits (fun p => p = (tg, Value)) m) by (emits_all; reflexivity);
      apply H
  end.
Qed.

Lemma addLabelValue_anchor (a : Analysis) (m : Material) (label value : string) (sz : Q)
    (c : Cursor) (o : Outline) :
  outlineFrom o (piecesOf (addLabelValue pdf (MaterialPart m FCsiDivision) label value sz) c)
  = pushMat m o.
Proof.
  destruct (addLabelValue_pieces (MaterialPart m FCsiDivision) label value sz c)
    as [vs [E Hvs]].
  rewrite E. unfold outlineFrom. cbn [fold_right].
  fold (outlineFrom o vs). rewrite outlineFrom_quiet; [reflexivity|].
  eapply Forall_impl; [|exact Hvs]. intros p ->. reflexivity.
Qed.

Lemma addMaterialCard_outline (a : Analysis) (m : Material) (t : Tier) (c : Cursor)
    (o : Outline) :
  outlineFrom o (piecesOf (addMaterialCard pdf a m t) c) = pushMat m o.
Proof.
  unfold addMaterialCard.
  do 8 skip_quiet.
  rewrite outlineFrom_bind, (addLabelValue_anchor a). f_equal.
  apply outlineFrom_emits_quiet. emits_all; reflexivity.
Qed.
End PaginatedFacts.

Lemma closeBlock_idem (t : Tier) (o : Outline) :
  closeBlock t (closeBlock t o) = closeBlock t o.
Proof. unfold closeBlock. destruct (pending o) eqn:E; simpl; now rewrite ?E. Qed.

Lemma outlineFrom_heading (t : Tier) (r : Role) (n : nat) (o : Outline) :
  n <> 0 -> outlineFrom o (repeat (TierHeading t, r) n) = closeBlock t o.
Proof.
  intros Hn. destruct n as [|n]; [contradiction|]. clear Hn.
  induction n as [|n IH].
  - reflexivity.
  - change (repeat (TierHeading t, r) (S (S n)))
      with ((TierHeading t, r) :: repeat (TierHeading t, r) (S n)).
    unfold outlineFrom in *. cbn [fold_right]. rewrite IH.
    unfold step. cbn [eventOf]. apply closeBlock_idem.
Qed.

Section PaginatedOutline.
Variable host : Host.
Variable pdf : JsPDF.
Hypothesis pdf_wraps : wraps pdf.

Lemma pdfCards_outline (a : Analysis) (t : Tier) (c : Cursor) (o : Outline) :
  pending o = [] ->
  outlineFrom o (piecesOf (pdfCards pdf a t) c)
  = {| pending := [];
       blocks := tierBlock t (materials a) ++ blocks o;
       divisions := divisions o |}.
Proof.
  intros Hp. unfold pdfCards, tierBlock.
  destruct (ofTier t (materials a)) as [|m l] eqn:E.
  - destruct o; simpl in *; now subst.
  - skip_quiet. rewrite outlineFrom_bind. cbv beta. skip_quiet.
    unfold forEach.
    rewrite (outlineFrom_forEachFrom _ pushMat).
    + rewrite fold_pushMat, Hp, app_nil_r.
      match goal with
      | |- context [piecesOf (addText pdf ?tg ?s ?sz ?b ?rgb) ?c'] =>
          destruct (addText_pieces pdf tg s sz b rgb c') as [lines [f [w [El Ep]]]];
          rewrite Ep
      end.
      rewrite outlineFrom_heading; [reflexivity|].
      rewrite El. intros H. apply length_zero_iff_nil in H.
      now apply (pdf_wraps f (cardsTitle t) w).
    + intros x j c' o'. skip_quiet. apply addMaterialCard_outline.
Qed.

(** The materials body of the paginated document: all tier-1 materials,
    then all tier-2, then all tier-3, each in input order, under no
    division heading. *)
Lemma paginated_outline (a : Analysis) :
  outline (pdfPieces (buildPDFDocument host pdf a))
  = {| pending := []; blocks := tierBlocks (materials a); divisions := [] |}.
Proof.
  unfold outline, buildPDFDocument.
  change (pdfPieces (opsOf (pdfProgram host pdf a) (newDocument)))
    with (piecesOf (pdfProgram host pdf a) newDocument).
  unfold pdfProgram.
  rewrite outlineFrom_quiet_bind by (unfold pdfTitle; emits_all; reflexivity). cbv beta.
  rewrite outlineFrom_quiet_bind
    by (unfold pdfThumbnail; emits_all; try destruct (fitImage _); emits_all; reflexivity).
  cbv beta.
  rewrite outlineFrom_quiet_bind by (unfold pdfLocation; emits_all; reflexivity). cbv beta.
  rewrite outlineFrom_quiet_bind by (unfold pdfDate; emits_all; reflexivity). cbv beta.
  rewrite outlineFrom_quiet_bind
    by (unfold pdfBrief, pdfIntentLine; emits_all; reflexivity).
  cbv beta.
  rewrite outlineFrom_quiet_bind
    by (unfold pdfSummary, pdfSummaryTier; emits_all; reflexivity).
  cbv beta.
  do 3 (rewrite outlineFrom_bind; cbv beta).
  rewrite (outlineFrom_emits_quiet _ _ emptyOutline).
  - rewrite (pdfCards_outline a T3) by reflexivity.
    rewrite (pdfCards_outline a T2) by reflexivity.
    rewrite (pdfCards_outline a T1) by reflexivity.
    simpl. rewrite app_nil_r. reflexivity.
  - unfold pdfConsultants, pdfConsultantsTier, pdfSuppliers, pdfSuppliersTier,
      pdfNationalSuppliers, pdfFooter, addConsultantCard, addSupplierCard.
    emits_all; reflexivity.
Qed.
End PaginatedOutline.

(** ** Both outlines hold every material once *)

Lemma flat_map_flat_map {A B C : Type} (f : B -> list C) (g : A -> list B) (l : list A) :
  flat_map f (flat_map g l) = flat_map (fun x => flat_map f (g x)) l.
Proof.
  induction l as [|x l IH]; simpl; [reflexivity|].
  now rewrite flat_map_app, IH.
Qed.

Lemma Permutation_flat_map_pointwise {A B : Type} (f g : A -> list B) (l : list A) :
  (forall x, Permutation (f x) (g x)) -> Permutation (flat_map f l) (flat_map g l).
Proof.
  intros H. induction l as [|x l IH]; simpl; [constructor|].
  now apply Permutation_app.
Qed.

Lemma blockTriples_ofTier (t : Tier) (ms : list Material) :
  flat_map blockTriples (tierBlock t ms) = List.map tripleOf (ofTier t ms).
Proof.
  assert (H : List.map (fun m => (divisionKey m, t, name m)) (ofTier t ms)
              = List.map tripleOf (ofTier t ms)).
  { apply map_ext_in. intros x Hx. unfold tripleOf.
    apply filter_In in Hx. destruct Hx as [_ Ht].
    unfold hasTier in Ht. destruct (tier x), t; simpl in Ht; congruence. }
  rewrite <- H. unfold tierBlock.
  destruct (ofTier t ms) as [|m l]; [reflexivity|].
  cbn [flat_map]. rewrite app_nil_r. reflexivity.
Qed.

Lemma blockTriples_tierBlocks (ms : list Material) :
  flat_map blockTriples (tierBlocks ms) = List.map tripleOf (byTier ms).
Proof.
  unfold tierBlocks, byTier.
  now rewrite !flat_map_app, !blockTriples_ofTier, !map_app.
Qed.

Lemma materials_tierBlocks (ms : list Material) :
  flat_map snd (tierBlocks ms) = byTier ms.
Proof.
  unfold tierBlocks, byTier, tierBlock. rewrite !flat_map_app.
  destruct (ofTier T1 ms), (ofTier T2 ms), (ofTier T3 ms); simpl;
    rewrite ?app_nil_r; reflexivity.
Qed.

Lemma byTier_perm (ms : list Material) : Permutation (byTier ms) ms.
Proof.
  unfold byTier, ofTier. induction ms as [|m ms IH]; [constructor|].
  cbn [filter]. unfold hasTier in *. destruct (tier m); cbn [tierEqb app].
  - now apply perm_skip.
  - apply Permutation_sym, Permutation_cons_app, Permutation_sym, IH.
  - rewrite app_assoc. apply Permutation_sym, Permutation_cons_app.
    rewrite <- app_assoc. apply Permutation_sym, IH.
Qed.

Lemma flat_map_nil {A B : Type} (l : list A) : flat_map (fun _ : A => @nil B) l = [].
Proof. induction l; simpl; auto. Qed.

Lemma inDivision_cons_other (m : Material) (ms : list Material) (D : list string) :
  ~ In (divisionKey m) D ->
  flat_map (fun k => inDivision k (m :: ms)) D = flat_map (fun k => inDivision k ms) D.
Proof.
  intros H. induction D as [|d D IH]; [reflexivity|]. cbn [flat_map].
  rewrite IH by (intros Hin; apply H; now right). f_equal.
  unfold inDivision, hasKey. cbn [filter].
  destruct (String.eqb_spec (divisionKey m) d) as [E|E]; [|reflexivity].
  exfalso. apply H. now left.
Qed.

Lemma inDivision_cons_perm (m : Material) (ms : list Material) (D : list string) :
  NoDup D -> In (divisionKey m) D ->
  Permutation (flat_map (fun k => inDivision k (m :: ms)) D)
              (m :: flat_map (fun k => inDivision k ms) D).
Proof.
  induction D as [|d D IH]; intros Hnd Hin; [contradiction|].
  inversion Hnd as [|? ? Hd HD]; subst. cbn [flat_map].
  unfold inDivision at 1. unfold hasKey. cbn [filter].
  destruct (String.eqb_spec (divisionKey m) d) as [E|E].
  - subst d. rewrite inDivision_cons_other by exact Hd. apply Permutation_refl.
  - destruct Hin as [Hin|Hin]; [congruence|].
    eapply perm_trans; [apply Permutation_app_head, (IH HD Hin)|].
    apply Permutation_sym, Permutation_middle.
Qed.

(** The buckets of a duplicate-free list of keys that covers the input
    hold every material once. *)
Lemma inDivision_partition (ms : list Material) (D : list string) :
  NoDup D -> (forall m, In m ms -> In (divisionKey m) D) ->
  Permutation (flat_map (fun k => inDivision k ms) D) ms.
Proof.
  intros Hnd. induction ms as [|m ms IH]; intros Hcover.
  - unfold inDivision. simpl. rewrite flat_map_nil. constructor.
  - eapply perm_trans.
    + apply inDivision_cons_perm; [exact Hnd | apply Hcover; now left].
    + apply perm_skip, IH. intros x Hx. apply Hcover. now right.
Qed.

Lemma NoDup_divisionKeys (ms : list Material) : NoDup (divisionKeys ms).
Proof.
  rewrite divisionKeys_spec.
  eapply Permutation_NoDup; [apply Permutation_sym, sort_perm|].
  apply (NoDup_dedup _ string_eqb_spec).
Qed.

Lemma divisionKeys_cover (ms : list Material) (m : Material) :
  In m ms -> In (divisionKey m) (divisionKeys ms).
Proof.
  intros H. apply In_divisionKeys. unfold encounteredKeys.
  apply (In_dedup _ string_eqb_spec). now apply in_map.
Qed.

Lemma byDivision_perm (ms : list Material) : Permutation (byDivision ms) ms.
Proof.
  unfold byDivision.
  eapply perm_trans.
  - apply Permutation_flat_map_pointwise. intros k. apply byTier_perm.
  - apply inDivision_partition; [apply NoDup_divisionKeys|].
    intros m. apply divisionKeys_cover.
Qed.

Lemma flat_map_snd_map {A B : Type} (g : A -> list B) (l : list A) :
  flat_map snd (List.map (fun k => (k, g k)) l) = flat_map g l.
Proof. induction l as [|x l IH]; simpl; [reflexivity|]. now rewrite IH. Qed.

Lemma map_flat_map {A B C : Type} (f : B -> C) (g : A -> list B) (l : list A) :
  List.map f (flat_map g l) = flat_map (fun x => List.map f (g x)) l.
Proof.
  induction l as [|x l IH]; simpl; [reflexivity|].
  now rewrite map_app, IH.
Qed.

Lemma flat_map_pointwise {A B : Type} (f g : A -> list B) (l : list A) :
  (forall x, f x = g x) -> flat_map f l = flat_map g l.
Proof.
  intros H. induction l as [|x l IH]; simpl; [reflexivity|].
  now rewrite H, IH.
Qed.

Lemma markdownTriples_spec (host : Host) (a : Analysis) :
  markdownTriples host a = List.map tripleOf (byDivision (materials a)).
Proof.
  unfold markdownTriples, triples. rewrite markdown_outline.
  unfold outlineTriples, byDivision. cbn [blocks divisions app].
  rewrite flat_map_snd_map, flat_map_flat_map, map_flat_map.
  apply flat_map_pointwise. intros k. apply blockTriples_tierBlocks.
Qed.

Lemma paginatedTriples_spec (host : Host) (pdf : JsPDF) (a : Analysis) :
  wraps pdf -> paginatedTriples host pdf a = List.map tripleOf (byTier (materials a)).
Proof.
  intros Hw. unfold paginatedTriples, triples. rewrite paginated_outline by exact Hw.
  unfold outlineTriples. simpl. rewrite app_nil_r. apply blockTriples_tierBlocks.
Qed.

Lemma filter_all {A : Type} (p : A -> bool) (l : list A) :
  (forall x, In x l -> p x = true) -> filter p l = l.
Proof.
  induction l as [|x l IH]; intros H; [reflexivity|]. simpl.
  rewrite (H x) by now left. f_equal. apply IH. intros y Hy. apply H. now right.
Qed.

Lemma NoDup_constant {A : Type} (k : A) (l : list A) :
  NoDup l -> (forall x, In x l -> x = k) -> l = [] \/ l = [k].
Proof.
  intros Hnd Hall. destruct l as [|x [|y l]].
  - now left.
  - right. f_equal. apply Hall. now left.
  - exfalso. inversion Hnd as [|? ? Hx _]; subst. apply Hx.
    rewrite (Hall x) by now left. rewrite (Hall y) by (right; now left). now left.
Qed.

(** With a single division the division-major and tier-major orders agree. *)
Lemma byDivision_single (k : string) (ms : list Material) :
  (forall m, In m ms -> divisionKey m = k) -> byDivision ms = byTier ms.
Proof.
  intros Hk. destruct ms as [|m0 ms0] eqn:Ems; [reflexivity|]. rewrite <- Ems in *.
  assert (HD : encounteredKeys ms = [k]).
  { destruct (NoDup_constant k (encounteredKeys ms)) as [E|E].
    - apply (NoDup_dedup _ string_eqb_spec).
    - intros x Hx. unfold encounteredKeys in Hx.
      apply (proj1 (In_dedup _ string_eqb_spec _ _)) in Hx.
      apply in_map_iff in Hx. destruct Hx as [m [<- Hm]]. now apply Hk.
    - exfalso. assert (Hin : In (divisionKey m0) (encounteredKeys ms)).
      { unfold encounteredKeys. apply (proj2 (In_dedup _ string_eqb_spec _ _)).
        apply in_map. rewrite Ems. now left. }
      rewrite E in Hin. contradiction.
    - exact E. }
  unfold byDivision. rewrite divisionKeys_spec, HD. cbn [sort insertSorted flat_map].
  rewrite app_nil_r. f_equal. unfold inDivision. apply filter_all.
  intros m Hm. unfold hasKey. rewrite (Hk m Hm). apply String.eqb_refl.
Qed.


Lemma plainPDF_wraps : wraps plainPDF.
Proof. intros f s w. discriminate. Qed.


(** ** C3: tier order inside a division *)

Lemma map_tier_ofTier (t : Tier) (b : list Material) :
  List.map tier (ofTier t b) = filter (isTier t) (List.map tier b).
Proof.
  unfold ofTier. induction b as [|m b IH]; [reflexivity|].
  cbn [List.map filter]. unfold hasTier at 1, isTier at 1.
  destruct (tierEqb (tier m) t); cbn [List.map]; now rewrite IH.
Qed.


(** ** C10: the grouping is a partition *)

Lemma startsWith_app (p s : string) : Str.startsWith p (p +++ s) = true.
Proof.
  induction p as [|c p IH]; simpl; [reflexivity|].
  now rewrite Ascii.eqb_refl, IH.
Qed.

Lemma splitFirst_unfold (sep s : string) :
  Str.splitFirst sep s
  = if Str.startsWith sep s then Some (EmptyString, Str.drop (String.length sep) s)
    else match s with
         | EmptyString => None
         | String c s' =>
             match Str.splitFirst sep s' with
             | Some (a, b) => Some (String c a, b)
             | None => None
             end
         end.
Proof. destruct s; reflexivity. Qed.

Lemma splitFirst_found (sep a b : string) :
  exists x y, Str.splitFirst sep (a +++ sep +++ b) = Some (x, y).
Proof.
  induction a as [|c a IH].
  - change (EmptyString +++ sep +++ b) with (sep +++ b).
    rewrite splitFirst_unfold, startsWith_app. eauto.
  - change (String c a +++ sep +++ b) with (String c (a +++ sep +++ b)).
    rewrite splitFirst_unfold.
    destruct (Str.startsWith sep (String c (a +++ sep +++ b))); [eauto|].
    destruct IH as [x [y ->]]. eauto.
Qed.

Lemma splitFuel_nonempty (fuel : nat) (sep s : string) : Str.splitFuel fuel sep s <> [].
Proof.
  destruct fuel; simpl; [discriminate|].
  destruct (Str.splitFirst sep s) as [[x y]|]; discriminate.
Qed.

Lemma length_append (a b : string) :
  String.length (a +++ b) = String.length a + String.length b.
Proof. induction a as [|c a IH]; simpl; [reflexivity|]. now rewrite IH. Qed.

Lemma split_two_parts (sep a b : string) :
  sep <> EmptyString -> 2 <= List.length (Str.split sep (a +++ sep +++ b)).
Proof.
  intros Hsep. unfold Str.split.
  destruct (splitFirst_found sep a b) as [x [y E]].
  destruct (String.length (a +++ sep +++ b)) as [|f] eqn:L.
  - rewrite !length_append in L. destruct sep; [contradiction|]. simpl in L. lia.
  - cbn [Str.splitFuel]. rewrite E. cbn [List.length].
    destruct (Str.splitFuel f sep y) eqn:F; [now apply splitFuel_nonempty in F|].
    cbn [List.length]. lia.
Qed.

(** [divisionKey.split(' - ')] has a second part for every material, so
    [csiName.toUpperCase()] in the division heading is always defined. *)
Lemma divisionKey_two_parts (m : Material) :
  2 <= List.length (Str.split " - " (divisionKey m)).
Proof. apply split_two_parts. discriminate. Qed.


(* ================================================================== *)
(** ** Conditional sections *)

Lemma existsb_Forall_false {A : Type} (p : A -> bool) (l : list A) :
  Forall (fun x => p x = false) l -> existsb p l = false.
Proof.
  induction 1 as [|x l Hx _ IH]; [reflexivity|]. simpl. now rewrite Hx, IH.
Qed.

Lemma filter_Forall_false {A : Type} (p : A -> bool) (l : list A) :
  Forall (fun x => p x = false) l -> filter p l = [].
Proof.
  induction 1 as [|x l Hx _ IH]; [reflexivity|]. simpl. now rewrite Hx, IH.
Qed.

Lemma select_app (q : Tag -> bool) (r1 r2 : list Chunk) :
  select q (r1 ++ r2) = select q r1 ++ select q r2.
Proof. apply filter_app. Qed.

Lemma select_none (q : Tag -> bool) (r : list Chunk) :
  Forall (fun ch => q (tagOf ch) = false) r -> select q r = [].
Proof. apply filter_Forall_false. Qed.

Lemma hasPiece_md_app (p : Piece -> bool) (r1 r2 : list Chunk) :
  hasPiece p (mdPieces (r1 ++ r2)) = hasPiece p (mdPieces r1) || hasPiece p (mdPieces r2).
Proof. unfold hasPiece. now rewrite mdPieces_app, existsb_app. Qed.

Lemma hasPiece_md_none (p : Piece -> bool) (r : list Chunk) :
  Forall (fun ch => p (tagOf ch, Line) = false) r -> hasPiece p (mdPieces r) = false.
Proof.
  intros H. apply existsb_Forall_false. unfold mdPieces. apply Forall_map. exact H.
Qed.

(** Unfolds the markdown renderer down to its [emit]s. *)
Ltac md_unfold :=
  unfold mdHeader, mdBrief, mdLocation, mdSummary, mdDivisions, mdDivision, mdTierBlock,
    mdSummaryByTier, mdTierSummary, mdCompliance, mdRecommendations, mdConsultants,
    mdConsultantsTier, mdSuppliers, mdSuppliersTier, mdNationalSuppliers,
    generateMaterialSection, mapi.

(** ** C8: the brief section of the markdown report *)

(** C8, as stated, fails: with an intent and a short raw text, the
    report renders the intent and the raw text, one after the other. *)
Lemma C8_intent_and_text_both_rendered :
  List.map textOf
    (select isBriefTag
       (generateMarkdownChunks plainHost
          (withBrief (sampleAnalysis [] None false false) sampleBrief)))
  = [ "## Project Brief" +++ nl +++ nl;
      "**Project Intent & Constraints:**" +++ nl +++ "Low budget, timber frame." +++ nl +++ nl;
      "**Brief Summary:**" +++ nl +++ "A small house on a slope." +++ nl +++ nl ].
Proof. vm_compute. reflexivity. Qed.

(** C8 (amended): the brief section of the markdown report shows the
    extracted intent when it is present and not empty and, independently
    of the intent, the raw brief text when that is not empty and shorter
    than 500 characters; with both, the intent comes first and the raw
    text follows.  Without a brief there is no brief section. *)
Theorem C8_brief_section (host : Host) (a : Analysis) :
  select isBriefTag (generateMarkdownChunks host a)
  = match brief a with
    | None => []
    | Some b =>
        emit BriefHeading ("## Project Brief" +++ nl +++ nl)
        ++ (if truthy (intent b)
            then emit BriefIntent
                   ("**Project Intent & Constraints:**" +++ nl +++ orEmpty (intent b)
                    +++ nl +++ nl)
            else [])
        ++ (if negb (String.eqb (text b) EmptyString) && (String.length (text b) <? 500)
            then emit BriefSummary ("**Brief Summary:**" +++ nl +++ text b +++ nl +++ nl)
            else [])
    end.
Proof.
  unfold generateMarkdownChunks, renderMarkdown.
  rewrite !select_app.
  rewrite (select_none _ (mdHeader host a)) by (md_unfold; chunks_all).
  rewrite (select_none _ (mdLocation a)) by (md_unfold; chunks_all).
  rewrite (select_none _ (mdSummary a)) by (md_unfold; chunks_all).
  rewrite (select_none _ (mdDivisions a _)) by (md_unfold; chunks_all).
  rewrite (select_none _ (mdSummaryByTier a)) by (md_unfold; chunks_all).
  rewrite (select_none _ (mdCompliance a)) by (md_unfold; chunks_all).
  rewrite (select_none _ (mdRecommendations a)) by (md_unfold; chunks_all).
  rewrite (select_none _ (mdConsultants a)) by (md_unfold; chunks_all).
  rewrite (select_none _ (mdSuppliers a)) by (md_unfold; chunks_all).
  cbn [app]. unfold emit at 1. cbn [select filter tagOf isBriefTag]. rewrite app_nil_r.
  unfold mdBrief. destruct (brief a) as [b|]; [|reflexivity].
  unfold Str.isTruthy.
  destruct (truthy (intent b)),
    (negb (String.eqb (text b) EmptyString) && (String.length (text b) <? 500));
    reflexivity.
Qed.

(** ** C5: the flags switch the optional fields off *)

(** Unfolds the paginated renderer down to the helpers of the writer. *)
Ltac pdf_unfold :=
  unfold pdfProgram, pdfTitle, pdfThumbnail, pdfLocation, pdfDate, pdfBrief, pdfIntentLine,
    pdfSummary, pdfSummaryTier, pdfCards, pdfConsultants, pdfConsultantsTier,
    pdfSuppliers, pdfSuppliersTier, pdfNationalSuppliers, pdfFooter,
    addMaterialCard, addConsultantCard, addSupplierCard.

(** Every piece of the paginated document satisfies [P] when every
    program of the writer emits only such pieces. *)
Lemma buildPDFDocument_Forall (P : Piece -> Prop) (host : Host) (pdf : JsPDF)
    (a : Analysis) :
  emits P (pdfProgram host pdf a) -> Forall P (pdfPieces (buildPDFDocument host pdf a)).
Proof. intros H. apply H. Qed.

Lemma markdown_without_alternatives (host : Host) (a : Analysis) :
  includeAlternatives a = false ->
  hasPiece isAlternativesBlock (mdPieces (generateMarkdownChunks host a)) = false.
Proof.
  intros H. apply hasPiece_md_none.
  destruct a as [imgs ms ts sus alt loc br]. cbn in H. subst alt.
  unfold generateMarkdownChunks, renderMarkdown. md_unfold.
  cbn [includeAlternatives includeSustainability location materials andb].
  chunks_all.
Qed.

Lemma markdown_without_sustainability (host : Host) (a : Analysis) :
  includeSustainability a = false ->
  hasPiece isSustainabilityNotes (mdPieces (generateMarkdownChunks host a)) = false.
Proof.
  intros H. apply hasPiece_md_none.
  destruct a as [imgs ms ts sus alt loc br]. cbn in H. subst sus.
  unfold generateMarkdownChunks, renderMarkdown. md_unfold.
  cbn [includeAlternatives includeSustainability location materials andb].
  chunks_all.
Qed.

Lemma paginated_without_alternatives (host : Host) (pdf : JsPDF) (a : Analysis) :
  includeAlternatives a = false ->
  hasPiece isAlternativesBlock (pdfPieces (buildPDFDocument host pdf a)) = false.
Proof.
  intros H. apply existsb_Forall_false, buildPDFDocument_Forall.
  destruct a as [imgs ms ts sus alt loc br]. cbn in H. subst alt.
  pdf_unfold.
  cbn [includeAlternatives includeSustainability location materials andb when].
  emits_all; try destruct (fitImage _); emits_all; reflexivity.
Qed.

Lemma paginated_without_sustainability (host : Host) (pdf : JsPDF) (a : Analysis) :
  includeSustainability a = false ->
  hasPiece isSustainabilityNotes (pdfPieces (buildPDFDocument host pdf a)) = false.
Proof.
  intros H. apply existsb_Forall_false, buildPDFDocument_Forall.
  destruct a as [imgs ms ts sus alt loc br]. cbn in H. subst sus.
  pdf_unfold.
  cbn [includeAlternatives includeSustainability location materials andb when].
  emits_all; try destruct (fitImage _); emits_all; reflexivity.
Qed.

(** C5: with [includeAlternatives] off no material section or card of
    either output holds a piece of an alternatives block, whatever the
    material's [alternatives] field holds; with [includeSustainability]
    off none holds a sustainability-notes field.  The fields are left
    out; nothing fails. *)
Theorem C5_flags_omit_optional_fields (host : Host) (pdf : JsPDF) (a : Analysis) :
  (includeAlternatives a = false ->
   hasPiece isAlternativesBlock (mdPieces (generateMarkdownChunks host a)) = false
   /\ hasPiece isAlternativesBlock (pdfPieces (buildPDFDocument host pdf a)) = false)
  /\ (includeSustainability a = false ->
      hasPiece isSustainabilityNotes (mdPieces (generateMarkdownChunks host a)) = false
      /\ hasPiece isSustainabilityNotes (pdfPieces (buildPDFDocument host pdf a)) = false).
Proof.
  split; intros H; split.
  - now apply markdown_without_alternatives.
  - now apply paginated_without_alternatives.
  - now apply markdown_without_sustainability.
  - now apply paginated_without_sustainability.
Qed.

(** ** C4: the suppliers appendix and the compliance summary *)

Lemma nonempty_filter_existsb {A : Type} (p : A -> bool) (l : list A) :
  negb (Nat.eqb (List.length (filter p l)) 0) = existsb p l.
Proof.
  induction l as [|x l IH]; [reflexivity|]. simpl.
  destruct (p x); simpl; [reflexivity | exact IH].
Qed.

Lemma existsb_orb {A : Type} (p q : A -> bool) (l : list A) :
  existsb (fun x => p x || q x) l = existsb p l || existsb q l.
Proof.
  induction l as [|x l IH]; [reflexivity|]. simpl. rewrite IH.
  destruct (p x), (q x), (existsb p l), (existsb q l); reflexivity.
Qed.

(** The guard of the source is the condition of the specification. *)
Lemma suppliersShown_expected (a : Analysis) : suppliersShown a = suppliersExpected a.
Proof.
  unfold suppliersShown, suppliersExpected, ofTier.
  now rewrite !nonempty_filter_existsb, existsb_orb.
Qed.

Lemma suppliersShown_location (a : Analysis) :
  location a = None -> suppliersShown a = false.
Proof. intros H. unfold suppliersShown. rewrite H. apply andb_false_r. Qed.

(** Drops a part of the report that holds no piece of the kind at hand. *)
Ltac md_drop part :=
  rewrite (hasPiece_md_none _ part) by (md_unfold; chunks_all).

Section MarkdownSections.
Variable host : Host.
Variable a : Analysis.

Lemma markdown_suppliers_appendix :
  hasPiece isSuppliersAppendix (mdPieces (generateMarkdownChunks host a))
  = suppliersExpected a.
Proof.
  rewrite <- suppliersShown_expected.
  unfold generateMarkdownChunks, renderMarkdown. rewrite !hasPiece_md_app.
  md_drop (mdHeader host a). md_drop (mdBrief a). md_drop (mdLocation a).
  md_drop (mdSummary a). md_drop (mdDivisions a (grouping (materials a))). md_drop (mdSummaryByTier a).
  md_drop (mdCompliance a). md_drop (mdRecommendations a). md_drop (mdConsultants a).
  cbn [orb]. rewrite orb_false_r.
  unfold mdSuppliers. destruct (location a) as [loc|] eqn:L.
  - destruct (suppliersShown a); reflexivity.
  - now rewrite suppliersShown_location.
Qed.

Lemma markdown_supplier_entries :
  suppliersExpected a = false ->
  hasPiece isSupplierEntry (mdPieces (generateMarkdownChunks host a)) = false.
Proof.
  rewrite <- suppliersShown_expected. intros H.
  unfold generateMarkdownChunks, renderMarkdown. rewrite !hasPiece_md_app.
  md_drop (mdHeader host a). md_drop (mdBrief a). md_drop (mdLocation a).
  md_drop (mdSummary a). md_drop (mdDivisions a (grouping (materials a))). md_drop (mdSummaryByTier a).
  md_drop (mdCompliance a). md_drop (mdRecommendations a). md_drop (mdConsultants a).
  unfold mdSuppliers. rewrite H. now destruct (location a).
Qed.

Lemma markdown_compliance_summary :
  hasPiece isComplianceSummary (mdPieces (generateMarkdownChunks host a))
  = isSome (location a).
Proof.
  unfold generateMarkdownChunks, renderMarkdown. rewrite !hasPiece_md_app.
  md_drop (mdHeader host a). md_drop (mdBrief a). md_drop (mdLocation a).
  md_drop (mdSummary a). md_drop (mdDivisions a (grouping (materials a))). md_drop (mdSummaryByTier a).
  md_drop (mdRecommendations a). md_drop (mdConsultants a). md_drop (mdSuppliers a).
  cbn [orb]. rewrite !orb_false_r.
  unfold mdCompliance. now destruct (location a).
Qed.
End MarkdownSections.

Lemma hasPiece_bind {A B : Type} (p : Piece -> bool) (m : Pdf A) (f : A -> Pdf B)
    (c : Cursor) :
  hasPiece p (piecesOf (bind m f) c)
  = hasPiece p (piecesOf m c) || hasPiece p (piecesOf (f (valueOf m c)) (cursorOf m c)).
Proof. unfold hasPiece. now rewrite piecesOf_bind, existsb_app. Qed.

Section PaginatedSections.
Variable host : Host.
Variable pdf : JsPDF.
Variable a : Analysis.

(** Without the guard of the appendix nothing of it is drawn. *)
Lemma pdfSuppliers_hidden (P : Piece -> Prop) :
  suppliersShown a = false -> emits P (pdfSuppliers pdf a).
Proof.
  intros H. unfold pdfSuppliers. rewrite H.
  destruct (location a); apply emits_ret.
Qed.

(** Every part of the document except [pdfSuppliers]. *)
Lemma pdfProgram_emits (P : Piece -> Prop) :
  emits P pdfTitle -> emits P (pdfThumbnail pdf a) -> emits P (pdfLocation pdf a) ->
  emits P (pdfDate host pdf a) -> emits P (pdfBrief pdf a) -> emits P (pdfSummary pdf a) ->
  (forall t, emits P (pdfCards pdf a t)) -> emits P (pdfConsultants pdf a) ->
  emits P (pdfSuppliers pdf a) -> emits P (pdfFooter pdf) ->
  emits P (pdfProgram host pdf a).
Proof.
  intros. unfold pdfProgram.
  repeat match goal with
         | |- emits _ (bind _ _) => apply emits_bind; [|intros _]
         end; auto.
Qed.

Lemma paginated_supplier_entries :
  suppliersExpected a = false ->
  hasPiece isSupplierEntry (pdfPieces (buildPDFDocument host pdf a)) = false.
Proof.
  rewrite <- suppliersShown_expected. intros H.
  apply existsb_Forall_false, buildPDFDocument_Forall.
  apply pdfProgram_emits;
    try match goal with |- forall t : Tier, _ => intros t end;
    try (now apply pdfSuppliers_hidden);
    pdf_unfold; emits_all; try destruct (fitImage _); emits_all; reflexivity.
Qed.

Lemma paginated_compliance_summary :
  hasPiece isComplianceSummary (pdfPieces (buildPDFDocument host pdf a)) = false.
Proof.
  apply existsb_Forall_false, buildPDFDocument_Forall.
  pdf_unfold. emits_all; try destruct (fitImage _); emits_all; reflexivity.
Qed.

Lemma paginated_suppliers_appendix_absent :
  suppliersShown a = false ->
  hasPiece isSuppliersAppendix (pdfPieces (buildPDFDocument host pdf a)) = false.
Proof.
  intros H. apply existsb_Forall_false, buildPDFDocument_Forall.
  apply pdfProgram_emits;
    try match goal with |- forall t : Tier, _ => intros t end;
    try (now apply pdfSuppliers_hidden);
    pdf_unfold; emits_all; try destruct (fitImage _); emits_all; reflexivity.
Qed.

Hypothesis pdf_wraps : wraps pdf.

Lemma pdfSuppliers_heading (c : Cursor) :
  suppliersShown a = true ->
  hasPiece isSuppliersAppendix (piecesOf (pdfSuppliers pdf a) c) = true.
Proof.
  intros H. unfold pdfSuppliers.
  destruct (location a) as [loc|] eqn:L;
    [|rewrite suppliersShown_location in H by exact L; discriminate].
  rewrite H. cbn [when].
  rewrite hasPiece_bind, hasPiece_bind.
  match goal with
  | |- context [piecesOf (addText pdf ?tg ?s ?sz ?b ?rgb) ?c'] =>
      destruct (addText_pieces pdf tg s sz b rgb c') as [lines [f [w [El Ep]]]];
      rewrite Ep
  end.
  destruct lines as [|l0 lines]; [symmetry in El; now apply pdf_wraps in El|].
  cbn [List.length repeat hasPiece existsb isSuppliersAppendix fst].
  now rewrite orb_true_r.
Qed.

Lemma paginated_suppliers_appendix :
  hasPiece isSuppliersAppendix (pdfPieces (buildPDFDocument host pdf a))
  = suppliersExpected a.
Proof.
  rewrite <- suppliersShown_expected.
  destruct (suppliersShown a) eqn:H;
    [|now apply paginated_suppliers_appendix_absent].
  unfold buildPDFDocument.
  change (pdfPieces (opsOf (pdfProgram host pdf a) newDocument))
    with (piecesOf (pdfProgram host pdf a) newDocument).
  unfold pdfProgram.
  do 11 (rewrite hasPiece_bind; cbv beta).
  rewrite pdfSuppliers_heading by exact H.
  now rewrite !orb_true_r.
Qed.
End PaginatedSections.




(* ================================================================== *)
(** ** C6: consultants *)

Lemma fold_left_nested {A B S : Type} (add : S -> B -> S) (f : A -> list B)
    (l : list A) (acc : S) :
  fold_left (fun s x => fold_left add (f x) s) l acc = fold_left add (flat_map f l) acc.
Proof.
  revert acc. induction l as [|x l IH]; intros acc; simpl; [reflexivity|].
  now rewrite fold_left_app, IH.
Qed.

Lemma specialtyArray_spec (divisions : list string) :
  specialtyArray divisions = dedup String.eqb (specialtiesOf divisions).
Proof.
  unfold specialtyArray, dedup, specialtiesOf.
  apply (fold_left_nested (fun s spec => setAdd String.eqb spec s)).
Qed.

Lemma firstn_min_length {A : Type} (n : nat) (l : list A) :
  firstn (Nat.min n (List.length l)) l = firstn n l.
Proof.
  destruct (Nat.le_ge_cases n (List.length l)) as [H|H].
  - now rewrite Nat.min_l.
  - rewrite Nat.min_r by exact H. now rewrite firstn_all, firstn_all2.
Qed.

Lemma map_mapiFrom {A B C : Type} (g : B -> C) (f : A -> nat -> B) (h : A -> C)
    (l : list A) (i : nat) :
  (forall x j, g (f x j) = h x) -> List.map g (mapiFrom i f l) = List.map h l.
Proof.
  intros H. revert i. induction l as [|x l IH]; intros i; simpl; [reflexivity|].
  now rewrite H, IH.
Qed.

Lemma length_mapiFrom {A B : Type} (f : A -> nat -> B) (l : list A) (i : nat) :
  List.length (mapiFrom i f l) = List.length l.
Proof. revert i. induction l as [|x l IH]; intros i; simpl; [reflexivity|]. now rewrite IH. Qed.

Lemma Forall_mapiFrom {A B : Type} (P : B -> Prop) (f : A -> nat -> B) (l : list A)
    (i : nat) :
  (forall x j, P (f x j)) -> Forall P (mapiFrom i f l).
Proof.
  intros H. revert i. induction l as [|x l IH]; intros i; simpl; constructor; auto.
Qed.

Lemma length_firstn_le {A : Type} (n : nat) (l : list A) : List.length (firstn n l) <= n.
Proof. rewrite length_firstn. apply Nat.le_min_l. Qed.


(* ================================================================== *)
(** ** C7: suppliers *)


Lemma divisionsOf_nonempty (ms : list Material) : ms <> [] -> divisionsOf ms <> [].
Proof.
  intros H E. destruct ms as [|m ms]; [contradiction|].
  assert (Hin : In (csiDivision m) (divisionsOf (m :: ms))).
  { unfold divisionsOf. apply (In_dedup _ string_eqb_spec). now left. }
  rewrite E in Hin. contradiction.
Qed.

Lemma localSuppliers_local (region : string) (materialTypes : list string) :
  Forall (fun s => Supplier.rating s = local) (localSuppliers region materialTypes).
Proof.
  unfold localSuppliers, mapi.
  apply Forall_concat_mapiFrom. intros d i.
  apply Forall_mapiFrom. intros st j. reflexivity.
Qed.

Lemma nationalSuppliers_national (t : Tier) (materialTypes : list string) :
  Forall (fun s => Supplier.rating s = national
                   /\ Supplier.location s = "National Distribution"
                   /\ Str.startsWith "+1 (800) " (Supplier.phone s) = true)
         (nationalSuppliers t materialTypes).
Proof.
  unfold nationalSuppliers, mapi.
  destruct (tierEqb t T2 || (3 <? List.length materialTypes)); [|constructor].
  apply Forall_mapiFrom. intros d i. repeat split.
Qed.

Lemma filter_app_split {A : Type} (p : A -> bool) (l1 l2 : list A) :
  Forall (fun x => p x = false) l1 -> Forall (fun x => p x = true) l2 ->
  filter p (l1 ++ l2) = l2 /\ filter (fun x => negb (p x)) (l1 ++ l2) = l1.
Proof.
  intros H1 H2. rewrite !filter_app. split.
  - rewrite (filter_Forall_false p l1 H1). simpl.
    apply filter_all. now apply Forall_forall.
  - rewrite (filter_all (fun x => negb (p x)) l1).
    + rewrite (filter_Forall_false (fun x => negb (p x)) l2); [apply app_nil_r|].
      eapply Forall_impl; [|exact H2]. intros x Hx. simpl. now rewrite Hx.
    + intros x Hx. rewrite Forall_forall in H1. now rewrite (H1 x Hx).
Qed.



(* ================================================================== *)
(** ** C9: determinism *)

Section StoreFacts.

Lemma readArr_app_old (st ext : Store) (l : Loc) :
  l < List.length st -> readArr (st ++ ext) l = readArr st l.
Proof. intros H. unfold readArr. now apply app_nth1. Qed.

Lemma readArr_app_at (st rest : Store) (v : list Material) :
  readArr (st ++ v :: rest) (List.length st) = v.
Proof. unfold readArr. rewrite app_nth2 by lia. now rewrite Nat.sub_diag. Qed.

Lemma writeArr_app_at (st rest : Store) (v w : list Material) :
  writeArr (st ++ v :: rest) (List.length st) w = st ++ w :: rest.
Proof.
  unfold writeArr.
  rewrite firstn_app, firstn_all, Nat.sub_diag. simpl firstn. rewrite app_nil_r.
  f_equal. f_equal.
  rewrite skipn_app, skipn_all2 by lia.
  replace (S (List.length st) - List.length st) with 1 by lia. reflexivity.
Qed.

Lemma refsOf_cons (base : nat) (k : string) (b : list Material) (G : Groups) :
  refsOf base ((k, b) :: G) = (k, base) :: refsOf (S base) G.
Proof. reflexivity. Qed.

Lemma groupStep_skip (m : Material) (k : string) (l : Loc) (g : Refs) (st : Store) :
  String.eqb k (divisionKey m) = false ->
  groupStep m ((k, l) :: g, st)
  = ((k, l) :: fst (groupStep m (g, st)), snd (groupStep m (g, st))).
Proof.
  intros H. unfold groupStep. cbn [lookupRef]. rewrite H.
  destruct (lookupRef (divisionKey m) g); reflexivity.
Qed.

(** A round of the grouping loop over the store does to the store what
    [pushGroup] does to the groups. *)
Lemma groupStep_refines (m : Material) (G : Groups) (st : Store) :
  groupStep m (refsOf (List.length st) G, st ++ List.map snd G)
  = (refsOf (List.length st) (pushGroup (divisionKey m) m G),
     st ++ List.map snd (pushGroup (divisionKey m) m G)).
Proof.
  revert st. induction G as [|[k b] G IH]; intros st.
  - unfold groupStep, alloc, pushArr. cbn [lookupRef refsOf List.map combine seq List.length
                                             pushGroup fst snd app].
    rewrite app_nil_r.
    rewrite (readArr_app_at st [] []), (writeArr_app_at st [] [] ([] ++ [m])).
    reflexivity.
  - rewrite refsOf_cons. cbn [pushGroup].
    destruct (String.eqb k (divisionKey m)) eqn:E.
    + unfold groupStep, pushArr. cbn [lookupRef]. rewrite E.
      cbn [List.map snd]. rewrite readArr_app_at, writeArr_app_at. reflexivity.
    + rewrite groupStep_skip by exact E.
      specialize (IH (st ++ [b])).
      rewrite length_app in IH. cbn [List.length] in IH.
      rewrite Nat.add_1_r in IH. rewrite <- !app_assoc in IH. cbn [app] in IH.
      cbn [List.map snd]. rewrite IH, refsOf_cons. reflexivity.
Qed.

Lemma grouping_loop_refines (ms : list Material) (G : Groups) (st : Store) :
  fold_left (fun s m => groupStep m s) ms (refsOf (List.length st) G, st ++ List.map snd G)
  = (refsOf (List.length st) (fold_left (fun g m => pushGroup (divisionKey m) m g) ms G),
     st ++ List.map snd (fold_left (fun g m => pushGroup (divisionKey m) m g) ms G)).
Proof.
  revert G. induction ms as [|m ms IH]; intros G; [reflexivity|].
  cbn [fold_left]. now rewrite groupStep_refines, IH.
Qed.

Lemma sortFirst_keys (k : string) (G : Groups) :
  List.map fst (sortFirst k G) = List.map fst G.
Proof.
  induction G as [|[k' b] G IH]; [reflexivity|]. cbn [sortFirst].
  destruct (String.eqb k' k); cbn [List.map fst]; [reflexivity | now rewrite IH].
Qed.

Lemma refsOf_sortFirst (base : nat) (k : string) (G : Groups) :
  refsOf base (sortFirst k G) = refsOf base G.
Proof.
  unfold refsOf. rewrite sortFirst_keys.
  now rewrite <- (length_map fst (sortFirst k G)), sortFirst_keys, length_map.
Qed.

(** An in-place sort of the bucket of [k] in the store sorts the first
    bucket of [k] in the groups. *)
Lemma sortArr_refines (k : string) (G : Groups) (st : Store) :
  match lookupRef k (refsOf (List.length st) G) with
  | Some l => sortArr (st ++ List.map snd G) l
  | None => st ++ List.map snd G
  end = st ++ List.map snd (sortFirst k G).
Proof.
  revert st. induction G as [|[k' b] G IH]; intros st; [reflexivity|].
  rewrite refsOf_cons. cbn [lookupRef sortFirst].
  destruct (String.eqb k' k) eqn:E.
  - unfold sortArr. cbn [List.map snd]. now rewrite readArr_app_at, writeArr_app_at.
  - specialize (IH (st ++ [b])).
    rewrite length_app in IH. cbn [List.length] in IH.
    rewrite Nat.add_1_r in IH. rewrite <- !app_assoc in IH. cbn [app] in IH.
    exact IH.
Qed.

Lemma sortBuckets_refines (keys : list string) (G : Groups) (st : Store) :
  sortBuckets (refsOf (List.length st) G) keys (st ++ List.map snd G)
  = st ++ List.map snd (fold_left (fun g k => sortFirst k g) keys G).
Proof.
  unfold sortBuckets. revert G. induction keys as [|k keys IH]; intros G; [reflexivity|].
  cbn [fold_left]. rewrite sortArr_refines.
  rewrite <- (refsOf_sortFirst (List.length st) k G). apply IH.
Qed.

Lemma lookupGroup_sortFirst (k k' : string) (G : Groups) :
  lookupGroup k (sortFirst k' G)
  = if String.eqb k k' then sort compareTiers (lookupGroup k G) else lookupGroup k G.
Proof.
  induction G as [|[k0 b] G IH]; [now destruct (String.eqb k k')|].
  cbn [sortFirst lookupGroup].
  destruct (String.eqb_spec k0 k') as [E0|E0].
  - subst k0. cbn [lookupGroup].
    destruct (String.eqb_spec k' k) as [E|E].
    + subst. now rewrite String.eqb_refl.
    + destruct (String.eqb_spec k k'); [congruence | reflexivity].
  - cbn [lookupGroup].
    destruct (String.eqb_spec k0 k) as [E|E]; [|exact IH].
    subst k0. destruct (String.eqb_spec k k'); [congruence | reflexivity].
Qed.

Lemma lookupGroup_sortAll (k : string) (keys : list string) (G : Groups) :
  NoDup keys ->
  lookupGroup k (fold_left (fun g k' => sortFirst k' g) keys G)
  = if existsb (String.eqb k) keys then sort compareTiers (lookupGroup k G)
    else lookupGroup k G.
Proof.
  intros Hnd. revert G. induction Hnd as [|k0 keys Hk0 _ IH]; intros G; [reflexivity|].
  cbn [fold_left existsb]. rewrite IH, lookupGroup_sortFirst.
  destruct (String.eqb_spec k k0) as [E|E]; [|reflexivity].
  subst k0. cbn [orb].
  rewrite (proj2 (existsb_eqb_notIn _ string_eqb_spec k keys) Hk0). reflexivity.
Qed.

Lemma lookupGroup_sorted (k : string) (G : Groups) :
  lookupGroup k (List.map (fun kb => (fst kb, sort compareTiers (snd kb))) G)
  = sort compareTiers (lookupGroup k G).
Proof.
  induction G as [|[k0 b] G IH]; [reflexivity|]. cbn [List.map lookupGroup fst snd].
  now destruct (String.eqb k0 k).
Qed.

(** Reading a bucket through its reference reads the bucket of the groups. *)
Lemma readArr_bucket (k : string) (G : Groups) (st : Store) :
  match lookupRef k (refsOf (List.length st) G) with
  | Some l => readArr (st ++ List.map snd G) l
  | None => []
  end = lookupGroup k G.
Proof.
  revert st. induction G as [|[k0 b] G IH]; intros st; [reflexivity|].
  rewrite refsOf_cons. cbn [lookupRef lookupGroup].
  destruct (String.eqb k0 k).
  - cbn [List.map snd]. apply readArr_app_at.
  - specialize (IH (st ++ [b])).
    rewrite length_app in IH. cbn [List.length] in IH.
    rewrite Nat.add_1_r in IH. rewrite <- !app_assoc in IH. exact IH.
Qed.

Lemma refsOf_keys (base : nat) (G : Groups) : List.map fst (refsOf base G) = List.map fst G.
Proof.
  unfold refsOf. revert base. induction G as [|[k b] G IH]; intros base; [reflexivity|].
  cbn [List.map fst List.length seq combine]. now rewrite IH.
Qed.

Lemma refsOf_sortAll (base : nat) (keys : list string) (G : Groups) :
  refsOf base (fold_left (fun g k => sortFirst k g) keys G) = refsOf base G.
Proof.
  revert G. induction keys as [|k keys IH]; intros G; [reflexivity|].
  cbn [fold_left]. now rewrite IH, refsOf_sortFirst.
Qed.
End StoreFacts.

(** Over the store, a call returns the report of the materials it finds
    at [materialsAt] and leaves the arrays it found untouched: it only
    appends its own buckets. *)
Lemma generateMarkdownReportIn_spec (host : Host) (a : Analysis) (materialsAt : Loc)
    (st : Store) :
  materialsAt < List.length st ->
  exists buckets : Store,
    generateMarkdownReportIn host a materialsAt st
    = (generateMarkdownReport host (withMaterials a (readArr st materialsAt)),
       st ++ buckets).
Proof.
  intros Hl. unfold generateMarkdownReportIn.
  set (ms := readArr st materialsAt).
  replace (@nil (string * nat), st)
    with (refsOf (List.length st) [], st ++ List.map snd (@nil (string * list Material)))
    by (cbn [refsOf List.map combine]; now rewrite app_nil_r).
  rewrite grouping_loop_refines. fold (groupedByDivision ms).
  cbv beta iota zeta.
  rewrite refsOf_keys. fold (divisionKeys ms).
  rewrite sortBuckets_refines.
  set (G2 := fold_left (fun g k => sortFirst k g) (divisionKeys ms) (groupedByDivision ms)).
  exists (List.map snd G2). f_equal.
  unfold generateMarkdownReport, generateMarkdownChunks. f_equal.
  rewrite readArr_app_old by exact Hl. fold ms.
  cbn [withMaterials materials]. f_equal.
  unfold grouping. apply map_ext_in. intros k Hk. f_equal.
  rewrite <- (refsOf_sortAll (List.length st) (divisionKeys ms) (groupedByDivision ms)).
  fold G2. rewrite readArr_bucket. unfold G2.
  rewrite lookupGroup_sortAll by apply NoDup_divisionKeys.
  rewrite (proj2 (existsb_eqb_In _ string_eqb_spec k (divisionKeys ms)) Hk).
  unfold sortedGroups. now rewrite lookupGroup_sorted.
Qed.

Lemma nth_error_mapiFrom {A B : Type} (f : A -> nat -> B) (l : list A) (i0 i : nat) :
  nth_error (mapiFrom i0 f l) i = option_map (fun x => f x (i0 + i)) (nth_error l i).
Proof.
  revert i0 i. induction l as [|x l IH]; intros i0 i.
  - now destruct i.
  - destruct i as [|i]; cbn [mapiFrom nth_error option_map].
    + now rewrite Nat.add_0_r.
    + rewrite IH. now rewrite Nat.add_succ_r.
Qed.

Lemma Forall2_eq_refl {A : Type} (l : list A) : Forall2 eq l l.
Proof. induction l; constructor; auto. Qed.

Lemma Forall2_eq_eq {A : Type} (l1 l2 : list A) : Forall2 eq l1 l2 -> l1 = l2.
Proof. induction 1; congruence. Qed.



(** The store after a call: the input array is where it was, in its
    order; the buckets follow, sorted by tier. *)
Example store_after_one_call :
  List.map (List.map name)
    (snd (generateMarkdownReportIn plainHost
            (sampleAnalysis [] None false false) 0
            [ [ sampleMaterial "Roof" "07" "Thermal and Moisture Protection" T2;
                sampleMaterial "Curtain Wall" "08" "Openings" T1;
                sampleMaterial "Flashing" "07" "Thermal and Moisture Protection" T1 ] ]))
  = [ ["Roof"; "Curtain Wall"; "Flashing"]; ["Flashing"; "Roof"]; ["Curtain Wall"] ].
Proof. vm_compute. reflexivity. Qed.

(** ** Evaluations on the sample data *)

Lemma C5_flags_witness :
  let a := sampleAnalysis
             [ sampleMaterial "Curtain Wall" "08" "Openings" T1;
               sampleMaterial "Photochromic Glass" "08" "Openings" T3 ]
             (Some sampleLocation) false false in
  (hasPiece isAlternativesBlock (mdPieces (generateMarkdownChunks plainHost a)) = false
   /\ hasPiece isAlternativesBlock (pdfPieces (buildPDFDocument plainHost plainPDF a)) = false)
  /\ (hasPiece isSustainabilityNotes (mdPieces (generateMarkdownChunks plainHost a)) = false
      /\ hasPiece isSustainabilityNotes (pdfPieces (buildPDFDocument plainHost plainPDF a))
         = false).
Proof.
  pose (a := sampleAnalysis
               [ sampleMaterial "Curtain Wall" "08" "Openings" T1;
                 sampleMaterial "Photochromic Glass" "08" "Openings" T3 ]
               (Some sampleLocation) false false).
  exact (conj (proj1 (C5_flags_omit_optional_fields plainHost plainPDF a) eq_refl)
              (proj2 (C5_flags_omit_optional_fields plainHost plainPDF a) eq_refl)).
Defined.

(** With the flags on, the same materials show both optional fields in
    both outputs. *)
Example optional_fields_shown_when_enabled :
  let a := sampleAnalysis
             [ sampleMaterial "Curtain Wall" "08" "Openings" T1;
               sampleMaterial "Photochromic Glass" "08" "Openings" T3 ]
             (Some sampleLocation) true true in
  hasPiece isAlternativesBlock (mdPieces (generateMarkdownChunks plainHost a)) = true
  /\ hasPiece isAlternativesBlock (pdfPieces (buildPDFDocument plainHost plainPDF a)) = true
  /\ hasPiece isSustainabilityNotes (mdPieces (generateMarkdownChunks plainHost a)) = true
  /\ hasPiece isSustainabilityNotes (pdfPieces (buildPDFDocument plainHost plainPDF a))
     = true.
Proof. vm_compute. repeat split; reflexivity. Qed.

(** The scenario of the specification: a tier-1 roof of division 07 and
    a tier-3 glass panel of division 08, no location, no brief, both
    flags off. *)
Example scenario_outline :
  let a := {| imageUrls := ["data:image/png;base64,AAAA"];
              materials :=
                [ sampleMaterial "Standing Seam Metal Roof" "07"
                    "Thermal and Moisture Protection" T1;
                  sampleMaterial "Photochromic Glass Panel" "08" "Openings" T3 ];
              timestamp := "2025-01-15T10:00:00.000Z";
              includeSustainability := false; includeAlternatives := false;
              location := None; brief := None |} in
  markdownTriples plainHost a
  = [ ("07 - Thermal and Moisture Protection", T1, "Standing Seam Metal Roof");
      ("08 - Openings", T3, "Photochromic Glass Panel") ]
  /\ hasPiece isSuppliersAppendix (mdPieces (generateMarkdownChunks plainHost a)) = false
  /\ List.map Consultant.firm
       (getConsultantsForDivisions ["Thermal and Moisture Protection"] T1)
     = [ "Building Envelope Associates"; "Moisture Control Associates";
         "Energy Efficiency Associates" ].
Proof. vm_compute. repeat split; reflexivity. Qed.

(** A tier bucket reading 2, 1, 3, 1 comes out as 1, 1, 2, 3. *)
Example tiers_2131_rendered_1123 :
  let a := sampleAnalysis
             [ sampleMaterial "A" "09" "Finishes" T2;
               sampleMaterial "B" "09" "Finishes" T1;
               sampleMaterial "C" "09" "Finishes" T3;
               sampleMaterial "D" "09" "Finishes" T1 ] None false false in
  markdownTriples plainHost a
  = [ ("09 - Finishes", T1, "B"); ("09 - Finishes", T1, "D");
      ("09 - Finishes", T2, "A"); ("09 - Finishes", T3, "C") ].
Proof. vm_compute. reflexivity. Qed.

(* ================================================================== *)
(** * Further properties *)

(** ** The supplier generator beyond its tier rule *)

Lemma lookup_In (k : string) (table : list (string * list string)) (v : list string) :
  lookup k table = Some v -> In v (List.map snd table).
Proof.
  induction table as [|[k' v'] table IH]; simpl; [discriminate|].
  destruct (String.eqb k' k).
  - intros E. inversion E. now left.
  - intros E. right. now apply IH.
Qed.

(** Every division, in the table or not, has a first supplier type. *)
Lemma supplierTypes_nonempty (division : string) :
  lookupOr divisionToSupplierType division ["General Building Materials"] <> [].
Proof.
  unfold lookupOr.
  destruct (lookup division divisionToSupplierType) as [v|] eqn:E; [|discriminate].
  apply lookup_In in E. simpl in E.
  repeat (destruct E as [<-|E]; [discriminate|]). contradiction.
Qed.

Lemma length_concat_mapiFrom_bounds {A B : Type} (f : A -> nat -> list B) (lo hi : nat)
    (l : list A) (i : nat) :
  (forall x j, lo <= List.length (f x j) <= hi) ->
  lo * List.length l <= List.length (List.concat (mapiFrom i f l)) <= hi * List.length l.
Proof.
  intros H. revert i. induction l as [|x l IH]; intros i; simpl; [lia|].
  rewrite length_app. specialize (H x i). specialize (IH (S i)). lia.
Qed.

Lemma Forall_mapiFrom_In {A B : Type} (P : B -> Prop) (f : A -> nat -> B) (l : list A)
    (i : nat) :
  (forall x j, In x l -> P (f x j)) -> Forall P (mapiFrom i f l).
Proof.
  revert i. induction l as [|x l IH]; intros i H; simpl; constructor.
  - apply H. now left.
  - apply IH. intros y j Hy. apply H. now right.
Qed.

Lemma Forall_concat_mapiFrom_In {A B : Type} (P : B -> Prop) (f : A -> nat -> list B)
    (l : list A) (i : nat) :
  (forall x j, In x l -> Forall P (f x j)) -> Forall P (List.concat (mapiFrom i f l)).
Proof.
  revert i. induction l as [|x l IH]; intros i H; simpl; [constructor|].
  apply Forall_app. split.
  - apply H. now left.
  - apply IH. intros y j Hy. apply H. now right.
Qed.

Lemma In_divisionsOf (d : string) (ms : list Material) :
  In d (divisionsOf ms) -> exists m, In m ms /\ csiDivision m = d.
Proof.
  unfold divisionsOf. intros H. apply (proj1 (In_dedup _ string_eqb_spec _ _)) in H.
  apply in_map_iff in H. destruct H as [m [E Hm]]. now exists m.
Qed.

Lemma filter_isLocal_suppliers (ms : list Material) (loc : ProjectLocation) (t : Tier) :
  filter isLocal (getSuppliersForMaterials ms loc t)
  = localSuppliers (regionOf loc) (divisionsOf ms).
Proof.
  unfold getSuppliersForMaterials.
  pose proof (localSuppliers_local (regionOf loc) (divisionsOf ms)) as HL.
  pose proof (nationalSuppliers_national t (divisionsOf ms)) as HN.
  assert (HL' : Forall (fun s => isNational s = false)
                  (localSuppliers (regionOf loc) (divisionsOf ms))).
  { eapply Forall_impl; [|exact HL]. intros s Hs. unfold isNational. now rewrite Hs. }
  assert (HN' : Forall (fun s => isNational s = true)
                  (nationalSuppliers t (divisionsOf ms))).
  { eapply Forall_impl; [|exact HN]. intros s [Hs _]. unfold isNational. now rewrite Hs. }
  now destruct (filter_app_split isNational _ _ HL' HN') as [_ EL].
Qed.

Lemma localSuppliers_length (region : string) (materialTypes : list string) :
  List.length materialTypes <= List.length (localSuppliers region materialTypes)
  <= 2 * List.length materialTypes.
Proof.
  unfold localSuppliers, mapi.
  match goal with
  | |- _ <= List.length (List.concat (mapiFrom 0 ?f ?l)) <= _ =>
      pose proof (length_concat_mapiFrom_bounds f 1 2 l 0) as B
  end.
  lapply B; [lia|]. intros x j. rewrite length_mapiFrom.
  pose proof (supplierTypes_nonempty x) as Hx.
  destruct (lookupOr divisionToSupplierType x ["General Building Materials"])
    as [|a [|b r]]; [contradiction| |]; simpl; lia.
Qed.

Lemma localSuppliers_nonempty (region : string) (materialTypes : list string) :
  materialTypes <> [] -> localSuppliers region materialTypes <> [].
Proof.
  intros H E. pose proof (localSuppliers_length region materialTypes) as B.
  rewrite E in B. destruct materialTypes; [contradiction|]. simpl in B. lia.
Qed.


Lemma suppliers_nonempty (ms : list Material) (loc : ProjectLocation) (t : Tier) :
  ms <> [] -> getSuppliersForMaterials ms loc t <> [].
Proof.
  intros H E. unfold getSuppliersForMaterials in E.
  apply app_eq_nil in E. destruct E as [E _]. revert E.
  apply localSuppliers_nonempty. now apply divisionsOf_nonempty.
Qed.

Lemma mdSuppliersTier_no_notice (t : Tier) (ms : list Material) (loc : ProjectLocation) :
  Forall (fun ch => isNoSuppliersNotice (tagOf ch, Line) = false)
         (mdSuppliersTier t ms loc).
Proof.
  unfold mdSuppliersTier. destruct (ofTier t ms) as [|m tierN]; [constructor|].
  destruct (getSuppliersForMaterials (m :: tierN) loc t) as [|s l] eqn:S.
  - exfalso. revert S. apply suppliers_nonempty. discriminate.
  - chunks_all.
Qed.

Lemma pdfSuppliersTier_no_notice (pdf : JsPDF) (t : Tier) (ms : list Material)
    (loc : ProjectLocation) :
  emits (fun p => isNoSuppliersNotice p = false) (pdfSuppliersTier pdf t ms loc).
Proof.
  unfold pdfSuppliersTier. destruct (ofTier t ms) as [|m tierN]; [apply emits_ret|].
  destruct (getSuppliersForMaterials (m :: tierN) loc t) as [|s l] eqn:S.
  - exfalso. revert S. apply suppliers_nonempty. discriminate.
  - unfold addSupplierCard. emits_all; reflexivity.
Qed.

(** X2: The notice "No local suppliers found" is never rendered, in either
    output: a tier block of the suppliers appendix is only written for a
    tier that has materials, and then it has suppliers. *)
Theorem no_suppliers_notice_is_unreachable (host : Host) (pdf : JsPDF) (a : Analysis) :
  hasPiece isNoSuppliersNotice (mdPieces (generateMarkdownChunks host a)) = false
  /\ hasPiece isNoSuppliersNotice (pdfPieces (buildPDFDocument host pdf a)) = false.
Proof.
  split.
  - apply hasPiece_md_none.
    unfold generateMarkdownChunks, renderMarkdown.
    repeat (apply Forall_app; split);
      try (md_unfold; chunks_all; fail).
    unfold mdSuppliers. destruct (location a) as [loc|]; [|constructor].
    destruct (suppliersShown a); [|constructor].
    repeat (apply Forall_app; split);
      try apply mdSuppliersTier_no_notice;
      unfold mdNationalSuppliers; chunks_all.
  - apply existsb_Forall_false, buildPDFDocument_Forall.
    apply pdfProgram_emits;
      try match goal with |- forall t : Tier, _ => intros t end;
      try (pdf_unfold; emits_all; try destruct (fitImage _); emits_all; reflexivity).
    unfold pdfSuppliers. destruct (location a) as [loc|]; [|apply emits_ret].
    destruct (suppliersShown a); [|apply emits_ret]. cbn [when].
    repeat match goal with
           | |- emits _ (bind _ _) => apply emits_bind; [|intros _]
           end;
      try apply pdfSuppliersTier_no_notice;
      unfold pdfNationalSuppliers, addSupplierCard; emits_all; reflexivity.
Qed.

(** X3: Without a location no material shows a "Code Compliance" field, in
    either output, whatever its [codeCompliance] holds. *)
Theorem no_code_compliance_without_location (host : Host) (pdf : JsPDF) (a : Analysis) :
  location a = None ->
  hasPiece isCodeComplianceField (mdPieces (generateMarkdownChunks host a)) = false
  /\ hasPiece isCodeComplianceField (pdfPieces (buildPDFDocument host pdf a)) = false.
Proof.
  intros H. split.
  - apply hasPiece_md_none.
    destruct a as [imgs ms ts sus alt loc br]. cbn in H. subst loc.
    unfold generateMarkdownChunks, renderMarkdown. md_unfold.
    cbn [includeAlternatives includeSustainability location materials andb isSome].
    chunks_all.
  - apply existsb_Forall_false, buildPDFDocument_Forall.
    destruct a as [imgs ms ts sus alt loc br]. cbn in H. subst loc.
    pdf_unfold.
    cbn [includeAlternatives includeSustainability location materials andb when isSome].
    emits_all; try destruct (fitImage _); emits_all; reflexivity.
Qed.

Lemma no_code_compliance_witness :
  let a := sampleAnalysis [sampleMaterial "Curtain Wall" "08" "Openings" T1]
             None true true in
  hasPiece isCodeComplianceField (mdPieces (generateMarkdownChunks plainHost a)) = false
  /\ hasPiece isCodeComplianceField (pdfPieces (buildPDFDocument plainHost plainPDF a))
     = false.
Proof.
  exact (no_code_compliance_without_location plainHost plainPDF
           (sampleAnalysis [sampleMaterial "Curtain Wall" "08" "Openings" T1]
              None true true) eq_refl).
Defined.

(** ** The consultants of one list are distinct *)

Lemma map_mapiFrom_index {A B C : Type} (g : B -> C) (f : A -> nat -> B) (h : nat -> C)
    (l : list A) (i : nat) :
  (forall x j, g (f x j) = h j) ->
  List.map g (mapiFrom i f l) = List.map h (seq i (List.length l)).
Proof.
  intros H. revert i. induction l as [|x l IH]; intros i; simpl; [reflexivity|].
  now rewrite H, IH.
Qed.

Lemma append_inj_l (s1 s2 suffix : string) : s1 +++ suffix = s2 +++ suffix -> s1 = s2.
Proof.
  revert s2. induction s1 as [|c s1 IH]; intros [|d s2] E; simpl in E.
  - reflexivity.
  - exfalso. apply (f_equal String.length) in E. simpl in E.
    rewrite length_append in E. lia.
  - exfalso. apply (f_equal String.length) in E. simpl in E.
    rewrite length_append in E. lia.
  - inversion E. f_equal. now apply IH.
Qed.

Lemma NoDup_map_append (suffix : string) (l : list string) :
  NoDup l -> NoDup (List.map (fun s => s +++ suffix) l).
Proof.
  induction 1 as [|x l Hx _ IH]; simpl; constructor; [|exact IH].
  intros Hin. apply in_map_iff in Hin. destruct Hin as [y [E Hy]].
  apply append_inj_l in E. now subst.
Qed.

Lemma In_firstn {A : Type} (x : A) (n : nat) (l : list A) :
  In x (firstn n l) -> In x l.
Proof.
  revert n. induction l as [|y l IH]; intros [|n] H; simpl in *; try contradiction.
  destruct H as [H|H]; [now left | right; now apply (IH n)].
Qed.

Lemma NoDup_firstn {A : Type} (n : nat) (l : list A) : NoDup l -> NoDup (firstn n l).
Proof.
  revert n. induction l as [|x l IH]; intros [|n] H; simpl; try constructor.
  - inversion H; subst. intros Hin. apply In_firstn in Hin. contradiction.
  - inversion H; subst. now apply IH.
Qed.

Ltac distinct_strings :=
  cbv; repeat (constructor; [simpl; intuition discriminate|]); constructor.

(** X4: The consultants of one list are distinct persons of distinct firms:
    no name, no firm and no telephone number occurs twice (the slice is
    never longer than the pool of names the index runs through). *)
Theorem consultants_are_distinct (divisions : list string) (t : Tier) :
  NoDup (List.map Consultant.name (getConsultantsForDivisions divisions t))
  /\ NoDup (List.map Consultant.firm (getConsultantsForDivisions divisions t))
  /\ NoDup (List.map Consultant.phone (getConsultantsForDivisions divisions t)).
Proof.
  assert (HS : NoDup (specialtyArray divisions)).
  { rewrite specialtyArray_spec. apply (NoDup_dedup _ string_eqb_spec). }
  unfold getConsultantsForDivisions, mapi. rewrite !firstn_min_length.
  destruct t.
  - pose proof (length_firstn_le 3 (specialtyArray divisions)) as L.
    split; [|split].
    + rewrite (map_mapiFrom_index _ _
                 (fun j => Consultant.name (tier1Consultant EmptyString j)))
        by reflexivity.
      destruct (List.length (firstn 3 (specialtyArray divisions)))
        as [|[|[|[|n]]]]; try lia; distinct_strings.
    + rewrite (map_mapiFrom _ _ (fun s => s +++ " Associates")) by reflexivity.
      now apply NoDup_map_append, NoDup_firstn.
    + rewrite (map_mapiFrom_index _ _
                 (fun j => Consultant.phone (tier1Consultant EmptyString j)))
        by reflexivity.
      destruct (List.length (firstn 3 (specialtyArray divisions)))
        as [|[|[|[|n]]]]; try lia; distinct_strings.
  - pose proof (length_firstn_le 4 (specialtyArray divisions)) as L.
    split; [|split].
    + rewrite (map_mapiFrom_index _ _
                 (fun j => Consultant.name (tier2Consultant EmptyString j)))
        by reflexivity.
      destruct (List.length (firstn 4 (specialtyArray divisions)))
        as [|[|[|[|[|n]]]]]; try lia; distinct_strings.
    + rewrite (map_mapiFrom _ _ (fun s => s +++ " Custom Solutions")) by reflexivity.
      now apply NoDup_map_append, NoDup_firstn.
    + rewrite (map_mapiFrom_index _ _
                 (fun j => Consultant.phone (tier2Consultant EmptyString j)))
        by reflexivity.
      destruct (List.length (firstn 4 (specialtyArray divisions)))
        as [|[|[|[|[|n]]]]]; try lia; distinct_strings.
  - pose proof (length_firstn_le 5 (specialtyArray divisions)) as L.
    split; [|split].
    + rewrite (map_mapiFrom_index _ _
                 (fun j => Consultant.name (tier3Consultant EmptyString j)))
        by reflexivity.
      destruct (List.length (firstn 5 (specialtyArray divisions)))
        as [|[|[|[|[|[|n]]]]]]; try lia; distinct_strings.
    + rewrite (map_mapiFrom _ _ (fun s => s +++ " Innovation Lab")) by reflexivity.
      now apply NoDup_map_append, NoDup_firstn.
    + rewrite (map_mapiFrom_index _ _
                 (fun j => Consultant.phone (tier3Consultant EmptyString j)))
        by reflexivity.
      destruct (List.length (firstn 5 (specialtyArray divisions)))
        as [|[|[|[|[|[|n]]]]]]; try lia; distinct_strings.
Qed.

(** ** The region of the suppliers *)

(** X5: The region the local suppliers are placed in is never blank: it is
    "Local Area" when the location has no jurisdiction, an empty one, or
    one whose text before the first comma is blank; so no supplier has an
    empty location. *)
Theorem supplier_location_never_blank (ms : list Material) (loc : ProjectLocation)
    (t : Tier) :
  regionOf loc <> EmptyString
  /\ (truthy (jurisdiction loc) = false -> regionOf loc = "Local Area")
  /\ Forall (fun s => Supplier.location s <> EmptyString)
            (getSuppliersForMaterials ms loc t).
Proof.
  assert (R : regionOf loc <> EmptyString).
  { unfold regionOf. destruct (jurisdiction loc) as [j|]; [|discriminate].
    destruct (Str.isTruthy j); [|discriminate].
    cbv zeta. unfold Str.isTruthy at 1.
    destruct (String.eqb_spec (Str.trim (hd EmptyString (Str.split "," j))) EmptyString)
      as [E|E]; simpl; [discriminate | exact E]. }
  split; [exact R|]. split.
  - unfold regionOf, truthy. destruct (jurisdiction loc) as [j|]; [|reflexivity].
    intros H. now rewrite H.
  - unfold getSuppliersForMaterials. apply Forall_app. split.
    + unfold localSuppliers, mapi. apply Forall_concat_mapiFrom. intros d i.
      apply Forall_mapiFrom. intros st j. exact R.
    + eapply Forall_impl; [|apply nationalSuppliers_national].
      intros s [_ [E _]]. rewrite E. discriminate.
Qed.

(** ** The number a division is sorted by *)

Lemma parseInt_steps (s : string) :
  Str.parseInt s
  = let '(neg, s2) := signOf (Str.trimStart s) in
    let '(radix, s3) := radixOf s2 in
    match Str.digits radix s3 None with
    | Some v => Some (if neg then (- v)%Z else v)
    | None => None
    end.
Proof. reflexivity. Qed.

Lemma signOf_app (a : ascii) (q t : string) :
  signOf (String a q +++ t) = (fst (signOf (String a q)), snd (signOf (String a q)) +++ t).
Proof. destruct a as [[] [] [] [] [] [] [] []]; reflexivity. Qed.

Lemma radixOf_app_space (r t : string) :
  radixOf (r +++ String " " t) = (fst (radixOf r), snd (radixOf r) +++ String " " t).
Proof.
  destruct r as [|a [|b r]].
  - reflexivity.
  - destruct a as [[] [] [] [] [] [] [] []]; reflexivity.
  - destruct a as [[] [] [] [] [] [] [] []]; try reflexivity;
      destruct b as [[] [] [] [] [] [] [] []]; reflexivity.
Qed.

Lemma digits_app_stop (radix : Z) (c : ascii) (s t : string) (acc : option Z) :
  Str.digitValue radix c = None ->
  Str.digits radix (s +++ String c t) acc = Str.digits radix s acc.
Proof.
  intros H. revert acc. induction s as [|d s IH]; intros acc; simpl.
  - now rewrite H.
  - destruct (Str.digitValue radix d); [apply IH | reflexivity].
Qed.

Lemma digitValue_space (radix : Z) : Str.digitValue radix " " = None.
Proof. reflexivity. Qed.

Lemma trimStart_app (q t : string) :
  Str.trimStart (q +++ t)
  = match Str.trimStart q with
    | EmptyString => Str.trimStart t
    | q' => q' +++ t
    end.
Proof.
  induction q as [|c q IH]; simpl; [reflexivity|].
  destruct (Str.isSpace c); [exact IH | reflexivity].
Qed.

(** [parseInt] does not read past a space that follows the number. *)
Lemma parseInt_before_space_dash (q r : string) :
  r = EmptyString \/ (exists r', r = String " " r') ->
  Str.parseInt (q +++ " -" +++ r) = Str.parseInt q.
Proof.
  intros Hr. rewrite !parseInt_steps, trimStart_app.
  destruct (Str.trimStart q) as [|a q'] eqn:E.
  - change (Str.trimStart (" -" +++ r)) with (String "-" r).
    cbn [signOf]. destruct Hr as [->|[r' ->]]; reflexivity.
  - rewrite signOf_app. destruct (signOf (String a q')) as [neg s2]. cbn [fst snd].
    change (s2 +++ " -" +++ r) with (s2 +++ String " " ("-" +++ r)).
    rewrite radixOf_app_space. destruct (radixOf s2) as [radix s3]. cbn [fst snd].
    now rewrite digits_app_stop by apply digitValue_space.
Qed.

(** Where [split(' - ')] cuts a division key: at the separator the key
    was built with, or earlier, inside the division number. *)
Lemma splitFirst_divisionKey (p d x y : string) :
  Str.splitFirst " - " (p +++ " - " +++ d) = Some (x, y) ->
  x = p
  \/ exists r, p = x +++ " -" +++ r /\ (r = EmptyString \/ exists r', r = String " " r').
Proof.
  revert x y. induction p as [|c p IH]; intros x y.
  - simpl. intros E. inversion E. now left.
  - change (String c p +++ " - " +++ d) with (String c (p +++ " - " +++ d)).
    rewrite splitFirst_unfold.
    destruct (Str.startsWith " - " (String c (p +++ " - " +++ d))) eqn:S.
    + intros E. inversion E; subst. right.
      cbn [Str.startsWith] in S. apply andb_prop in S. destruct S as [Sc S].
      apply Ascii.eqb_eq in Sc. subst c.
      destruct p as [|c1 p]; cbn [String.append Str.startsWith] in S.
      { apply andb_prop in S. destruct S as [S1 _]. discriminate. }
      apply andb_prop in S. destruct S as [S1 S]. apply Ascii.eqb_eq in S1. subst c1.
      exists p. split; [reflexivity|].
      destruct p as [|c2 p]; [now left|]. right.
      cbn [String.append Str.startsWith] in S. apply andb_prop in S. destruct S as [S2 _].
      apply Ascii.eqb_eq in S2. subst c2. now exists p.
    + destruct (Str.splitFirst " - " (p +++ " - " +++ d)) as [[a b]|] eqn:F;
        [|discriminate].
      intros E. inversion E; subst.
      destruct (IH a y eq_refl) as [->|[r [-> Hr]]]; [now left|].
      right. exists r. split; [reflexivity | exact Hr].
Qed.

Lemma hd_split_found (sep s x y : string) :
  s <> EmptyString -> Str.splitFirst sep s = Some (x, y) ->
  hd EmptyString (Str.split sep s) = x.
Proof.
  intros Hs E. unfold Str.split. destruct s as [|c s]; [contradiction|].
  cbn [String.length Str.splitFuel]. now rewrite E.
Qed.

Lemma keyNumber_divisionKey (m : Material) :
  keyNumber (divisionKey m) = Str.parseInt (csiNumber m).
Proof.
  unfold keyNumber, divisionKey.
  destruct (splitFirst_found " - " (csiNumber m) (csiDivision m)) as [x [y E]].
  rewrite (hd_split_found _ _ x y); [| |exact E].
  - destruct (splitFirst_divisionKey _ _ _ _ E) as [->|[r [-> Hr]]]; [reflexivity|].
    symmetry. now apply parseInt_before_space_dash.
  - destruct (csiNumber m); discriminate.
Qed.

(** X6: The number a division is sorted by is the integer [parseInt] reads
    off the material's [csiNumber], whatever the two strings hold: a
    separator inside the division number or name does not change it.
    The comparator of two division keys is the difference of these
    integers, [NaN] when one of them does not start with a number. *)
Theorem division_sort_key_is_csiNumber (m1 m2 : Material) :
  keyNumber (divisionKey m1) = Str.parseInt (csiNumber m1)
  /\ compareKeys (divisionKey m1) (divisionKey m2)
     = numSub (Str.parseInt (csiNumber m1)) (Str.parseInt (csiNumber m2)).
Proof.
  unfold compareKeys. now rewrite !keyNumber_divisionKey.
Qed.

(** ** Division headings in numeric order *)

Section SortExt.
Context {A : Type}.
Variables cmp cmp' : A -> A -> option Z.

Lemma insertSorted_ext_in (x : A) (l : list A) :
  (forall y, In y l -> goesAfter cmp x y = goesAfter cmp' x y) ->
  insertSorted cmp x l = insertSorted cmp' x l.
Proof.
  induction l as [|y l IH]; intros H; simpl; [reflexivity|].
  rewrite (H y) by now left.
  destruct (goesAfter cmp' x y); [|reflexivity].
  f_equal. apply IH. intros z Hz. apply H. now right.
Qed.

Lemma sort_ext_in (l : list A) :
  (forall x y, In x l -> In y l -> goesAfter cmp x y = goesAfter cmp' x y) ->
  sort cmp l = sort cmp' l.
Proof.
  induction l as [|x l IH]; intros H; simpl; [reflexivity|].
  rewrite IH by (intros y z Hy Hz; apply H; now right).
  apply insertSorted_ext_in. intros y Hy. apply H; [now left|].
  right. apply (Permutation_in _ (sort_perm cmp' l)). exact Hy.
Qed.
End SortExt.

Lemma keyLe_trans {A : Type} (key : A -> Z) (x y z : A) :
  keyLe key x y -> keyLe key y z -> keyLe key x z.
Proof. unfold keyLe. lia. Qed.

Lemma divisionKeys_by_value (ms : list Material) :
  Forall (fun m => Str.parseInt (csiNumber m) <> None) ms ->
  divisionKeys ms
  = sort (fun a b => Some (keyValue a - keyValue b)%Z) (encounteredKeys ms).
Proof.
  intros H. rewrite divisionKeys_spec. apply sort_ext_in.
  assert (K : forall k, In k (encounteredKeys ms) -> keyNumber k = Some (keyValue k)).
  { intros k Hk. unfold encounteredKeys in Hk.
    apply (proj1 (In_dedup _ string_eqb_spec _ _)) in Hk.
    apply in_map_iff in Hk. destruct Hk as [m [<- Hm]].
    rewrite Forall_forall in H. specialize (H m Hm).
    unfold keyValue. rewrite keyNumber_divisionKey.
    destruct (Str.parseInt (csiNumber m)); [reflexivity | contradiction]. }
  intros x y Hx Hy. unfold goesAfter, compareKeys.
  now rewrite (K x Hx), (K y Hy).
Qed.



(** ** The text of a division heading *)

Lemma startsWith_drop (p s : string) :
  Str.startsWith p s = true -> s = p +++ Str.drop (String.length p) s.
Proof.
  revert s. induction p as [|a p IH]; intros s H; [reflexivity|].
  destruct s as [|b s]; [discriminate|].
  cbn [Str.startsWith] in H. apply andb_prop in H. destruct H as [E H].
  apply Ascii.eqb_eq in E. subst b. cbn. f_equal. now apply IH.
Qed.

Lemma splitFirst_sound (sep s x y : string) :
  Str.splitFirst sep s = Some (x, y) -> s = x +++ sep +++ y.
Proof.
  revert x y. induction s as [|c s IH]; intros x y; rewrite splitFirst_unfold.
  - destruct (Str.startsWith sep EmptyString) eqn:S; [|discriminate].
    intros E. inversion E; subst. now apply startsWith_drop.
  - destruct (Str.startsWith sep (String c s)) eqn:S.
    + intros E. inversion E; subst. now apply startsWith_drop.
    + destruct (Str.splitFirst sep s) as [[a b]|]; [|discriminate].
      intros E. inversion E; subst. cbn. f_equal. now apply IH.
Qed.

Lemma includes_app (sep a b : string) : Str.includes sep (a +++ sep +++ b) = true.
Proof.
  unfold Str.includes. now destruct (splitFirst_found sep a b) as [x [y ->]].
Qed.

Lemma append_inj_r (p s1 s2 : string) : p +++ s1 = p +++ s2 -> s1 = s2.
Proof. induction p as [|c p IH]; simpl; intros E; [exact E|]. inversion E. now apply IH. Qed.

(** [divisionKey.split(' - ')] gives back the two fields of the key when
    the division number holds no space and the division name holds no
    separator. *)
Lemma split_divisionKey (m : Material) :
  Str.includes " " (csiNumber m) = false ->
  Str.includes " - " (csiDivision m) = false ->
  Str.split " - " (divisionKey m) = [csiNumber m; csiDivision m].
Proof.
  intros Hn Hd. unfold divisionKey, Str.split.
  destruct (splitFirst_found " - " (csiNumber m) (csiDivision m)) as [x [y E]].
  assert (Ex : x = csiNumber m).
  { destruct (splitFirst_divisionKey _ _ _ _ E) as [->|[r [En _]]]; [reflexivity|].
    rewrite En in Hn.
    change (x +++ " -" +++ r) with (x +++ " " +++ ("-" +++ r)) in Hn.
    rewrite includes_app in Hn. discriminate. }
  subst x. pose proof (splitFirst_sound _ _ _ _ E) as Ey.
  apply append_inj_r, append_inj_r in Ey. subst y.
  destruct (String.length (csiNumber m +++ " - " +++ csiDivision m)) as [|f] eqn:L.
  - rewrite !length_append in L. simpl in L. lia.
  - cbn [Str.splitFuel]. rewrite E. f_equal.
    unfold Str.includes in Hd.
    destruct f; cbn [Str.splitFuel]; [reflexivity|].
    now destruct (Str.splitFirst " - " (csiDivision m)).
Qed.



(** A division name that holds the separator is cut at it: the heading
    shows the text before the separator only. *)
Example division_name_cut_at_separator :
  List.map textOf
    (select (fun t => match t with DivisionHeading _ => true | _ => false end)
       (generateMarkdownChunks plainHost
          (sampleAnalysis [sampleMaterial "Entrance" "08" "Doors - Windows" T1]
             None false false)))
  = [ "### Division 08 - DOORS" +++ nl +++ nl ].
Proof. vm_compute. reflexivity. Qed.

(** ** The counts of the project summary *)

Lemma tier_counts_add_up (ms : list Material) :
  List.length (ofTier T1 ms) + List.length (ofTier T2 ms) + List.length (ofTier T3 ms)
  = List.length ms.
Proof.
  unfold ofTier, hasTier. induction ms as [|m ms IH]; [reflexivity|].
  simpl. destruct (tier m); simpl; lia.
Qed.

(** X9: The project summary of the markdown report shows the number of
    materials and the number in each tier, and the three tier counts add
    up to the total. *)
Theorem summary_counts_add_up (host : Host) (a : Analysis) :
  let count := fun t => List.length (ofTier t (materials a)) in
  List.map textOf (select isSummaryCount (generateMarkdownChunks host a))
  = [ "- **Total materials identified:** "
        +++ Str.ofNat (List.length (materials a)) +++ nl;
      "- **Tier 1 (Readily Available):** " +++ Str.ofNat (count T1) +++ " materials" +++ nl;
      "- **Tier 2 (Requires Customization):** " +++ Str.ofNat (count T2)
        +++ " materials" +++ nl;
      "- **Tier 3 (Custom Development):** " +++ Str.ofNat (count T3)
        +++ " materials" +++ nl +++ nl ]
  /\ count T1 + count T2 + count T3 = List.length (materials a).
Proof.
  intros count. split; [|apply tier_counts_add_up].
  unfold generateMarkdownChunks, renderMarkdown.
  rewrite !select_app.
  rewrite (select_none _ (mdHeader host a)) by (md_unfold; chunks_all).
  rewrite (select_none _ (mdBrief a)) by (md_unfold; chunks_all).
  rewrite (select_none _ (mdLocation a)) by (md_unfold; chunks_all).
  rewrite (select_none _ (mdDivisions a _)) by (md_unfold; chunks_all).
  rewrite (select_none _ (mdSummaryByTier a)) by (md_unfold; chunks_all).
  rewrite (select_none _ (mdCompliance a)) by (md_unfold; chunks_all).
  rewrite (select_none _ (mdRecommendations a)) by (md_unfold; chunks_all).
  rewrite (select_none _ (mdConsultants a)) by (md_unfold; chunks_all).
  rewrite (select_none _ (mdSuppliers a)) by (md_unfold; chunks_all).
  reflexivity.
Qed.

(** ** The roll-up by tier *)

Lemma select_all (q : Tag -> bool) (r : list Chunk) :
  Forall (fun ch => q (tagOf ch) = true) r -> select q r = r.
Proof.
  induction 1 as [|ch r H _ IH]; [reflexivity|].
  unfold select in *. simpl. now rewrite H, IH.
Qed.

Lemma concat_map_singleton {A B : Type} (f : A -> B) (l : list A) :
  List.concat (List.map (fun x => [f x]) l) = List.map f l.
Proof. induction l as [|x l IH]; [reflexivity|]. simpl. now rewrite IH. Qed.

Lemma tierEqb_refl (t : Tier) : tierEqb t t = true.
Proof. now destruct t. Qed.

Lemma namesByDivision_spec (ms : list Material) :
  namesByDivision ms
  = List.map (fun k => (k, List.map name (inDivision k ms))) (encounteredKeys ms).
Proof.
  unfold namesByDivision, encounteredKeys.
  now rewrite (groupFold_spec divisionKey name).
Qed.

Lemma select_mdTierSummary_other (t t' : Tier) (ms : list Material) :
  tierEqb t' t = false -> select (isRollupLine t) (mdTierSummary t' ms) = [].
Proof.
  intros H. apply select_none. unfold mdTierSummary.
  destruct (ofTier t' ms); [constructor|].
  chunks_all. repeat constructor. exact H.
Qed.

Lemma select_mdTierSummary (t : Tier) (ms : list Material) :
  select (isRollupLine t) (mdTierSummary t ms)
  = List.map (fun k => {| tagOf := TierSummaryLine t k;
                          textOf := "- " +++ k +++ ": "
                                    +++ Str.join ", " (List.map name (inDivision k (ofTier t ms)))
                                    +++ nl |})
             (encounteredKeys (ofTier t ms)).
Proof.
  unfold mdTierSummary. destruct (ofTier t ms) as [|m tierN] eqn:E; [reflexivity|].
  rewrite !select_app.
  rewrite (select_none _ (emit (TierSummarySection t) _)) by (now repeat constructor).
  rewrite (select_none _ (emit Separator _)) by (now repeat constructor).
  rewrite app_nil_r. cbn [app].
  rewrite select_all.
  - rewrite namesByDivision_spec, map_map. cbn [fst snd].
    unfold emit. apply concat_map_singleton.
  - apply Forall_concat_map. intros kn. repeat constructor.
    cbn [tagOf isRollupLine]. apply tierEqb_refl.
Qed.

(** X10: The roll-up of a tier in "Summary by Tier" has one line per division
    of the tier's materials, in the order in which the input list first
    mentions the divisions (not in the numeric order of the body); the
    line of a division lists the names of the tier's materials of that
    division in input order, so that every material of the tier is named
    exactly once. *)
Theorem tier_rollup_in_encounter_order (host : Host) (a : Analysis) (t : Tier) :
  let tierN := ofTier t (materials a) in
  select (isRollupLine t) (generateMarkdownChunks host a)
  = List.map (fun k => {| tagOf := TierSummaryLine t k;
                          textOf := "- " +++ k +++ ": "
                                    +++ Str.join ", " (List.map name (inDivision k tierN))
                                    +++ nl |})
             (encounteredKeys tierN)
  /\ NoDup (encounteredKeys tierN)
  /\ Permutation
       (flat_map (fun k => List.map name (inDivision k tierN)) (encounteredKeys tierN))
       (List.map name tierN).
Proof.
  intros tierN. split; [|split].
  - unfold generateMarkdownChunks, renderMarkdown.
    rewrite !select_app.
    rewrite (select_none _ (mdHeader host a)) by (md_unfold; chunks_all).
    rewrite (select_none _ (mdBrief a)) by (md_unfold; chunks_all).
    rewrite (select_none _ (mdLocation a)) by (md_unfold; chunks_all).
    rewrite (select_none _ (mdSummary a)) by (md_unfold; chunks_all).
    rewrite (select_none _ (mdDivisions a _)) by (md_unfold; chunks_all).
    rewrite (select_none _ (mdCompliance a)) by (md_unfold; chunks_all).
    rewrite (select_none _ (mdRecommendations a)) by (md_unfold; chunks_all).
    rewrite (select_none _ (mdConsultants a)) by (md_unfold; chunks_all).
    rewrite (select_none _ (mdSuppliers a)) by (md_unfold; chunks_all).
    cbn [app]. rewrite !app_nil_r.
    unfold mdSummaryByTier. rewrite !select_app.
    rewrite (select_none _ (emit Separator _)) by (now repeat constructor).
    rewrite (select_none _ (emit TierSummaryHeading _)) by (now repeat constructor).
    cbn [app].
    destruct t;
      try rewrite (select_mdTierSummary_other _ T1) by reflexivity;
      try rewrite (select_mdTierSummary_other _ T2) by reflexivity;
      try rewrite (select_mdTierSummary_other _ T3) by reflexivity;
      rewrite select_mdTierSummary; cbn [app]; now rewrite ?app_nil_r.
  - apply (NoDup_dedup _ string_eqb_spec).
  - rewrite <- map_flat_map. apply Permutation_map.
    apply inDivision_partition.
    + apply (NoDup_dedup _ string_eqb_spec).
    + intros m Hm. unfold encounteredKeys.
      apply (In_dedup _ string_eqb_spec). now apply in_map.
Qed.

(** The roll-up is in encounter order where the body is in numeric
    order. *)
Example rollup_order_and_body_order :
  let a := sampleAnalysis [ sampleMaterial "Sprinklers" "21" "Fire Suppression" T1;
                            sampleMaterial "Slab" "03" "Concrete" T1 ]
             None false false in
  List.map textOf (select (isRollupLine T1) (generateMarkdownChunks plainHost a))
  = [ "- 21 - Fire Suppression: Sprinklers" +++ nl; "- 03 - Concrete: Slab" +++ nl ]
  /\ divisionHeadings (mdPieces (generateMarkdownChunks plainHost a))
     = [ "03 - Concrete"; "21 - Fire Suppression" ].
Proof. vm_compute. split; reflexivity. Qed.

(** ** Building codes *)

Lemma map_empty (f : ascii -> ascii) (s : string) :
  String.eqb (Str.map f s) EmptyString = String.eqb s EmptyString.
Proof. now destruct s. Qed.

Lemma truthy_lower (o o' : option string) :
  option_map Str.toLowerCase o' = option_map Str.toLowerCase o ->
  truthy o' = truthy o
  /\ Str.toLowerCase (orEmpty o') = Str.toLowerCase (orEmpty o).
Proof.
  destruct o as [s|], o' as [s'|]; simpl; try discriminate; [|now split].
  intros E. injection E as E'. split; [|exact E'].
  unfold Str.isTruthy, Str.toLowerCase in *.
  now rewrite <- (map_empty Str.lowerChar s'), E', map_empty.
Qed.

Lemma cityCode_lower (city city' : option string) :
  option_map Str.toLowerCase city' = option_map Str.toLowerCase city ->
  cityCode city' = cityCode city.
Proof.
  intros E. destruct (truthy_lower _ _ E) as [T L].
  unfold cityCode. now rewrite T, L.
Qed.

Lemma stateCode_lower (lat : option Q) (state state' : option string) :
  option_map Str.toLowerCase state' = option_map Str.toLowerCase state ->
  stateCode lat state' = stateCode lat state.
Proof.
  intros E. destruct (truthy_lower _ _ E) as [T L].
  unfold stateCode. now rewrite T, L.
Qed.

(** X11: The names of the city and of the state are matched without regard
    to the case of their letters: two spellings with the same lower-case
    form get the same building code.  (The name of the country is
    matched as it is written.) *)
Theorem building_code_ignores_letter_case (lat lng : option Q)
    (state state' city city' country : option string) :
  option_map Str.toLowerCase state' = option_map Str.toLowerCase state ->
  option_map Str.toLowerCase city' = option_map Str.toLowerCase city ->
  determineBuildingCode lat lng state' city' country
  = determineBuildingCode lat lng state city country.
Proof.
  intros Es Ec. unfold determineBuildingCode.
  now rewrite (cityCode_lower _ _ Ec), (stateCode_lower _ _ _ Es).
Qed.

Lemma building_code_letter_case_witness :
  determineBuildingCode (Some 25.8%Q) (Some (-80.2)%Q) (Some "FLORIDA") (Some "MIAMI")
    (Some "USA")
  = determineBuildingCode (Some 25.8%Q) (Some (-80.2)%Q) (Some "Florida") (Some "Miami")
      (Some "USA")
  /\ determineBuildingCode (Some 25.8%Q) (Some (-80.2)%Q) (Some "Florida") (Some "Miami")
       (Some "usa")
     = "Refer to local building codes and standards".
Proof.
  split; [|reflexivity].
  exact (building_code_ignores_letter_case (Some 25.8%Q) (Some (-80.2)%Q)
           (Some "Florida") (Some "FLORIDA") (Some "Miami") (Some "MIAMI") (Some "USA")
           eq_refl eq_refl).
Defined.

Lemma cityCode_IBC (city : option string) (code : string) :
  cityCode city = Some code -> Str.startsWith "IBC 2021" code = true.
Proof.
  unfold cityCode. destruct (truthy city); [|discriminate]. cbv zeta.
  repeat match goal with
         | |- (if ?b then _ else _) = Some _ -> _ => destruct b
         end;
    intros E; inversion E; reflexivity.
Qed.

Lemma stateCode_IBC (lat : option Q) (state : option string) (code : string) :
  stateCode lat state = Some code -> Str.startsWith "IBC 2021" code = true.
Proof.
  unfold stateCode. destruct (truthy state); [|discriminate]. cbv zeta.
  repeat match goal with
         | |- (if ?b then _ else _) = Some _ -> _ => destruct b
         end;
    intros E; inversion E; reflexivity.
Qed.

(** X12: A code of the IBC family is only ever given to a location whose
    country reads "United States", "USA" or "US", and the Canadian code
    exactly to one whose country reads "Canada" or "CA": for them the
    coordinates, the state and the city play no part, even coordinates
    inside the United States. *)
Theorem building_code_follows_country (lat lng : option Q)
    (state city country : option string) :
  let code := determineBuildingCode lat lng state city country in
  (Str.startsWith "IBC 2021" code = true ->
   isOneOf country ["United States"; "USA"; "US"] = true)
  /\ (code = "National Building Code of Canada (NBC)"
      <-> isOneOf country ["Canada"; "CA"] = true)
  /\ code <> EmptyString.
Proof.
  intros code. unfold code, determineBuildingCode.
  destruct (isOneOf country ["United States"; "USA"; "US"]) eqn:US.
  - assert (CA : isOneOf country ["Canada"; "CA"] = false).
    { destruct country as [c|]; [|reflexivity]. simpl in *.
      repeat match type of US with
             | context [String.eqb ?a ?b] =>
                 destruct (String.eqb_spec a b); [subst; reflexivity|]
             end.
      discriminate. }
    rewrite CA. cbv zeta.
    destruct (cityCode city) as [c|] eqn:C.
    { pose proof (cityCode_IBC _ _ C) as I. split; [reflexivity|]. split.
      - split; [|discriminate]. intros ->. discriminate.
      - intros ->. discriminate. }
    destruct (stateCode lat state) as [c|] eqn:S.
    { pose proof (stateCode_IBC _ _ _ S) as I. split; [reflexivity|]. split.
      - split; [|discriminate]. intros ->. discriminate.
      - intros ->. discriminate. }
    destruct (within 24 50 lat && within (-125) (-65) lng);
      (split; [reflexivity|]); (split; [split; discriminate | discriminate]).
  - cbv zeta. destruct (isOneOf country ["Canada"; "CA"]);
      (split; [discriminate|]); split; try discriminate; split; auto; discriminate.
Qed.

(** A location in the United States that matches no city and no state
    of the function, outside the box of the contiguous states, gets the
    international fallback. *)
Example honolulu_gets_the_international_fallback :
  determineBuildingCode (Some 21.3%Q) (Some (-157.8)%Q) (Some "Hawaii") (Some "Honolulu")
    (Some "United States")
  = "Refer to local building codes and standards".
Proof. reflexivity. Qed.

(** ** From the geocoded address to the region of the suppliers *)

Lemma includes_char_cons (c a : ascii) (s : string) :
  Str.includes (String c EmptyString) (String a s)
  = Ascii.eqb c a || Str.includes (String c EmptyString) s.
Proof.
  unfold Str.includes. rewrite splitFirst_unfold. cbn [Str.startsWith].
  destruct (Ascii.eqb c a); cbn [andb orb].
  - now destruct s.
  - replace (match s with EmptyString => true | String _ _ => true end && false)
      with false by (now destruct s).
    now destruct (Str.splitFirst (String c EmptyString) s) as [[x y]|].
Qed.

Lemma splitFirst_char (c : ascii) (p r : string) :
  Str.includes (String c EmptyString) p = false ->
  Str.splitFirst (String c EmptyString) (p +++ String c r) = Some (p, r).
Proof.
  induction p as [|a p IH]; intros H.
  - cbn. now rewrite Ascii.eqb_refl.
  - rewrite includes_char_cons in H. apply orb_false_elim in H. destruct H as [Ha Hp].
    change (String a p +++ String c r) with (String a (p +++ String c r)).
    rewrite splitFirst_unfold. cbn [Str.startsWith]. rewrite Ha. cbn [andb].
    now rewrite (IH Hp).
Qed.

Lemma split_without_separator (sep s : string) :
  Str.includes sep s = false -> Str.split sep s = [s].
Proof.
  unfold Str.includes, Str.split. intros H.
  destruct (String.length s); cbn [Str.splitFuel]; [reflexivity|].
  now destruct (Str.splitFirst sep s).
Qed.

Lemma jurisdictionParts_truthy (parts : Address.t) :
  Forall (fun p => p <> EmptyString) (jurisdictionParts parts).
Proof.
  assert (T : forall o, truthy o = true -> orEmpty o <> EmptyString).
  { intros [s|]; simpl; [|discriminate]. unfold Str.isTruthy.
    destruct (String.eqb_spec s EmptyString); [discriminate | auto]. }
  unfold jurisdictionParts.
  repeat (apply Forall_app; split);
    match goal with
    | |- Forall _ (if truthy ?o then _ else _) =>
        destruct (truthy o) eqn:E; [|constructor]
    end;
    (constructor; [now apply T | constructor]).
Qed.



(** ** The names of the downloaded files *)

Lemma includes_char_take (c : ascii) (n : nat) (s : string) :
  Str.includes (String c EmptyString) s = false ->
  Str.includes (String c EmptyString) (take n s) = false.
Proof.
  revert n. induction s as [|a s IH]; intros [|n] H; try reflexivity.
  rewrite includes_char_cons in H. apply orb_false_elim in H. destruct H as [Ha Hs].
  cbn [take]. rewrite includes_char_cons, Ha. now apply IH.
Qed.

Lemma dashed_clean (s : string) :
  Str.includes ":" (dashed s) = false /\ Str.includes "." (dashed s) = false.
Proof.
  induction s as [|a s [IH1 IH2]]; [split; reflexivity|].
  unfold dashed in *. cbn [Str.map]. rewrite !includes_char_cons, IH1, IH2.
  destruct (Ascii.eqb_spec a ":") as [->|N1]; [split; reflexivity|].
  destruct (Ascii.eqb_spec a ".") as [->|N2]; [split; reflexivity|].
  cbn [orb]. split; rewrite orb_false_r; apply Ascii.eqb_neq; congruence.
Qed.

Lemma dateStr_clean (clock : Clock) (timestamp stem : string) :
  dateStr clock timestamp = Some stem ->
  Str.includes ":" stem = false /\ Str.includes "." stem = false.
Proof.
  unfold dateStr. destruct (toISOString clock timestamp) as [iso|]; [|discriminate].
  simpl. intros E. injection E as <-. unfold dropLast.
  destruct (dashed_clean iso). split; now apply includes_char_take.
Qed.


Lemma dashed_app (s t : string) : dashed (s +++ t) = dashed s +++ dashed t.
Proof.
  unfold dashed. induction s as [|c s IH]; [reflexivity|].
  cbn [String.append Str.map]. now rewrite IH.
Qed.

Lemma dashed_id (s : string) :
  Str.includes ":" s = false -> Str.includes "." s = false -> dashed s = s.
Proof.
  unfold dashed. induction s as [|c s IH]; intros H1 H2; [reflexivity|].
  rewrite includes_char_cons in H1, H2.
  apply orb_false_elim in H1, H2. destruct H1 as [A1 B1], H2 as [A2 B2].
  cbn [Str.map]. rewrite (Ascii.eqb_sym c ":"), (Ascii.eqb_sym c "."), A1, A2.
  cbn [orb]. now rewrite IH.
Qed.

Lemma take_app_length (s t : string) : take (String.length s) (s +++ t) = s.
Proof. induction s as [|c s IH]; simpl; [now destruct t | now rewrite IH]. Qed.

Lemma dropLast_app (s t : string) : dropLast (String.length t) (s +++ t) = s.
Proof.
  unfold dropLast. rewrite length_append.
  replace (String.length s + String.length t - String.length t) with (String.length s)
    by lia.
  apply take_app_length.
Qed.

Lemma length_dashed (s : string) : String.length (dashed s) = String.length s.
Proof. unfold dashed. induction s as [|c s IH]; simpl; [reflexivity | now rewrite IH]. Qed.

Lemma append_assoc' (a b c : string) : (a +++ b) +++ c = a +++ b +++ c.
Proof. induction a as [|x a IH]; simpl; [reflexivity | now rewrite IH]. Qed.

Lemma dashed_plainPart (s : string) : plainPart s = true -> dashed s = s.
Proof.
  unfold plainPart. intros H. apply andb_prop in H. destruct H as [H1 H2].
  apply negb_true_iff in H1, H2. now apply dashed_id.
Qed.

(** X15: For a date printed as [YYYY-MM-DDTHH:mm:ss.sssZ] (a day, [T], the
    time of day with colons, a full stop, three digits and [Z]) the stem
    is the day, [T], and the time of day with hyphens for the colons:
    the milliseconds and the zone are cut off. *)
Theorem download_file_name_of_iso_date (clock : Clock) (report timestamp : string)
    (day hh mm ss ms : string) :
  toISOString clock timestamp
  = Some (day +++ "T" +++ hh +++ ":" +++ mm +++ ":" +++ ss +++ "." +++ ms +++ "Z") ->
  String.length ms = 3 ->
  plainPart day = true -> plainPart hh = true ->
  plainPart mm = true -> plainPart ss = true ->
  option_map filename (downloadReport clock report timestamp)
  = Some ("material-analysis-" +++ day +++ "T" +++ hh +++ "-" +++ mm +++ "-" +++ ss
          +++ ".txt").
Proof.
  intros E L Hd Hh Hm Hs.
  apply dashed_plainPart in Hd, Hh, Hm, Hs.
  assert (D : dateStr clock timestamp
              = Some (day +++ "T" +++ hh +++ "-" +++ mm +++ "-" +++ ss)).
  { unfold dateStr. rewrite E. cbn [option_map]. f_equal.
    replace (day +++ "T" +++ hh +++ ":" +++ mm +++ ":" +++ ss +++ "." +++ ms +++ "Z")
      with ((day +++ "T" +++ hh +++ ":" +++ mm +++ ":" +++ ss) +++ ("." +++ ms +++ "Z"))
      by (now rewrite !append_assoc').
    rewrite dashed_app.
    replace 5 with (String.length (dashed ("." +++ ms +++ "Z")))
      by (rewrite length_dashed, !length_append; simpl; lia).
    rewrite dropLast_app, !dashed_app, Hd, Hh, Hm, Hs. reflexivity. }
  unfold downloadReport. rewrite D. cbn [option_map filename].
  now rewrite !append_assoc'.
Qed.

Lemma download_file_name_witness :
  option_map filename
    (downloadReport {| toISOString := fun s => Some s |} "# Report"
       "2025-01-15T10:00:00.000Z")
  = Some "material-analysis-2025-01-15T10-00-00.txt".
Proof.
  exact (download_file_name_of_iso_date {| toISOString := fun s => Some s |} "# Report"
           "2025-01-15T10:00:00.000Z" "2025-01-15" "10" "00" "00" "000"
           eq_refl eq_refl eq_refl eq_refl eq_refl eq_refl).
Defined.

(** ** The usage log *)

(** X16: The usage log of an Analysis agrees with its report: the three tier
    counts add up to the number of materials, and the divisions of the
    log are, each once, the divisions the markdown report has a heading
    for. *)
Theorem usage_log_agrees_with_report (host : Host) (logId session : string)
    (a : Analysis) (duration : option Z) (tokens : option (Z * Z)) :
  let log := createUsageLog logId session a duration tokens in
  fst (fst (UsageLog.tierDistribution log)) + snd (fst (UsageLog.tierDistribution log))
  + snd (UsageLog.tierDistribution log)
  = UsageLog.materialCount log
  /\ NoDup (UsageLog.csiDivisions log)
  /\ Permutation (UsageLog.csiDivisions log)
       (divisionHeadings (mdPieces (generateMarkdownChunks host a))).
Proof.
  intros log. unfold log, createUsageLog.
  cbn [UsageLog.tierDistribution UsageLog.materialCount UsageLog.csiDivisions fst snd].
  split; [|split].
  - apply tier_counts_add_up.
  - apply (NoDup_dedup _ string_eqb_spec).
  - unfold divisionHeadings. rewrite markdown_outline. cbn [divisions].
    rewrite map_map. cbn [fst]. rewrite map_id, divisionKeys_spec.
    apply Permutation_sym, sort_perm.
Qed.

Lemma length_ofTier_map (t : Tier) (ms : list Material) :
  List.length (filter (hasTier t) ms)
  = List.length (filter (isTier t) (List.map tier ms)).
Proof.
  change (filter (hasTier t) ms) with (ofTier t ms).
  now rewrite <- map_tier_ofTier, length_map.
Qed.

(** X17: The usage log is a function of what [loggedView] keeps of the
    Analysis: two analyses that differ only in the address typed in, the
    coordinates, the images, the text of the brief and of its intent, or
    the names and descriptions of the materials, give the same log. *)
Theorem usage_log_is_anonymous (logId session : string) (a a' : Analysis)
    (duration : option Z) (tokens : option (Z * Z)) :
  loggedView a = loggedView a' ->
  createUsageLog logId session a duration tokens
  = createUsageLog logId session a' duration tokens.
Proof.
  unfold loggedView. intros E.
  injection E as Ets Eimg Esus Ealt Ems Eloc Ebrief.
  assert (Et : List.map tier (materials a) = List.map tier (materials a')).
  { apply (f_equal (List.map (fun x => fst (fst x)))) in Ems.
    now rewrite !map_map in Ems. }
  assert (Ek : List.map (fun m => csiNumber m +++ " - " +++ csiDivision m) (materials a)
               = List.map (fun m => csiNumber m +++ " - " +++ csiDivision m)
                   (materials a')).
  { apply (f_equal (List.map (fun x => snd (fst x) +++ " - " +++ snd x))) in Ems.
    now rewrite !map_map in Ems. }
  assert (El : List.length (materials a) = List.length (materials a')).
  { apply (f_equal (@List.length _)) in Et. now rewrite !length_map in Et. }
  unfold createUsageLog. cbv zeta.
  rewrite !length_ofTier_map, Et, Ek, El, Ets, Eimg, Esus, Ealt.
  f_equal.
  - destruct (location a) as [l|], (location a') as [l'|]; try discriminate; [|reflexivity].
    simpl in Eloc. injection Eloc as -> ->. reflexivity.
  - destruct (brief a) as [b|], (brief a') as [b'|]; try discriminate; [|reflexivity].
    simpl in Ebrief. injection Ebrief as -> ->. reflexivity.
Qed.

Lemma usage_log_is_anonymous_witness :
  createUsageLog "log_1" "session_1"
    (sampleAnalysis [sampleMaterial "Curtain Wall" "08" "Openings" T1]
       (Some sampleLocation) true false) None None
  = createUsageLog "log_1" "session_1"
      (sampleAnalysis [sampleMaterial "Storefront" "08" "Openings" T1]
         (Some {| input := "20 W 34th St"; coordinates := (40.7, -73.9)%Q;
                  jurisdiction := Some "New York, NY, USA";
                  buildingCode := Some "IBC 2021" |}) true false) None None.
Proof.
  exact (usage_log_is_anonymous "log_1" "session_1"
           (sampleAnalysis [sampleMaterial "Curtain Wall" "08" "Openings" T1]
              (Some sampleLocation) true false)
           (sampleAnalysis [sampleMaterial "Storefront" "08" "Openings" T1]
              (Some {| input := "20 W 34th St"; coordinates := (40.7, -73.9)%Q;
                       jurisdiction := Some "New York, NY, USA";
                       buildingCode := Some "IBC 2021" |}) true false)
           None None eq_refl).
Defined.

(** ** Tracking the writer *)

Lemma cursorOf_bind {A B : Type} (m : Pdf A) (f : A -> Pdf B) (c : Cursor) :
  cursorOf (bind m f) c = cursorOf (f (valueOf m c)) (cursorOf m c).
Proof.
  unfold cursorOf, bind, valueOf.
  destruct (m c) as [[a c1] o1]. simpl.
  destruct (f a c1) as [[b c2] o2]. reflexivity.
Qed.

Section Tracks.
Variable R : Cursor -> Cursor -> list Op -> Prop.
Hypothesis T : Tracking R.

Lemma tracks_ret {A : Type} (a : A) : tracks R (ret a).
Proof. intros c. apply (track_refl R T). Qed.

Lemma tracks_bind {A B : Type} (m : Pdf A) (f : A -> Pdf B) :
  tracks R m -> (forall a, tracks R (f a)) -> tracks R (bind m f).
Proof.
  intros Hm Hf c. rewrite cursorOf_bind, opsOf_bind.
  eapply (track_trans R T); [apply Hm | apply Hf].
Qed.

Lemma tracks_getCursor : tracks R getCursor.
Proof. intros c. apply (track_refl R T). Qed.

Lemma tracks_setY (y : Q) : tracks R (setY y).
Proof. intros c. apply (track_y R T). Qed.

Lemma tracks_advance (dy : Q) : tracks R (advance dy).
Proof. intros c. apply (track_y R T). Qed.

Lemma tracks_setFontSize (s : Q) : tracks R (setFontSize s).
Proof. intros c. apply (track_font R T). Qed.

Lemma tracks_setFont (b : bool) : tracks R (setFont b).
Proof. intros c. apply (track_font R T). Qed.

Lemma tracks_setTextColor (rgb : nat * nat * nat) : tracks R (setTextColor rgb).
Proof. intros c. apply (track_font R T). Qed.

Lemma tracks_addPage : tracks R addPage.
Proof. intros c. apply (track_page R T). Qed.

Lemma tracks_docText (tg : Tag) (r : Role) (s : string) (x : Q) :
  tracks R (docText tg r s x).
Proof. intros c. apply (track_text R T). Qed.

Lemma tracks_draw (o : Op) : (forall c, R c c [o]) -> tracks R (draw o).
Proof. intros H c. apply H. Qed.

Lemma tracks_when (b : bool) (m : Pdf unit) : tracks R m -> tracks R (when b m).
Proof. intros H. destruct b; [exact H | apply tracks_ret]. Qed.

Lemma tracks_forEachFrom {A : Type} (f : A -> nat -> Pdf unit) (l : list A) (i : nat) :
  (forall x j, tracks R (f x j)) -> tracks R (forEachFrom i f l).
Proof.
  intros H. revert i. induction l as [|x l IH]; intros i; simpl.
  - apply tracks_ret.
  - apply tracks_bind; [apply H | intros _; apply IH].
Qed.

Lemma tracks_forEach {A : Type} (l : list A) (f : A -> nat -> Pdf unit) :
  (forall x j, tracks R (f x j)) -> tracks R (forEach l f).
Proof. apply tracks_forEachFrom. Qed.
End Tracks.

(** Decomposes a goal [tracks R program] along the program, with the
    helpers of the writer unfolded; a leaf is a drawing call other than
    [doc.text] and [doc.addPage]. *)
Ltac tracks_all T :=
  unfold addText, addLabelValue, addBullet, addNameLines, addWrappedField,
    addPlainField, addSpacing, checkNewPage;
  repeat match goal with
    | |- tracks _ (ret _) => apply (tracks_ret _ T)
    | |- tracks _ getCursor => apply (tracks_getCursor _ T)
    | |- tracks _ (setY _) => apply (tracks_setY _ T)
    | |- tracks _ (advance _) => apply (tracks_advance _ T)
    | |- tracks _ (setFontSize _) => apply (tracks_setFontSize _ T)
    | |- tracks _ (setFont _) => apply (tracks_setFont _ T)
    | |- tracks _ (setTextColor _) => apply (tracks_setTextColor _ T)
    | |- tracks _ addPage => apply (tracks_addPage _ T)
    | |- tracks _ (docText _ _ _ _) => apply (tracks_docText _ T)
    | |- tracks _ (draw _) => apply tracks_draw; intros
    | |- tracks _ (when _ _) => apply (tracks_when _ T)
    | |- tracks _ (forEach _ _) => apply (tracks_forEach _ T); intros
    | |- tracks _ (bind _ _) => apply (tracks_bind _ T); [| intros]
    | |- tracks _ (let _ := _ in _) => cbv zeta
    | |- tracks _ (if ?b then _ else _) => destruct b
    | |- tracks _ (match ?x with _ => _ end) => destruct x
    end.

(** ** The footer numbers every page *)

Lemma pageBreaks_app (o1 o2 : list Op) : pageBreaks (o1 ++ o2) = pageBreaks o1 + pageBreaks o2.
Proof. unfold pageBreaks. now rewrite filter_app, length_app. Qed.

Lemma countsPages_tracking : Tracking countsPages.
Proof.
  constructor; unfold countsPages, pageBreaks; cbn [pages filter isAddPage List.length];
    intros; try (split; [lia | now repeat constructor]).
  destruct H as [H1 H2], H0 as [H3 H4]. rewrite filter_app, length_app. split; [lia|].
  now apply Forall_app.
Qed.

Section Footer.
Variable host : Host.
Variable pdf : JsPDF.

Lemma countsPages_image (url format : string) (x y w h : Q) (c : Cursor) :
  countsPages c c [AddImage url format x y w h].
Proof. split; [unfold pageBreaks; simpl; lia | now repeat constructor]. Qed.

Lemma opsOf_forEach_draw {A : Type} (g : A -> Op) (l : list A) (i : nat) (c : Cursor) :
  opsOf (forEachFrom i (fun x _ => draw (g x)) l) c = List.map g l.
Proof.
  revert i c. induction l as [|x l IH]; intros i c; [reflexivity|].
  cbn [forEachFrom List.map]. rewrite opsOf_bind.
  change (opsOf (draw (g x)) c) with [g x].
  cbn [app]. f_equal. apply IH.
Qed.

(** The footer pass stamps the pages 1 to [pages], in order, and
    breaks no page. *)
Lemma pdfFooter_ops (c : Cursor) :
  opsOf (pdfFooter pdf) c
  = List.map (fun i => Stamp i ("Page " +++ Str.ofNat i +++ " of " +++ Str.ofNat (pages c)
                                +++ " - Generated by SpecMate")
                             (pageWidth pdf / 2)%Q (pageHeight pdf - 10)%Q)
             (seq 1 (pages c)).
Proof.
  unfold pdfFooter.
  rewrite opsOf_bind. change (opsOf getCursor c) with (@nil Op).
  change (valueOf getCursor c) with c. change (cursorOf getCursor c) with c.
  cbv zeta. cbn [app].
  rewrite opsOf_bind. change (opsOf (setFontSize small) c) with (@nil Op). cbn [app].
  rewrite opsOf_bind.
  match goal with |- opsOf (setTextColor gray) ?c' ++ _ = _ =>
    change (opsOf (setTextColor gray) c') with (@nil Op) end.
  cbn [app]. unfold forEach. apply opsOf_forEach_draw.
Qed.

(** A document that ends with the footer pass: the calls before the
    pass keep [countsPages], and the pass runs from the cursor they
    leave. *)
Lemma footer_last (body : Pdf unit) (c : Cursor) :
  tracks countsPages body ->
  exists c1 ops1,
    countsPages c c1 ops1
    /\ opsOf (body ;; pdfFooter pdf) c = ops1 ++ opsOf (pdfFooter pdf) c1.
Proof.
  intros H. exists (cursorOf body c), (opsOf body c). split; [apply H|].
  now rewrite opsOf_bind.
Qed.

Lemma footer_after {A : Type} (m : Pdf A) (rest : Pdf unit) :
  tracks countsPages m ->
  (forall c, exists c1 ops1,
      countsPages c c1 ops1 /\ opsOf rest c = ops1 ++ opsOf (pdfFooter pdf) c1) ->
  forall c, exists c1 ops1,
      countsPages c c1 ops1
      /\ opsOf (m ;; rest) c = ops1 ++ opsOf (pdfFooter pdf) c1.
Proof.
  intros Hm Hrest c. destruct (Hrest (cursorOf m c)) as [c1 [ops1 [H1 H2]]].
  exists c1, (opsOf m c ++ ops1). split.
  - eapply (track_trans _ countsPages_tracking); [apply Hm | exact H1].
  - now rewrite opsOf_bind, H2, app_assoc.
Qed.

Lemma pdfProgram_footer (a : Analysis) (c : Cursor) :
  exists c1 ops1,
    countsPages c c1 ops1
    /\ opsOf (pdfProgram host pdf a) c = ops1 ++ opsOf (pdfFooter pdf) c1.
Proof.
  revert c. unfold pdfProgram.
  repeat (apply footer_after;
          [pdf_unfold; tracks_all countsPages_tracking;
           try destruct (fitImage _); tracks_all countsPages_tracking;
           try apply countsPages_image |]).
  intros c. exists c. exists (@nil Op).
  split; [apply (track_refl _ countsPages_tracking) | reflexivity].
Qed.
End Footer.

(** X18: Every page of the paginated document is stamped once with its
    footer, page 1 first: the footer of page [i] reads "Page [i] of [n]",
    where [n] is one more than the number of page breaks the document
    made. *)
Theorem footer_numbers_every_page (host : Host) (pdf : JsPDF) (a : Analysis) :
  let ops := buildPDFDocument host pdf a in
  let n := 1 + pageBreaks ops in
  filter isStamp ops
  = List.map (fun i => Stamp i ("Page " +++ Str.ofNat i +++ " of " +++ Str.ofNat n
                                +++ " - Generated by SpecMate")
                             (pageWidth pdf / 2)%Q (pageHeight pdf - 10)%Q)
             (seq 1 n).
Proof.
  intros ops n. unfold n, ops, buildPDFDocument.
  destruct (pdfProgram_footer host pdf a newDocument) as [c1 [ops1 [[Hp Hs] E]]].
  rewrite E, pdfFooter_ops, filter_app, pageBreaks_app.
  rewrite (filter_Forall_false _ _ Hs). cbn [app].
  assert (F : forall l : list nat,
             pageBreaks (List.map (fun i => Stamp i ("Page " +++ Str.ofNat i +++ " of "
                                                     +++ Str.ofNat (pages c1)
                                                     +++ " - Generated by SpecMate")
                                            (pageWidth pdf / 2)%Q (pageHeight pdf - 10)%Q) l)
             = 0).
  { induction l as [|i l IH]; [reflexivity | exact IH]. }
  rewrite F, Nat.add_0_r.
  change (pages newDocument) with 1 in Hp. rewrite <- Hp.
  apply filter_all. intros o Ho. apply in_map_iff in Ho. now destruct Ho as [i [<- _]].
Qed.

(** ** The thumbnail *)

Lemma drawsNoImage_tracking : Tracking drawsNoImage.
Proof.
  constructor; unfold drawsNoImage; intros; try (now repeat constructor).
  now apply Forall_app.
Qed.

Lemma no_image_ops {A : Type} (m : Pdf A) (c : Cursor) :
  tracks drawsNoImage m -> filter isImage (opsOf m c) = [].
Proof. intros H. apply filter_Forall_false, H. Qed.

Section Thumbnail.
Variable host : Host.
Variable pdf : JsPDF.

Lemma pdfThumbnail_images (a : Analysis) (c : Cursor) :
  List.map imageView (filter isImage (opsOf (pdfThumbnail pdf a) c))
  = match imageUrls a with
    | [] => []
    | first :: _ =>
        match loadImage pdf first with
        | Some dims =>
            [Some (first,
                   if Str.startsWith "data:image/png" first then "PNG" else "JPEG",
                   margin, fst (fitImage dims), snd (fitImage dims))]
        | None => []
        end
    end.
Proof.
  unfold pdfThumbnail. destruct (imageUrls a) as [|first rest]; [reflexivity|].
  rewrite opsOf_bind, filter_app.
  rewrite no_image_ops by (tracks_all drawsNoImage_tracking).
  cbn [app].
  destruct (loadImage pdf first) as [dims|].
  - destruct (fitImage dims) as [w h]. cbn [fst snd].
    rewrite opsOf_bind, filter_app.
    rewrite no_image_ops by (tracks_all drawsNoImage_tracking).
    cbn [app]. rewrite opsOf_bind.
    match goal with
    | |- context [opsOf getCursor ?c'] => change (opsOf getCursor c') with (@nil Op)
    end.
    cbn [app]. rewrite opsOf_bind. reflexivity.
  - now rewrite no_image_ops by (tracks_all drawsNoImage_tracking).
Qed.

Lemma after_thumbnail_no_image (a : Analysis) :
  tracks drawsNoImage
    (pdfLocation pdf a ;; pdfDate host pdf a ;; pdfBrief pdf a ;; pdfSummary pdf a ;;
     pdfCards pdf a T1 ;; pdfCards pdf a T2 ;; pdfCards pdf a T3 ;;
     pdfConsultants pdf a ;; pdfSuppliers pdf a ;; pdfFooter pdf).
Proof.
  pdf_unfold. tracks_all drawsNoImage_tracking; now repeat constructor.
Qed.
End Thumbnail.

Lemma buildPDFDocument_images (host : Host) (pdf : JsPDF) (a : Analysis) :
  List.map imageView (filter isImage (buildPDFDocument host pdf a))
  = match imageUrls a with
    | [] => []
    | first :: _ =>
        match loadImage pdf first with
        | Some dims =>
            [Some (first,
                   if Str.startsWith "data:image/png" first then "PNG" else "JPEG",
                   margin, fst (fitImage dims), snd (fitImage dims))]
        | None => []
        end
    end.
Proof.
  unfold buildPDFDocument, pdfProgram.
  rewrite opsOf_bind, filter_app.
  rewrite no_image_ops by (unfold pdfTitle; tracks_all drawsNoImage_tracking).
  cbn [app]. rewrite opsOf_bind, filter_app, map_app.
  rewrite (no_image_ops _ _ (after_thumbnail_no_image host pdf a)).
  cbn [List.map]. rewrite app_nil_r. apply pdfThumbnail_images.
Qed.

(** X19: The paginated document embeds at most one image: the first of the
    uploaded images, whatever their number, as PNG when its data URL
    starts with [data:image/png] and as JPEG otherwise, at the left
    margin, in the size [fitImage] gives it; no image when none was
    uploaded or when the first one does not decode. *)
Theorem one_thumbnail_of_the_first_image (host : Host) (pdf : JsPDF) (a : Analysis) :
  List.length (filter isImage (buildPDFDocument host pdf a)) <= 1
  /\ List.map imageView (filter isImage (buildPDFDocument host pdf a))
     = match imageUrls a with
       | [] => []
       | first :: _ =>
           match loadImage pdf first with
           | Some dims =>
               [Some (first,
                      if Str.startsWith "data:image/png" first then "PNG" else "JPEG",
                      margin, fst (fitImage dims), snd (fitImage dims))]
           | None => []
           end
       end.
Proof.
  split; [|apply buildPDFDocument_images].
  rewrite <- (length_map imageView), buildPDFDocument_images.
  destruct (imageUrls a) as [|first rest]; [simpl; lia|].
  destruct (loadImage pdf first); simpl; lia.
Qed.

(** X20: The thumbnail is scaled to fit a box of 80 mm by 60 mm: an image of
    positive width and height comes out at most 80 wide and 60 high, with
    its aspect ratio, and unchanged when it fits already. *)
Theorem thumbnail_fits_its_box (w h : Q) :
  (0 < w)%Q -> (0 < h)%Q ->
  let w' := fst (fitImage (w, h)) in
  let h' := snd (fitImage (w, h)) in
  (0 < w' <= 80)%Q /\ (0 < h' <= 60)%Q
  /\ (w' * h == h' * w)%Q
  /\ ((w <= 80)%Q -> (h <= 60)%Q -> w' = w /\ h' = h).
Proof.
  intros Hw Hh. unfold fitImage. cbn [fst snd]. unfold Qgtb.
  assert (R : (w / h * h == w)%Q) by (field; lra).
  assert (Rpos : (0 < w / h)%Q).
  { apply Qlt_shift_div_l; [exact Hh | lra]. }
  set (r := (w / h)%Q) in *.
  destruct (Qle_bool w 80) eqn:E1; cbn [negb].
  - apply Qle_bool_iff in E1.
    destruct (Qle_bool h 60) eqn:E2; cbn [negb fst snd].
    + apply Qle_bool_iff in E2. repeat split; try lra.
    + assert (H60 : (60 < h)%Q).
      { apply Qnot_le_lt. intros C. apply Qle_bool_iff in C. congruence. }
      repeat split; try nra.
  - assert (H80 : (80 < w)%Q).
    { apply Qnot_le_lt. intros C. apply Qle_bool_iff in C. congruence. }
    assert (I : (80 / r * r == 80)%Q) by (field; lra).
    assert (Ipos : (0 < 80 / r)%Q).
    { apply Qlt_shift_div_l; [exact Rpos | lra]. }
    set (ih := (80 / r)%Q) in *.
    destruct (Qle_bool ih 60) eqn:E2; cbn [negb fst snd].
    + apply Qle_bool_iff in E2. repeat split; try lra; try nra.
    + assert (H60 : (60 < ih)%Q).
      { apply Qnot_le_lt. intros C. apply Qle_bool_iff in C. congruence. }
      repeat split; try lra; try nra.
Qed.

Lemma thumbnail_fits_its_box_witness :
  fitImage (400, 300)%Q = (80, 80 / (400 / 300))%Q
  /\ (fst (fitImage (400, 300)%Q) * 300 == snd (fitImage (400, 300)%Q) * 400)%Q.
Proof.
  split; [reflexivity|].
  apply (thumbnail_fits_its_box 400 300); reflexivity.
Defined.

(** ** No text below the bottom margin *)

Section Margin.
Variable pdf : JsPDF.
Hypothesis page_holds_margins : (margin * 2 <= pageHeight pdf)%Q.

Lemma km_weaken {A : Type} (b b' : bool) (m : Pdf A) :
  keepsMargin pdf b m b' -> keepsMargin pdf b m false.
Proof. intros H c Hc. destruct (H c Hc) as [H1 _]. split; [exact H1 | discriminate]. Qed.

Lemma km_ret {A : Type} (b : bool) (a : A) : keepsMargin pdf b (ret a) b.
Proof. intros c Hc. split; [constructor | exact Hc]. Qed.

Lemma km_bind {A B : Type} (b b1 b2 : bool) (m : Pdf A) (f : A -> Pdf B) :
  keepsMargin pdf b m b1 -> (forall a, keepsMargin pdf b1 (f a) b2) ->
  keepsMargin pdf b (bind m f) b2.
Proof.
  intros Hm Hf c Hc. rewrite opsOf_bind, cursorOf_bind.
  destruct (Hm c Hc) as [H1 H2].
  destruct (Hf (valueOf m c) (cursorOf m c) H2) as [H3 H4].
  split; [now apply Forall_app | exact H4].
Qed.

Lemma km_getCursor (b : bool) : keepsMargin pdf b getCursor b.
Proof. intros c Hc. split; [constructor | exact Hc]. Qed.

Lemma km_setFontSize (b : bool) (s : Q) : keepsMargin pdf b (setFontSize s) b.
Proof. intros c Hc. split; [constructor | exact Hc]. Qed.

Lemma km_setFont (b : bool) (w : bool) : keepsMargin pdf b (setFont w) b.
Proof. intros c Hc. split; [constructor | exact Hc]. Qed.

Lemma km_setTextColor (b : bool) (rgb : nat * nat * nat) :
  keepsMargin pdf b (setTextColor rgb) b.
Proof. intros c Hc. split; [constructor | exact Hc]. Qed.

Lemma km_advance (b : bool) (dy : Q) : keepsMargin pdf b (advance dy) false.
Proof. intros c Hc. split; [constructor | discriminate]. Qed.

Lemma km_docText (tg : Tag) (r : Role) (s : string) (x : Q) :
  keepsMargin pdf true (docText tg r s x) true.
Proof.
  intros c Hc. split; [|exact Hc].
  constructor; [|constructor]. apply Hc. reflexivity.
Qed.

Lemma km_draw (b : bool) (o : Op) :
  aboveBottomMargin pdf o -> keepsMargin pdf b (draw o) b.
Proof. intros H c Hc. split; [now repeat constructor | exact Hc]. Qed.

(** [checkNewPage] leaves the cursor in the page: where it was when the
    required height still fits, at the top margin of a new page
    otherwise. *)
Lemma km_checkNewPage (b : bool) (h : Q) :
  (0 <= h)%Q -> keepsMargin pdf b (checkNewPage pdf h) true.
Proof.
  intros Hh c _. unfold checkNewPage.
  rewrite opsOf_bind, cursorOf_bind.
  change (valueOf getCursor c) with c. change (cursorOf getCursor c) with c.
  change (opsOf getCursor c) with (@nil Op). cbn [app].
  unfold Qgtb. destruct (Qle_bool (yPos c + h) (pageHeight pdf - margin)) eqn:E;
    cbn [negb].
  - apply Qle_bool_iff in E. split; [constructor|]. intros _.
    unfold inPage. cbn. lra.
  - split; [now repeat constructor|]. intros _.
    unfold inPage. cbn. unfold margin in *. lra.
Qed.

Lemma km_checkNewPage_any (b : bool) (h : Q) :
  keepsMargin pdf b (checkNewPage pdf h) false.
Proof.
  intros c _. split; [|discriminate]. unfold checkNewPage.
  rewrite opsOf_bind.
  change (valueOf getCursor c) with c. change (cursorOf getCursor c) with c.
  change (opsOf getCursor c) with (@nil Op). cbn [app].
  destruct (Qgtb (yPos c + h) (pageHeight pdf - margin)); now repeat constructor.
Qed.

Lemma km_pre {A : Type} (b b' : bool) (m : Pdf A) :
  keepsMargin pdf false m b' -> keepsMargin pdf b m b'.
Proof. intros H c _. apply H. discriminate. Qed.

Lemma km_when (b : bool) (t : bool) (m : Pdf unit) :
  keepsMargin pdf b m false -> keepsMargin pdf b (when t m) false.
Proof. intros H. destruct t; [exact H | apply (km_weaken b b), km_ret]. Qed.

Lemma km_forEachFrom {A : Type} (f : A -> nat -> Pdf unit) (l : list A) (i : nat) :
  (forall x j, keepsMargin pdf false (f x j) false) ->
  keepsMargin pdf false (forEachFrom i f l) false.
Proof.
  intros H. revert i. induction l as [|x l IH]; intros i; simpl.
  - apply km_ret.
  - eapply km_bind; [apply H | intros _; apply IH].
Qed.

Lemma km_forEach {A : Type} (b : bool) (l : list A) (f : A -> nat -> Pdf unit) :
  (forall x j, keepsMargin pdf false (f x j) false) ->
  keepsMargin pdf b (forEach l f) false.
Proof. intros H. apply km_pre. now apply km_forEachFrom. Qed.
End Margin.

(** Settles the outcome of a step that has none yet: nothing is known
    of the cursor after it. *)
Ltac km_forget :=
  match goal with
  | |- keepsMargin _ _ _ ?p => first [is_evar p; unify p false | idtac]
  end.

Ltac km_leaf rule := first [eapply rule | eapply km_weaken; eapply rule].

(** Decomposes a goal [keepsMargin pdf b program b'] along the program,
    with the helpers of the writer unfolded. *)
Ltac km_all H :=
  unfold addText, addLabelValue, addBullet, addNameLines, addWrappedField,
    addPlainField, addSpacing;
  repeat match goal with
    | |- keepsMargin _ _ (bind _ _) _ => eapply km_bind; [| intros]
    | |- keepsMargin _ _ (ret _) _ => km_leaf km_ret
    | |- keepsMargin _ _ getCursor _ => km_leaf km_getCursor
    | |- keepsMargin _ _ (setFontSize _) _ => km_leaf km_setFontSize
    | |- keepsMargin _ _ (setFont _) _ => km_leaf km_setFont
    | |- keepsMargin _ _ (setTextColor _) _ => km_leaf km_setTextColor
    | |- keepsMargin _ _ (advance _) _ => eapply km_advance
    | |- keepsMargin _ _ (docText _ _ _ _) _ => km_leaf km_docText
    | |- keepsMargin _ _ (draw _) _ => km_leaf km_draw; [exact I]
    | |- keepsMargin _ _ (checkNewPage _ _) _ =>
        first [ eapply (km_checkNewPage _ H); [apply Qle_bool_iff; reflexivity]
              | eapply km_weaken; eapply (km_checkNewPage _ H);
                [apply Qle_bool_iff; reflexivity]
              | eapply km_checkNewPage_any ]
    | |- keepsMargin _ _ (when _ _) _ => km_forget; eapply km_when
    | |- keepsMargin _ _ (forEach _ _) _ => km_forget; eapply km_forEach; intros
    | |- keepsMargin _ _ (let _ := _ in _) _ => cbv zeta
    | |- keepsMargin _ _ (if ?c then _ else _) _ => km_forget; destruct c
    | |- keepsMargin _ _ (match ?x with _ => _ end) _ => km_forget; destruct x
    end.

(** X21: On a page that holds its two margins, every text the writer draws
    at its cursor stands on or above the bottom margin line, 20 mm above
    the foot of the page: each [doc.text] is reached through
    [checkNewPage], which breaks the page first when the line would not
    fit.  (The page footers are stamped below that line on purpose.) *)
Theorem no_text_below_the_bottom_margin (host : Host) (pdf : JsPDF) (a : Analysis) :
  (margin * 2 <= pageHeight pdf)%Q ->
  Forall (aboveBottomMargin pdf) (buildPDFDocument host pdf a).
Proof.
  intros H.
  assert (K : keepsMargin pdf true (pdfProgram host pdf a) false).
  { pdf_unfold. km_all H. }
  apply K. intros _. unfold inPage, newDocument. cbn. unfold margin in *. lra.
Qed.

Lemma no_text_below_the_bottom_margin_witness :
  Forall (aboveBottomMargin plainPDF)
    (buildPDFDocument plainHost plainPDF
       (sampleAnalysis [sampleMaterial "Curtain Wall" "08" "Openings" T1]
          (Some sampleLocation) true true)).
Proof.
  apply (no_text_below_the_bottom_margin plainHost plainPDF).
  apply Qle_bool_iff. reflexivity.
Defined.

(** ** The same consultants and suppliers in both outputs *)

Section Reading.
Context {X : Type}.
Variable reader : Piece -> list X.

Lemma read_bind {A B : Type} (m : Pdf A) (f : A -> Pdf B) (c : Cursor) :
  flat_map reader (piecesOf (bind m f) c)
  = flat_map reader (piecesOf m c)
    ++ flat_map reader (piecesOf (f (valueOf m c)) (cursorOf m c)).
Proof. now rewrite piecesOf_bind, flat_map_app. Qed.

Lemma read_nothing (ps : list Piece) :
  Forall (fun p => reader p = []) ps -> flat_map reader ps = [].
Proof. induction 1 as [|p ps H _ IH]; [reflexivity|]. simpl. now rewrite H, IH. Qed.

Lemma read_silent {A : Type} (m : Pdf A) (c : Cursor) :
  emits (fun p => reader p = []) m -> flat_map reader (piecesOf m c) = [].
Proof. intros H. apply read_nothing, H. Qed.

Lemma read_forEachFrom {A : Type} (f : A -> nat -> Pdf unit) (h : A -> list X)
    (l : list A) :
  (forall x j c, flat_map reader (piecesOf (f x j) c) = h x) ->
  forall i c, flat_map reader (piecesOf (forEachFrom i f l) c) = flat_map h l.
Proof.
  intros H. induction l as [|x l IH]; intros i c; simpl; [reflexivity|].
  now rewrite read_bind, H, IH.
Qed.

Lemma read_md_app (r1 r2 : list Chunk) :
  flat_map reader (mdPieces (r1 ++ r2))
  = flat_map reader (mdPieces r1) ++ flat_map reader (mdPieces r2).
Proof. now rewrite mdPieces_app, flat_map_app. Qed.

Lemma read_md_nothing (r : list Chunk) :
  Forall (fun ch => reader (tagOf ch, Line) = []) r -> flat_map reader (mdPieces r) = [].
Proof. intros H. apply read_nothing. unfold mdPieces. now apply Forall_map. Qed.

Lemma read_md_entries {E : Type} (tag : E -> Tag) (text : E -> string) (l : list E)
    (h : E -> list X) :
  (forall e, reader (tag e, Line) = h e) ->
  flat_map reader (mdPieces (List.concat (List.map (fun e => emit (tag e) (text e)) l)))
  = flat_map h l.
Proof.
  intros H. induction l as [|e l IH]; [reflexivity|].
  cbn [List.map List.concat]. rewrite read_md_app, IH.
  cbn. now rewrite H, app_nil_r.
Qed.
End Reading.

(** Peels a head that holds no entry off a reading of the pieces of a
    program. *)
Ltac skip_unread :=
  rewrite read_bind;
  match goal with
  | |- context [flat_map ?rd (piecesOf ?m ?c) ++ _] =>
      rewrite (read_silent rd m c) by (emits_all; reflexivity)
  end;
  cbn [app]; cbv beta.

(** The same for a part of the document. *)
Ltac skip_unread_part :=
  rewrite read_bind;
  match goal with
  | |- context [flat_map ?rd (piecesOf ?m ?c) ++ _] =>
      rewrite (read_silent rd m c)
        by (pdf_unfold; emits_all; try destruct (fitImage _); emits_all; reflexivity)
  end;
  cbn [app]; cbv beta.

Lemma flat_map_singleton {A B : Type} (f : A -> B) (l : list A) :
  flat_map (fun x => [f x]) l = List.map f l.
Proof. induction l as [|x l IH]; [reflexivity|]. simpl. now rewrite IH. Qed.

Lemma suppliers_of_no_material (loc : ProjectLocation) (t : Tier) :
  getSuppliersForMaterials [] loc t = [].
Proof. now destruct t. Qed.

Section MarkdownEntries.
Variable host : Host.
Variable a : Analysis.

Lemma mdConsultantsTier_entries (t : Tier) (ms : list Material) :
  consultantEntries (mdPieces (mdConsultantsTier t ms))
  = List.map (pair t) (getConsultantsForDivisions (divisionsOf (ofTier t ms)) t).
Proof.
  unfold consultantEntries, mdConsultantsTier.
  destruct (ofTier t ms) as [|m tierN]; [now destruct t|].
  rewrite !read_md_app.
  rewrite (read_md_entries consultantOf (fun c => ConsultantPart t c EWhole)
             generateConsultantEntry _ (fun c => [(t, c)])) by reflexivity.
  cbn. now rewrite app_nil_r, flat_map_singleton.
Qed.

Lemma markdown_consultant_entries :
  consultantEntries (mdPieces (generateMarkdownChunks host a))
  = consultantsByTier (materials a).
Proof.
  unfold generateMarkdownChunks, renderMarkdown, consultantEntries.
  rewrite !read_md_app.
  rewrite (read_md_nothing _ (mdHeader host a)) by (md_unfold; chunks_all).
  rewrite (read_md_nothing _ (mdBrief a)) by (md_unfold; chunks_all).
  rewrite (read_md_nothing _ (mdLocation a)) by (md_unfold; chunks_all).
  rewrite (read_md_nothing _ (mdSummary a)) by (md_unfold; chunks_all).
  rewrite (read_md_nothing _ (mdDivisions a _)) by (md_unfold; chunks_all).
  rewrite (read_md_nothing _ (mdSummaryByTier a)) by (md_unfold; chunks_all).
  rewrite (read_md_nothing _ (mdCompliance a)) by (md_unfold; chunks_all).
  rewrite (read_md_nothing _ (mdRecommendations a)) by (md_unfold; chunks_all).
  rewrite (read_md_nothing _ (mdSuppliers a)) by (md_unfold; chunks_all).
  cbn [app]. rewrite !app_nil_r.
  unfold mdConsultants. rewrite !read_md_app.
  fold (consultantEntries (mdPieces (mdConsultantsTier T1 (materials a)))).
  fold (consultantEntries (mdPieces (mdConsultantsTier T2 (materials a)))).
  fold (consultantEntries (mdPieces (mdConsultantsTier T3 (materials a)))).
  rewrite !mdConsultantsTier_entries.
  unfold consultantsByTier. cbn. now rewrite app_nil_r.
Qed.

Lemma mdSuppliersTier_entries (t : Tier) (loc : ProjectLocation) :
  supplierEntries (mdPieces (mdSuppliersTier t (materials a) loc))
  = List.map (pair (supplierBlockOf t))
      (getSuppliersForMaterials (ofTier t (materials a)) loc t).
Proof.
  unfold supplierEntries, mdSuppliersTier.
  destruct (ofTier t (materials a)) as [|m tierN];
    [now rewrite suppliers_of_no_material|].
  rewrite !read_md_app.
  destruct (getSuppliersForMaterials (m :: tierN) loc t) as [|s l] eqn:S.
  - exfalso. revert S. apply suppliers_nonempty. discriminate.
  - rewrite (read_md_entries supplierOf
               (fun s => SupplierPart (supplierBlockOf t) s EWhole)
               generateSupplierEntry _ (fun s => [(supplierBlockOf t, s)]))
      by reflexivity.
    cbn [mdPieces emit List.map flat_map supplierOf tagOf app].
    now rewrite app_nil_r, flat_map_singleton.
Qed.

Lemma mdNationalSuppliers_entries (loc : ProjectLocation) :
  supplierEntries (mdPieces (mdNationalSuppliers (materials a) loc))
  = List.map (pair NationalSuppliers) (filter isNational (allSuppliers (materials a) loc)).
Proof.
  unfold supplierEntries, mdNationalSuppliers.
  destruct (filter isNational (allSuppliers (materials a) loc)) as [|s l]; [reflexivity|].
  rewrite !read_md_app.
  rewrite (read_md_entries supplierOf (fun s => SupplierPart NationalSuppliers s EWhole)
             generateSupplierEntry _ (fun s => [(NationalSuppliers, s)])) by reflexivity.
  cbn [mdPieces emit List.map flat_map supplierOf tagOf app].
  now rewrite app_nil_r, flat_map_singleton.
Qed.

Lemma markdown_supplier_entries_listed :
  supplierEntries (mdPieces (generateMarkdownChunks host a)) = suppliersByBlock a.
Proof.
  unfold generateMarkdownChunks, renderMarkdown, supplierEntries.
  rewrite !read_md_app.
  rewrite (read_md_nothing _ (mdHeader host a)) by (md_unfold; chunks_all).
  rewrite (read_md_nothing _ (mdBrief a)) by (md_unfold; chunks_all).
  rewrite (read_md_nothing _ (mdLocation a)) by (md_unfold; chunks_all).
  rewrite (read_md_nothing _ (mdSummary a)) by (md_unfold; chunks_all).
  rewrite (read_md_nothing _ (mdDivisions a _)) by (md_unfold; chunks_all).
  rewrite (read_md_nothing _ (mdSummaryByTier a)) by (md_unfold; chunks_all).
  rewrite (read_md_nothing _ (mdCompliance a)) by (md_unfold; chunks_all).
  rewrite (read_md_nothing _ (mdRecommendations a)) by (md_unfold; chunks_all).
  rewrite (read_md_nothing _ (mdConsultants a)) by (md_unfold; chunks_all).
  cbn [app]. rewrite !app_nil_r.
  unfold mdSuppliers, suppliersByBlock.
  destruct (location a) as [loc|]; [|reflexivity].
  destruct (suppliersShown a); [|reflexivity].
  rewrite !read_md_app.
  fold (supplierEntries (mdPieces (mdSuppliersTier T1 (materials a) loc))).
  fold (supplierEntries (mdPieces (mdSuppliersTier T2 (materials a) loc))).
  fold (supplierEntries (mdPieces (mdNationalSuppliers (materials a) loc))).
  now rewrite !mdSuppliersTier_entries, mdNationalSuppliers_entries.
Qed.
End MarkdownEntries.

Section PaginatedEntries.
Variable host : Host.
Variable pdf : JsPDF.
Variable a : Analysis.

Lemma addConsultantCard_entry (t : Tier) (c : Consultant.t) (cur : Cursor) :
  consultantEntries (piecesOf (addConsultantCard pdf t c) cur) = [(t, c)].
Proof.
  unfold consultantEntries, addConsultantCard. cbv zeta.
  do 5 skip_unread.
  rewrite read_bind.
  match goal with
  | |- _ ++ flat_map _ (piecesOf ?m ?c') = _ =>
      rewrite (read_silent consultantOf m c') by (emits_all; reflexivity)
  end.
  rewrite app_nil_r. unfold addWrappedField.
  do 2 skip_unread. rewrite read_bind.
  match goal with
  | |- _ ++ flat_map _ (piecesOf ?m ?c') = _ =>
      rewrite (read_silent consultantOf m c') by (emits_all; reflexivity)
  end.
  reflexivity.
Qed.

Lemma pdfConsultantsTier_entries (t : Tier) (cur : Cursor) :
  consultantEntries (piecesOf (pdfConsultantsTier pdf t (materials a)) cur)
  = List.map (pair t)
      (getConsultantsForDivisions (divisionsOf (ofTier t (materials a))) t).
Proof.
  unfold pdfConsultantsTier.
  destruct (ofTier t (materials a)) as [|m tierN]; [now destruct t|].
  unfold consultantEntries. do 3 skip_unread. rewrite read_bind.
  match goal with
  | |- _ ++ flat_map _ (piecesOf ?m' ?c') = _ =>
      rewrite (read_silent consultantOf m' c') by (emits_all; reflexivity)
  end.
  rewrite app_nil_r. unfold forEach.
  rewrite (read_forEachFrom consultantOf _ (fun c => [(t, c)])).
  - apply flat_map_singleton.
  - intros c j cur'. skip_unread. apply addConsultantCard_entry.
Qed.

Lemma addSupplierCard_entry (b : SupplierBlock) (s : Supplier.t) (cur : Cursor) :
  supplierEntries (piecesOf (addSupplierCard pdf b s) cur) = [(b, s)].
Proof.
  unfold supplierEntries, addSupplierCard. cbv zeta.
  do 5 skip_unread.
  rewrite read_bind.
  match goal with
  | |- _ ++ flat_map _ (piecesOf ?m ?c') = _ =>
      rewrite (read_silent supplierOf m c') by (emits_all; reflexivity)
  end.
  rewrite app_nil_r.
  match goal with
  | |- flat_map _ (piecesOf (addLabelValue pdf ?tg ?l ?v ?sz) ?c') = _ =>
      destruct (addLabelValue_pieces pdf tg l v sz c') as [vs [E Hvs]]; rewrite E
  end.
  cbn [flat_map supplierOf app]. f_equal.
  apply read_nothing. eapply Forall_impl; [|exact Hvs]. intros p ->. reflexivity.
Qed.

Lemma supplier_cards_entries (b : SupplierBlock) (l : list Supplier.t) (cur : Cursor) :
  supplierEntries
    (piecesOf (forEach l (fun s index =>
                            when (0 <? index) (addSpacing pdf 5) ;;
                            addSupplierCard pdf b s)) cur)
  = List.map (pair b) l.
Proof.
  unfold supplierEntries, forEach.
  rewrite (read_forEachFrom supplierOf _ (fun s => [(b, s)])).
  - apply flat_map_singleton.
  - intros s j cur'. skip_unread. apply addSupplierCard_entry.
Qed.

Lemma pdfSuppliersTier_entries (t : Tier) (loc : ProjectLocation) (cur : Cursor) :
  supplierEntries (piecesOf (pdfSuppliersTier pdf t (materials a) loc) cur)
  = List.map (pair (supplierBlockOf t))
      (getSuppliersForMaterials (ofTier t (materials a)) loc t).
Proof.
  unfold pdfSuppliersTier.
  destruct (ofTier t (materials a)) as [|m tierN];
    [now rewrite suppliers_of_no_material|].
  unfold supplierEntries. do 3 skip_unread. rewrite read_bind.
  match goal with
  | |- _ ++ flat_map _ (piecesOf ?m' ?c') = _ =>
      rewrite (read_silent supplierOf m' c') by (emits_all; reflexivity)
  end.
  rewrite app_nil_r.
  destruct (getSuppliersForMaterials (m :: tierN) loc t) as [|s l] eqn:S.
  - exfalso. revert S. apply suppliers_nonempty. discriminate.
  - apply supplier_cards_entries.
Qed.

Lemma pdfNationalSuppliers_entries (loc : ProjectLocation) (cur : Cursor) :
  supplierEntries (piecesOf (pdfNationalSuppliers pdf (materials a) loc) cur)
  = List.map (pair NationalSuppliers) (filter isNational (allSuppliers (materials a) loc)).
Proof.
  unfold pdfNationalSuppliers.
  destruct (filter isNational (allSuppliers (materials a) loc)) as [|s l]; [reflexivity|].
  unfold supplierEntries. do 5 skip_unread. rewrite read_bind.
  match goal with
  | |- _ ++ flat_map _ (piecesOf ?m' ?c') = _ =>
      rewrite (read_silent supplierOf m' c') by (emits_all; reflexivity)
  end.
  rewrite app_nil_r. apply supplier_cards_entries.
Qed.

Lemma pdfSuppliers_entries (cur : Cursor) :
  supplierEntries (piecesOf (pdfSuppliers pdf a) cur) = suppliersByBlock a.
Proof.
  unfold pdfSuppliers, suppliersByBlock.
  destruct (location a) as [loc|]; [|reflexivity].
  destruct (suppliersShown a); [|reflexivity]. cbn [when].
  unfold supplierEntries. do 5 skip_unread.
  rewrite read_bind, read_bind.
  pose proof pdfSuppliersTier_entries as HT.
  pose proof pdfNationalSuppliers_entries as HN.
  unfold supplierEntries in HT, HN.
  now rewrite !HT, HN.
Qed.

Lemma pdfConsultants_entries (cur : Cursor) :
  consultantEntries (piecesOf (pdfConsultants pdf a) cur) = consultantsByTier (materials a).
Proof.
  unfold pdfConsultants, consultantEntries. do 5 skip_unread.
  rewrite read_bind, read_bind.
  pose proof pdfConsultantsTier_entries as HT. unfold consultantEntries in HT.
  rewrite !HT. unfold consultantsByTier. cbn. now rewrite app_nil_r.
Qed.

Lemma paginated_consultant_entries :
  consultantEntries (pdfPieces (buildPDFDocument host pdf a))
  = consultantsByTier (materials a).
Proof.
  unfold buildPDFDocument.
  change (pdfPieces (opsOf (pdfProgram host pdf a) newDocument))
    with (piecesOf (pdfProgram host pdf a) newDocument).
  unfold pdfProgram, consultantEntries.
  do 9 skip_unread_part.
  rewrite read_bind.
  match goal with
  | |- _ ++ flat_map _ (piecesOf ?m' ?c') = _ =>
      rewrite (read_silent consultantOf m' c')
        by (pdf_unfold; emits_all; reflexivity)
  end.
  rewrite app_nil_r. apply pdfConsultants_entries.
Qed.

Lemma paginated_supplier_entries_listed :
  supplierEntries (pdfPieces (buildPDFDocument host pdf a)) = suppliersByBlock a.
Proof.
  unfold buildPDFDocument.
  change (pdfPieces (opsOf (pdfProgram host pdf a) newDocument))
    with (piecesOf (pdfProgram host pdf a) newDocument).
  unfold pdfProgram, supplierEntries.
  do 10 skip_unread_part.
  rewrite read_bind.
  match goal with
  | |- _ ++ flat_map _ (piecesOf ?m' ?c') = _ =>
      rewrite (read_silent supplierOf m' c')
        by (pdf_unfold; emits_all; reflexivity)
  end.
  rewrite app_nil_r. apply pdfSuppliers_entries.
Qed.
End PaginatedEntries.


(** A national supplier of tier 2 stands twice in either output. *)
Example national_supplier_listed_twice :
  let a := sampleAnalysis [sampleMaterial "Canopy" "05" "Metals" T2]
             (Some sampleLocation) false false in
  List.map (fun e => (fst e, Supplier.company (snd e)))
    (supplierEntries (mdPieces (generateMarkdownChunks plainHost a)))
  = [ (YellowSuppliers, "New York Steel Fabricators");
      (YellowSuppliers, "New York Metal Suppliers");
      (YellowSuppliers, "National Steel Fabricators Solutions");
      (NationalSuppliers, "National Steel Fabricators Solutions") ].
Proof. vm_compute. reflexivity. Qed.

(** ** [split] and [join] *)

Section Split.
Variable c : ascii.
Local Abbreviation sep := (String c EmptyString).

Lemma splitFirst_shorter (s a b : string) :
  Str.splitFirst sep s = Some (a, b) -> String.length b < String.length s.
Proof.
  intros E. apply splitFirst_sound in E. subst s.
  rewrite !length_append. simpl. lia.
Qed.

Lemma splitFuel_enough (f f' : nat) (s : string) :
  String.length s <= f -> String.length s <= f' ->
  Str.splitFuel f sep s = Str.splitFuel f' sep s.
Proof.
  revert f' s. induction f as [|f IH]; intros f' s Hf Hf'.
  - destruct s; [|simpl in Hf; lia]. destruct f'; reflexivity.
  - destruct f' as [|f'].
    + destruct s; [reflexivity | simpl in Hf'; lia].
    + cbn [Str.splitFuel].
      destruct (Str.splitFirst sep s) as [[a b]|] eqn:E; [|reflexivity].
      apply splitFirst_shorter in E. f_equal. apply IH; lia.
Qed.

Lemma split_unfold (s : string) :
  Str.split sep s
  = match Str.splitFirst sep s with
    | Some (a, b) => a :: Str.split sep b
    | None => [s]
    end.
Proof.
  unfold Str.split. destruct (String.length s) as [|n] eqn:L.
  - destruct s; [reflexivity | discriminate].
  - cbn [Str.splitFuel].
    destruct (Str.splitFirst sep s) as [[a b]|] eqn:E; [|reflexivity].
    apply splitFirst_shorter in E. f_equal. apply splitFuel_enough; lia.
Qed.

Lemma split_cons (a r : string) :
  Str.includes sep a = false -> Str.split sep (a +++ sep +++ r) = a :: Str.split sep r.
Proof.
  intros H. rewrite split_unfold.
  change (a +++ sep +++ r) with (a +++ String c r).
  now rewrite (splitFirst_char c a r H).
Qed.

Lemma splitFirst_app (s a b y : string) :
  Str.splitFirst sep s = Some (a, b) -> Str.splitFirst sep (s +++ y) = Some (a, b +++ y).
Proof.
  revert a b. induction s as [|d s IH]; intros a b.
  - discriminate.
  - rewrite splitFirst_unfold. cbn [Str.startsWith].
    change (String d s +++ y) with (String d (s +++ y)).
    rewrite (splitFirst_unfold (String c EmptyString) (String d (s +++ y))).
    cbn [Str.startsWith].
    replace (match s +++ y with EmptyString => true | String _ _ => true end)
      with true by (now destruct (s +++ y)).
    replace (match s with EmptyString => true | String _ _ => true end)
      with true by (now destruct s).
    destruct (Ascii.eqb c d); cbn [andb].
    + intros E. inversion E; subst. reflexivity.
    + destruct (Str.splitFirst sep s) as [[a' b']|]; [|discriminate].
      intros E. inversion E; subst. now rewrite (IH a' b).
Qed.

Lemma split_snoc (x b : string) :
  Str.includes sep b = false -> Str.split sep (x +++ sep +++ b) = Str.split sep x ++ [b].
Proof.
  intros Hb. remember (String.length x) as n eqn:L.
  assert (Hn : String.length x <= n) by lia. clear L.
  revert x Hn. induction n as [|n IH]; intros x Hn.
  - destruct x; [|simpl in Hn; lia].
    change (EmptyString +++ sep +++ b) with (EmptyString +++ sep +++ b).
    rewrite split_cons by reflexivity.
    rewrite (split_without_separator sep b Hb). reflexivity.
  - rewrite (split_unfold x).
    destruct (Str.splitFirst sep x) as [[a r]|] eqn:E.
    + rewrite split_unfold, (splitFirst_app _ _ _ _ E).
      apply splitFirst_shorter in E. cbn [app]. f_equal. apply IH. lia.
    + rewrite split_cons by (unfold Str.includes; now rewrite E).
      now rewrite (split_without_separator sep b Hb).
Qed.

Lemma split_nonempty (s : string) : Str.split sep s <> [].
Proof. apply splitFuel_nonempty. Qed.

(** Joining what was split gives the text back. *)
Lemma join_split (s : string) : Str.join sep (Str.split sep s) = s.
Proof.
  remember (String.length s) as n eqn:L.
  assert (Hn : String.length s <= n) by lia. clear L.
  revert s Hn. induction n as [|n IH]; intros s Hn; rewrite split_unfold.
  - destruct s; [reflexivity | simpl in Hn; lia].
  - destruct (Str.splitFirst sep s) as [[a r]|] eqn:E; [|reflexivity].
    pose proof (splitFirst_shorter _ _ _ E) as Hr.
    pose proof (splitFirst_sound _ _ _ _ E) as Es.
    unfold Str.join in *. 
    destruct (Str.split sep r) as [|p l] eqn:S; [now apply split_nonempty in S|].
    change (String.concat sep (a :: p :: l)) with (a +++ sep +++ String.concat sep (p :: l)).
    rewrite <- S, IH by lia. now symmetry.
Qed.
End Split.

(** ** Image data URLs *)

(** X23: The base64 payload of a data URL is what follows its comma; a text
    without a comma has none. *)
Theorem base64_payload_of_data_url (header payload : string) :
  Str.includes "," header = false ->
  Str.includes "," payload = false ->
  imageToBase64 (header +++ "," +++ payload) = Some payload
  /\ imageToBase64 header = None.
Proof.
  intros Hh Hp. unfold imageToBase64. split.
  - rewrite (split_cons "," header payload Hh).
    now rewrite (split_without_separator "," payload Hp).
  - now rewrite (split_without_separator "," header Hh).
Qed.

Lemma base64_payload_witness :
  imageToBase64 "data:image/png;base64,iVBORw0KGgo=" = Some "iVBORw0KGgo=".
Proof.
  exact (proj1 (base64_payload_of_data_url "data:image/png;base64" "iVBORw0KGgo="
                  eq_refl eq_refl)).
Defined.

(** X24: The media type sent with an image and the format it is embedded in
    the paginated document with agree: PNG for a data URL that starts
    with [data:image/png], JPEG for every other. *)
Theorem media_type_matches_embedding (host : Host) (pdf : JsPDF) (a : Analysis)
    (first : string) (rest : list string) (dims : Q * Q) :
  imageUrls a = first :: rest ->
  loadImage pdf first = Some dims ->
  exists x w h,
    List.map imageView (filter isImage (buildPDFDocument host pdf a))
    = [Some (first, (if String.eqb (getMediaType first) "image/png" then "PNG" else "JPEG"),
             x, w, h)]
    /\ (getMediaType first = "image/png" \/ getMediaType first = "image/jpeg").
Proof.
  intros E L. rewrite buildPDFDocument_images, E, L.
  exists margin, (fst (fitImage dims)), (snd (fitImage dims)).
  unfold getMediaType.
  destruct (Str.startsWith "data:image/jpeg" first) eqn:J1.
  - apply startsWith_drop in J1. rewrite J1. cbn. split; [reflexivity | now right].
  - destruct (Str.startsWith "data:image/jpg" first) eqn:J2.
    + apply startsWith_drop in J2. rewrite J2. cbn. split; [reflexivity | now right].
    + cbn [orb]. destruct (Str.startsWith "data:image/png" first); cbn;
        (split; [reflexivity | auto]).
Qed.

Lemma media_type_matches_embedding_witness :
  exists x w h,
    List.map imageView
      (filter isImage
         (buildPDFDocument plainHost plainPDF (sampleAnalysis [] None false false)))
    = [Some ("data:image/png;base64,AAAA", "PNG", x, w, h)].
Proof.
  destruct (media_type_matches_embedding plainHost plainPDF
              (sampleAnalysis [] None false false)
              "data:image/png;base64,AAAA" [] (400, 300)%Q eq_refl eq_refl)
    as [x [w [h [E _]]]].
  exists x, w, h. exact E.
Defined.

(** ** The JSON text of a response *)

Lemma rev_onto_app (x y acc : string) :
  Str.rev_onto (x +++ y) acc = Str.rev_onto y (Str.rev_onto x acc).
Proof. revert acc. induction x as [|d x IH]; intros acc; [reflexivity | apply IH]. Qed.

Lemma rev_onto_rev_onto (x acc acc' : string) :
  Str.rev_onto (Str.rev_onto x acc) acc' = Str.rev_onto acc (x +++ acc').
Proof.
  revert acc acc'. induction x as [|d x IH]; intros acc acc'; [reflexivity|].
  cbn [Str.rev_onto]. now rewrite IH.
Qed.

Lemma append_empty_r (s : string) : s +++ EmptyString = s.
Proof. induction s as [|d s IH]; [reflexivity|]. simpl. now rewrite IH. Qed.

(** A text that starts and ends with a character that is no white space
    is its own trimmed form. *)
Lemma trim_id (a b : ascii) (s : string) :
  Str.isSpace a = false -> Str.isSpace b = false ->
  Str.trim (String a (s +++ String b EmptyString)) = String a (s +++ String b EmptyString).
Proof.
  intros Ha Hb. unfold Str.trim. cbn [Str.trimStart]. rewrite Ha.
  unfold Str.trimEnd, Str.rev.
  change (String a (s +++ String b EmptyString))
    with (String a s +++ String b EmptyString).
  rewrite rev_onto_app. cbn [Str.rev_onto Str.trimStart]. rewrite Hb.
  cbn [Str.rev_onto]. rewrite rev_onto_rev_onto. reflexivity.
Qed.

Lemma removelast_snoc {A : Type} (l : list A) (x : A) : removelast (l ++ [x]) = l.
Proof.
  induction l as [|y l IH]; [reflexivity|].
  cbn [app removelast]. rewrite IH. now destruct l.
Qed.

(** Brings both sides of an equation of concatenations to one form. *)
Ltac same_text :=
  unfold nl;
  repeat first [rewrite append_assoc' | progress cbn [String.append]];
  reflexivity.

(** X25: A response inside the fence of a markdown code block is handed to
    [JSON.parse] without the fence: the opening line (with or without a
    language) and the closing line are dropped and the array between
    them is kept as it is, line feeds included. *)
Theorem fenced_json_is_unwrapped (lang inner : string) :
  Str.includes nl lang = false ->
  jsonTextOf ("```" +++ lang +++ nl +++ "[" +++ inner +++ "]" +++ nl +++ "```")
  = "[" +++ inner +++ "]".
Proof.
  intros Hl. unfold jsonTextOf.
  assert (T : Str.trim ("```" +++ lang +++ nl +++ "[" +++ inner +++ "]" +++ nl +++ "```")
              = "```" +++ lang +++ nl +++ "[" +++ inner +++ "]" +++ nl +++ "```").
  { replace ("```" +++ lang +++ nl +++ "[" +++ inner +++ "]" +++ nl +++ "```")
      with (String "`" (("``" +++ lang +++ nl +++ "[" +++ inner +++ "]" +++ nl +++ "``")
                        +++ String "`" EmptyString)).
    - now apply trim_id.
    - same_text. }
  rewrite T. cbv zeta.
  change (Str.startsWith "```" ("```" +++ lang +++ nl +++ "[" +++ inner +++ "]" +++ nl +++ "```"))
    with true. cbv iota.
  assert (B : Str.trim ("[" +++ inner +++ "]") = "[" +++ inner +++ "]").
  { change ("[" +++ inner +++ "]") with (String "[" (inner +++ String "]" EmptyString)).
    now apply trim_id. }
  replace ("```" +++ lang +++ nl +++ "[" +++ inner +++ "]" +++ nl +++ "```")
    with (("```" +++ lang) +++ nl +++ (("[" +++ inner +++ "]") +++ nl +++ "```"))
    by same_text.
  unfold nl in *.
  rewrite (split_cons "010" ("```" +++ lang)).
  - rewrite (split_snoc "010" ("[" +++ inner +++ "]") "```") by reflexivity.
    unfold sliceInner. cbn [tl]. rewrite removelast_snoc.
    rewrite (join_split "010"). now rewrite B, B.
  - cbn [String.append]. rewrite !includes_char_cons. cbn [orb Ascii.eqb].
    exact Hl.
Qed.

Lemma fenced_json_witness :
  jsonTextOf ("```json" +++ nl +++ "[{}]" +++ nl +++ "```") = "[{}]".
Proof.
  exact (fenced_json_is_unwrapped "json" "{}" eq_refl).
Defined.

(** A fenced block written on one line loses everything: its only line
    is both the opening and the closing line. *)
Example fence_on_one_line_gives_nothing : jsonTextOf "```[]```" = EmptyString.
Proof. reflexivity. Qed.

(** ** The addresses of the generated contacts *)

Lemma anyChar_app (p : ascii -> bool) (a b : string) :
  anyChar p (a +++ b) = anyChar p a || anyChar p b.
Proof.
  induction a as [|c a IH]; [reflexivity|]. simpl. rewrite IH. apply orb_assoc.
Qed.

Lemma slug_no_space (s : string) : hasSpace (slug s) = false.
Proof.
  unfold hasSpace, slug. generalize (Str.toLowerCase s). intros l.
  induction l as [|c l IH]; [reflexivity|]. simpl.
  destruct (Str.isSpace c) eqn:E; [exact IH|]. simpl. now rewrite E.
Qed.

Ltac no_space :=
  unfold hasSpace; cbn [orEmpty]; rewrite ?anyChar_app;
  repeat match goal with
         | |- context [anyChar Str.isSpace (slug ?s)] =>
             change (anyChar Str.isSpace (slug s)) with (hasSpace (slug s));
             rewrite (slug_no_space s)
         end;
  reflexivity.

(** X26: The e-mail address and the website of a generated consultant or
    supplier hold no white space, whatever the names of the divisions
    and of the jurisdiction hold: the specialty, the supplier type and
    the region are written in lower case with their white space taken
    out. *)
Theorem contact_addresses_hold_no_space (divisions : list string) (ms : list Material)
    (loc : ProjectLocation) (t : Tier) :
  Forall (fun c => hasSpace (Consultant.email c) = false
                   /\ hasSpace (orEmpty (Consultant.website c)) = false)
         (getConsultantsForDivisions divisions t)
  /\ Forall (fun s => hasSpace (Supplier.email s) = false
                      /\ hasSpace (orEmpty (Supplier.website s)) = false)
            (getSuppliersForMaterials ms loc t).
Proof.
  split.
  - unfold getConsultantsForDivisions, mapi.
    destruct t; apply Forall_mapiFrom; intros s j;
      cbn [Consultant.email Consultant.website tier1Consultant tier2Consultant
           tier3Consultant]; split; no_space.
  - unfold getSuppliersForMaterials. apply Forall_app. split.
    + unfold localSuppliers, mapi. apply Forall_concat_mapiFrom. intros d i.
      apply Forall_mapiFrom. intros st j.
      cbn [Supplier.email Supplier.website localSupplier]. split; no_space.
    + unfold nationalSuppliers, mapi.
      destruct (tierEqb t T2 || (3 <? List.length (divisionsOf ms))); [|constructor].
      apply Forall_mapiFrom. intros d i. unfold nationalSupplier. cbv zeta.
      cbn [Supplier.email Supplier.website]. split; no_space.
Qed.

(** ** The note on the number of images *)

Section ImageCount.
Variable host : Host.
Variable pdf : JsPDF.
Variable a : Analysis.
Hypothesis pdf_wraps : wraps pdf.

Lemma pdfThumbnail_note (c : Cursor) :
  hasPiece isImageCountNote (piecesOf (pdfThumbnail pdf a) c)
  = (1 <? List.length (imageUrls a)).
Proof.
  unfold pdfThumbnail. destruct (imageUrls a) as [|first rest] eqn:E; [reflexivity|].
  rewrite hasPiece_bind.
  match goal with
  | |- _ || hasPiece _ (piecesOf ?m ?c') = _ =>
      replace (hasPiece isImageCountNote (piecesOf m c')) with false
  end.
  - rewrite orb_false_r.
    destruct (1 <? List.length (first :: rest)); [|reflexivity]. cbn [when].
    rewrite hasPiece_bind.
    match goal with
    | |- context [piecesOf (addText pdf ?tg ?s ?sz ?b ?rgb) ?c'] =>
        destruct (addText_pieces pdf tg s sz b rgb c') as [lines [f [w [El Ep]]]];
        rewrite Ep
    end.
    destruct lines as [|l0 lines]; [symmetry in El; now apply pdf_wraps in El|].
    reflexivity.
  - symmetry. apply existsb_Forall_false.
    match goal with
    | |- Forall _ (piecesOf ?m ?c') =>
        assert (H : emits (fun p => isImageCountNote p = false) m);
        [|apply H]
    end.
    destruct (loadImage pdf first); [destruct (fitImage _)|]; emits_all; reflexivity.
Qed.

Lemma paginated_image_count_note :
  hasPiece isImageCountNote (pdfPieces (buildPDFDocument host pdf a))
  = (1 <? List.length (imageUrls a)).
Proof.
  unfold buildPDFDocument.
  change (pdfPieces (opsOf (pdfProgram host pdf a) newDocument))
    with (piecesOf (pdfProgram host pdf a) newDocument).
  unfold pdfProgram. rewrite hasPiece_bind, hasPiece_bind, pdfThumbnail_note.
  replace (hasPiece isImageCountNote (piecesOf pdfTitle newDocument)) with false.
  - match goal with
    | |- false || (_ || hasPiece _ (piecesOf ?m ?c')) = _ =>
        replace (hasPiece isImageCountNote (piecesOf m c')) with false
    end.
    + cbn [orb]. apply orb_false_r.
    + symmetry. apply existsb_Forall_false.
      match goal with
      | |- Forall _ (piecesOf ?m ?c') =>
          assert (H : emits (fun p => isImageCountNote p = false) m);
          [|apply H]
      end.
      pdf_unfold. emits_all; reflexivity.
  - reflexivity.
Qed.
End ImageCount.


